(** * DocQuest backend: a shallow embedding of the document pipeline

    The development follows the three backend modules of the repository:
    [processor.py] (segmentation and chunking), [qa_engine.py] (index
    build, retrieval and grounded answering) and [logic_quiz.py]
    (challenge questions and answer evaluation), and the handlers of
    [app.py] that call them.

    Texts are Python [str] values restricted to the ASCII range and are
    modelled as [string]; the [str] methods below have their behaviour on
    ASCII code points.  Exceptions are values of [exn] carried by
    [outcome]; calls to the generative model are recorded in a trace. *)

From Stdlib Require Import String Ascii List Bool Arith Lia DecimalString.
Import ListNotations.

Open Scope string_scope.
Open Scope list_scope.
Open Scope nat_scope.

Notation "a +++ b" := (String.append a b) (right associativity, at level 60).

(** ** Python built-ins on [str], lists, sets and dicts *)
Module Py.

Definition nl : string := String (ascii_of_nat 10) EmptyString.

(** [c.isspace()] on ASCII: TAB, LF, VT, FF, CR, FS, GS, RS, US, SPACE. *)
Definition isspace (c : ascii) : bool :=
  let n := nat_of_ascii c in
  ((9 <=? n) && (n <=? 13)) || ((28 <=? n) && (n <=? 32)).

Definition isdigit (c : ascii) : bool :=
  let n := nat_of_ascii c in (48 <=? n) && (n <=? 57).

Definition is_upper (c : ascii) : bool :=
  let n := nat_of_ascii c in (65 <=? n) && (n <=? 90).

Definition is_lower (c : ascii) : bool :=
  let n := nat_of_ascii c in (97 <=? n) && (n <=? 122).

Definition isalpha_char (c : ascii) : bool := is_upper c || is_lower c.

Definition lower_char (c : ascii) : ascii :=
  if is_upper c then ascii_of_nat (nat_of_ascii c + 32) else c.

Definition upper_char (c : ascii) : ascii :=
  if is_lower c then ascii_of_nat (nat_of_ascii c - 32) else c.

Fixpoint smap (f : ascii -> ascii) (s : string) : string :=
  match s with
  | EmptyString => EmptyString
  | String c s' => String (f c) (smap f s')
  end.

Definition lower (s : string) : string := smap lower_char s.
Definition upper (s : string) : string := smap upper_char s.

Definition len (s : string) : nat := String.length s.

(** Truthiness of a [str]: non-empty. *)
Definition truthy (s : string) : bool :=
  match s with EmptyString => false | _ => true end.

Fixpoint lstrip (s : string) : string :=
  match s with
  | EmptyString => EmptyString
  | String c s' => if isspace c then lstrip s' else s
  end.

Fixpoint rstrip (s : string) : string :=
  match s with
  | EmptyString => EmptyString
  | String c s' =>
      match rstrip s' with
      | EmptyString => if isspace c then EmptyString else String c EmptyString
      | r => String c r
      end
  end.

Definition strip (s : string) : string := rstrip (lstrip s).

(** [s.isalpha()]: non-empty and all letters. *)
Fixpoint all_chars (p : ascii -> bool) (s : string) : bool :=
  match s with
  | EmptyString => true
  | String c s' => p c && all_chars p s'
  end.

Definition isalpha (s : string) : bool := truthy s && all_chars isalpha_char s.

(** [s.split(sep)] for a one-character separator. *)
Fixpoint split_on_go (sep : ascii) (cur : string) (s : string) : list string :=
  match s with
  | EmptyString => [cur]
  | String c s' =>
      if Ascii.eqb c sep then cur :: split_on_go sep EmptyString s'
      else split_on_go sep (cur +++ String c EmptyString) s'
  end.

Definition split_on (sep : ascii) (s : string) : list string :=
  split_on_go sep EmptyString s.

(** [s.split()]: split on runs of whitespace, no empty words. *)
Fixpoint split_go (cur : string) (s : string) : list string :=
  match s with
  | EmptyString => if truthy cur then [cur] else []
  | String c s' =>
      if isspace c
      then (if truthy cur then cur :: split_go EmptyString s'
            else split_go EmptyString s')
      else split_go (cur +++ String c EmptyString) s'
  end.

Definition split_ws (s : string) : list string := split_go EmptyString s.

(** [sep.join(parts)]. *)
Fixpoint join (sep : string) (parts : list string) : string :=
  match parts with
  | [] => EmptyString
  | [p] => p
  | p :: rest => p +++ sep +++ join sep rest
  end.

(** [s[i:j]] for [0 <= i], [0 <= j]. *)
Definition slice (s : string) (i j : nat) : string := substring i (j - i) s.

(** [s[:n]]. *)
Definition take (n : nat) (s : string) : string := substring 0 n s.

Fixpoint startswith (p s : string) : bool :=
  match p, s with
  | EmptyString, _ => true
  | String a p', String b s' => Ascii.eqb a b && startswith p' s'
  | String _ _, EmptyString => false
  end.

(** [sub in s]. *)
Fixpoint contains (sub s : string) : bool :=
  startswith sub s ||
  match s with
  | EmptyString => false
  | String _ s' => contains sub s'
  end.

Definition endswith (suf s : string) : bool :=
  (len suf <=? len s) && String.eqb (substring (len s - len suf) (len suf) s) suf.

(** [str(n)] for a non-negative [int]. *)
Definition str_of_nat (n : nat) : string := NilZero.string_of_uint (Nat.to_uint n).

(** *** Sets of strings: [set(...)], [add], [intersection], [len]

    A set is kept as a duplicate-free list. *)
Definition mem (x : string) (l : list string) : bool := existsb (String.eqb x) l.

Definition set_add (x : string) (s : list string) : list string :=
  if mem x s then s else s ++ [x].

Definition set_of (l : list string) : list string :=
  fold_left (fun acc x => set_add x acc) l [].

Definition intersection (a b : list string) : list string :=
  filter (fun x => mem x b) a.

(** *** Dicts with string keys: insertion-ordered, assignment to an
    existing key replaces its value in place. *)
Section Dict.
Context {V : Type}.

Fixpoint dict_set (d : list (string * V)) (k : string) (v : V) : list (string * V) :=
  match d with
  | [] => [(k, v)]
  | (k', v') :: d' =>
      if String.eqb k' k then (k', v) :: d' else (k', v') :: dict_set d' k v
  end.

Fixpoint dict_get (d : list (string * V)) (k : string) : option V :=
  match d with
  | [] => None
  | (k', v') :: d' => if String.eqb k' k then Some v' else dict_get d' k
  end.

Definition keys (d : list (string * V)) : list string := map fst d.
Definition values (d : list (string * V)) : list V := map snd d.

End Dict.

(** [enumerate(l)] starting at [start]. *)
Fixpoint enumerate_from {A : Type} (start : nat) (l : list A) : list (nat * A) :=
  match l with
  | [] => []
  | x :: l' => (start, x) :: enumerate_from (S start) l'
  end.

Definition enumerate {A : Type} (l : list A) : list (nat * A) := enumerate_from 0 l.

(** [range(0, stop, step)] for [step > 0]. *)
Fixpoint range_go (fuel i stop step : nat) : list nat :=
  match fuel with
  | 0 => []
  | S fuel' => if i <? stop then i :: range_go fuel' (i + step) stop step else []
  end.

Definition range (stop step : nat) : list nat := range_go stop 0 stop step.

(** *** Exceptions and results *)
Inductive exn : Type :=
| ValueError (msg : string)
| Exception (msg : string).

(** [str(e)]. *)
Definition str_of_exn (e : exn) : string :=
  match e with ValueError m => m | Exception m => m end.

Inductive outcome (A : Type) : Type :=
| Return (a : A)
| Raise (e : exn).
Arguments Return {A} a.
Arguments Raise {A} e.

(** The trace of prompts sent to the generative model, oldest first. *)
Definition trace := list string.

Definition M (A : Type) : Type := trace -> outcome A * trace.

Definition ret {A} (a : A) : M A := fun t => (Return a, t).
Definition raise {A} (e : exn) : M A := fun t => (Raise e, t).
Definition bind {A B} (m : M A) (f : A -> M B) : M B :=
  fun t => match m t with
           | (Return a, t') => f a t'
           | (Raise e, t') => (Raise e, t')
           end.
(** [try: m  except Exception as e: h e]. *)
Definition try_except {A} (m : M A) (h : exn -> M A) : M A :=
  fun t => match m t with
           | (Return a, t') => (Return a, t')
           | (Raise e, t') => h e t'
           end.
Definition lift {A} (o : outcome A) : M A := fun t => (o, t).

End Py.
Export Py.

Notation "x <- m ;; k" := (bind m (fun x => k))
  (at level 61, m at next level, right associativity).

(** ** The regular expressions of the source ([re.match], [re.search])

    Only the constructs the source's patterns use: literals, character
    classes, greedy repetition, one capturing group and [$].  Matching is
    by backtracking, as in Python's engine, so that the captured group is
    the one Python reports. *)
Module Re.

Inductive regex : Type :=
| Eps
| Chr (p : ascii -> bool)
| Seq (a b : regex)
| Star (a : regex)
| Group (a : regex)
| Eol (multiline : bool).

Definition Plus (a : regex) : regex := Seq a (Star a).

(** [run r s cap k]: match [r] at the start of [s]; [k] receives what is
    left of [s] and the text captured so far. *)
Fixpoint run (r : regex) (s : string) (cap : string)
             (k : string -> string -> option string) : option string :=
  match r with
  | Eps => k s cap
  | Chr p =>
      match s with
      | String c s' => if p c then k s' cap else None
      | EmptyString => None
      end
  | Seq a b => run a s cap (fun s' cap' => run b s' cap' k)
  | Star a =>
      (fix loop (fuel : nat) (s : string) (cap : string) : option string :=
         match fuel with
         | 0 => k s cap
         | S fuel' =>
             match run a s cap (fun s' cap' =>
                                  if len s' <? len s then loop fuel' s' cap' else None) with
             | Some x => Some x
             | None => k s cap
             end
         end) (len s) s cap
  | Group a => run a s cap (fun s' _ => k s' (take (len s - len s') s))
  | Eol multiline =>
      match s with
      | EmptyString => k s cap
      | String c rest =>
          if Ascii.eqb c (ascii_of_nat 10) && (multiline || negb (truthy rest))
          then k s cap else None
      end
  end.

(** [re.match(r, s)]: [Some g] when the pattern matches at position 0,
    [g] being [group(1)] (empty when the pattern has no group). *)
Definition re_match (r : regex) (s : string) : option string :=
  run r s EmptyString (fun _ cap => Some cap).

(** [re.search(r, s)]: the first position where the pattern matches. *)
Fixpoint re_search (r : regex) (s : string) : option string :=
  match re_match r s with
  | Some g => Some g
  | None =>
      match s with
      | EmptyString => None
      | String _ s' => re_search r s'
      end
  end.

Definition is_some {A} (o : option A) : bool :=
  match o with Some _ => true | None => false end.

(** A literal, and a literal under [re.IGNORECASE]. *)
Fixpoint lit (s : string) : regex :=
  match s with
  | EmptyString => Eps
  | String c s' => Seq (Chr (Ascii.eqb c)) (lit s')
  end.

Fixpoint lit_ci (s : string) : regex :=
  match s with
  | EmptyString => Eps
  | String c s' =>
      Seq (Chr (fun x => Ascii.eqb (lower_char x) (lower_char c))) (lit_ci s')
  end.

Definition digit : regex := Chr isdigit.
Definition space : regex := Chr isspace.
(** [.]: any character but a newline. *)
Definition dot : regex := Chr (fun c => negb (Ascii.eqb c (ascii_of_nat 10))).
Definition chr (c : ascii) : regex := Chr (Ascii.eqb c).

Fixpoint seqs (l : list regex) : regex :=
  match l with
  | [] => Eps
  | r :: l' => Seq r (seqs l')
  end.

End Re.

(** ** Values shared by the three modules *)

(** A chunk dict [{"section": .., "paragraph": .., "text": .., "chunk_id": ..}];
    a key may be absent. *)
Record chunk_dict : Type := mk_chunk {
  c_section : option string;
  c_paragraph : option nat;
  c_text : option string;
  c_chunk_id : option nat
}.

(** The metadata dict of a langchain [Document]. *)
Record metadata : Type := mk_metadata {
  md_section : option string;
  md_paragraph : option nat;
  md_chunk_id : option nat
}.

Record Document : Type := mk_document {
  page_content : string;
  doc_metadata : metadata
}.

(** A loaded FAISS store, seen through [similarity_search(query, k)]. *)
Definition vector_store : Type := string -> nat -> outcome (list Document).

(** An uploaded file. *)
Record file : Type := mk_file {
  filename : string;
  content : string
}.

(** The external collaborators: environment variables, the file system,
    PyMuPDF, langchain's splitter, FAISS and the generative model.  The
    model's answer may depend on how many prompts it has already served. *)
Record env : Type := mk_env {
  hf_token : option string;
  endpoint_init : outcome unit;
  llm_invoke : nat -> string -> outcome string;
  split_text : string -> outcome (list string);
  fitz_open : string -> outcome (list (outcome string));
  makedirs : outcome unit;
  index_exists : bool;
  faiss_load : outcome vector_store;
  faiss_save : list Document -> outcome unit;
  set_order : list string -> list string
}.

(** [llm.invoke(prompt)]: the call is recorded whether it returns or raises. *)
Definition invoke (w : env) (prompt : string) : M string :=
  fun t => (llm_invoke w (length t) prompt, t ++ [prompt]).

(** [os.getenv("HF_TOKEN")] is truthy. *)
Definition has_token (w : env) : bool :=
  match hf_token w with
  | Some tok => truthy tok
  | None => false
  end.

(** ** processor.py *)
Module Processor.

Definition SECTION_HEADERS : list string :=
  [ "Abstract"; "Introduction"; "Background"; "Methodology"; "Methods";
    "Results"; "Discussion"; "Conclusion"; "References"; "Literature Review";
    "Related Work"; "Experiments"; "Analysis"; "Findings"; "Summary";
    "Overview"; "Executive Summary"; "Objectives"; "Scope"; "Definitions" ].

(** [get_llm]: the token is required, then the endpoint is constructed. *)
Definition get_llm (w : env) : M unit :=
  if negb (has_token w)
  then raise (ValueError "HF_TOKEN environment variable is required")
  else lift (endpoint_init w).

Definition extract_text_from_pdf (w : env) (f : file) : outcome string :=
  let body : outcome string :=
    if negb (truthy (content f)) then Raise (ValueError "PDF file is empty")
    else
      match fitz_open w (content f) with
      | Raise e => Raise e
      | Return pages =>
          if length pages =? 0 then Raise (ValueError "PDF has no pages")
          else
            let text_parts :=
              fold_left (fun parts page =>
                           match page with
                           | Return page_text =>
                               if truthy (strip page_text)
                               then parts ++ [page_text] else parts
                           | Raise _ => parts
                           end) pages [] in
            match text_parts with
            | [] => Raise (ValueError "No extractable text found in PDF")
            | _ => Return (join nl text_parts)
            end
      end in
  match body with
  | Return full_text => Return full_text
  | Raise e => Raise (ValueError ("PDF parsing error: " +++ str_of_exn e))
  end.

Definition extract_text_from_txt (f : file) : outcome string :=
  let body : outcome string :=
    let text := content f in
    if negb (truthy (strip text))
    then Raise (ValueError "TXT file is empty or contains no readable text")
    else Return text in
  match body with
  | Return text => Return text
  | Raise e => Raise (ValueError ("TXT parsing error: " +++ str_of_exn e))
  end.

Definition extract_text (w : env) (f : file) : outcome string :=
  let name := lower (filename f) in
  if endswith ".pdf" name then extract_text_from_pdf w f
  else if endswith ".txt" name then extract_text_from_txt f
  else Raise (ValueError
                "Unsupported file format. Only PDF and TXT files are supported.").

(** The six patterns tried for one header, all under [re.IGNORECASE]. *)
Definition patterns (header : string) : list Re.regex :=
  [ Re.seqs [Re.lit_ci header; Re.Eol false];
    Re.seqs [Re.lit_ci header; Re.Star Re.space; Re.Eol false];
    Re.seqs [Re.Plus Re.digit; Re.chr "."; Re.Star Re.space;
             Re.lit_ci header; Re.Eol false];
    Re.seqs [Re.Plus Re.digit; Re.chr "."; Re.Plus Re.digit; Re.Star Re.space;
             Re.lit_ci header; Re.Eol false];
    Re.seqs [Re.lit_ci (upper header); Re.Eol false];
    Re.seqs [Re.lit_ci (lower header); Re.Eol false] ].

Definition matches_header (line_clean header : string) : bool :=
  existsb (fun pattern => Re.is_some (Re.re_match pattern line_clean))
          (patterns header).

(** The first header of [SECTION_HEADERS] one of whose patterns matches. *)
Definition find_header (line_clean : string) : option string :=
  find (matches_header line_clean) SECTION_HEADERS.

Record seg_state : Type := mk_seg {
  sections : list (string * string);
  current_section : string;
  buffer : list string
}.

Definition flush (st : seg_state) : list (string * string) :=
  match buffer st with
  | [] => sections st
  | _ => dict_set (sections st) (current_section st) (strip (join nl (buffer st)))
  end.

(** One iteration of the loop over the lines. *)
Definition seg_step (st : seg_state) (line : string) : seg_state :=
  let line_clean := strip line in
  if negb (truthy line_clean) then st
  else
    match find_header line_clean with
    | Some header => mk_seg (flush st) header []
    | None => mk_seg (sections st) (current_section st) (buffer st ++ [line])
    end.

Definition split_into_sections (text : string) : list (string * string) :=
  let lines := split_on (ascii_of_nat 10) text in
  let st := fold_left seg_step lines (mk_seg [] "Main Content" []) in
  filter (fun kv => truthy (strip (snd kv))) (flush st).

(** The fixed-stride slices of the [except] branch. *)
Definition fallback_slices (section_text : string) : list string :=
  map (fun i => slice section_text i (i + 500)) (range (len section_text) 400).

Definition chunk_section (w : env) (section_text : string) : list string :=
  if negb (truthy (strip section_text)) then []
  else
    match split_text w section_text with
    | Return chunks => filter (fun chunk => 30 <? len (strip chunk)) chunks
    | Raise _ => fallback_slices section_text
    end.

Definition generate_fallback_summary (sections : list (string * string)) : string :=
  let summary_parts :=
    fold_left (fun parts kv =>
                 let sentences := firstn 2 (split_on "." (snd kv)) in
                 match sentences with
                 | [] => parts
                 | _ =>
                     let clean_text := strip (join ". " sentences) in
                     if truthy clean_text && (20 <? len clean_text)
                     then parts ++ [fst kv +++ ": " +++ clean_text]
                     else parts
                 end) (firstn 3 sections) [] in
  match summary_parts with
  | [] => "Document contains " +++ str_of_nat (length sections) +++
          " sections with processed content ready for analysis."
  | _ => "Document Summary:" +++ nl +++ join nl summary_parts
  end.

(** One pass of the retry loop of [generate_summary]: a usable response
    is returned, an empty one or an exception is logged. *)
Definition summary_attempt (w : env) (prompt : string) : M (option string) :=
  try_except
    (response <- invoke w prompt ;;
     if truthy response && truthy (strip response)
     then
       let words := split_ws (strip response) in
       if 150 <? length words
       then ret (Some (join " " (firstn 150 words) +++ "..."))
       else ret (Some (strip response))
     else ret None)
    (fun _ => ret None).

(** [for attempt in range(max_retries)]; [attempts] counts what is left.
    [time.sleep] has no effect on the result. *)
Fixpoint summary_attempts (w : env) (prompt : string) (attempts : nat)
  : M (option string) :=
  match attempts with
  | 0 => ret None
  | S attempts' =>
      r <- summary_attempt w prompt ;;
      match r with
      | Some summary => ret (Some summary)
      | None => summary_attempts w prompt attempts'
      end
  end.

Definition generate_summary (w : env) (sections : list (string * string)) : M string :=
  try_except
    (_ <- get_llm w ;;
     let combined :=
       fold_left (fun acc kv =>
                    acc +++ nl +++ fst kv +++ ": " +++ take 400 (snd kv) +++ nl)
                 (firstn 4 sections) "" in
     let combined := take 1800 combined in
     let prompt :=
       "Create a concise summary of this document in exactly 150 words or less. Focus on the main purpose, key findings, and conclusions:"
       +++ nl +++ nl +++ combined +++ nl +++ nl +++ "Summary (150 words max):" in
     r <- summary_attempts w prompt 3 ;;
     match r with
     | Some summary => ret summary
     | None => ret (generate_fallback_summary sections)
     end)
    (fun _ => ret (generate_fallback_summary sections)).

Record stats : Type := mk_stats {
  total_chunks : nat;
  total_sections : nat;
  total_text_length : nat
}.

Record result : Type := mk_result {
  r_sections : list string;
  r_chunks : list chunk_dict;
  r_summary : string;
  r_stats : stats
}.

(** The loop over [sections_raw.items()]: a section whose chunking raises
    is logged and skipped. *)
Definition chunk_step (chunker : string -> outcome (list string))
    (acc : list (string * list string) * list chunk_dict) (kv : string * string)
  : list (string * list string) * list chunk_dict :=
  let '(sec_name, sec_text) := kv in
  match chunker sec_text with
  | Return chunked =>
      (dict_set (fst acc) sec_name chunked,
       snd acc ++ map (fun ic => mk_chunk (Some sec_name) (Some (fst ic + 1))
                                          (Some (snd ic)) None)
                      (enumerate chunked))
  | Raise _ => acc
  end.

Definition process_document_with (w : env)
    (chunker : string -> outcome (list string)) (f : file) : M result :=
  text <- lift (extract_text w f) ;;
  let sections_raw := split_into_sections text in
  match sections_raw with
  | [] => raise (ValueError "No sections found in document")
  | _ =>
      let '(sections, chunks) := fold_left (chunk_step chunker) sections_raw ([], []) in
      match chunks with
      | [] => raise (ValueError "No chunks generated from document")
      | _ =>
          summary <- try_except (generate_summary w sections_raw)
                       (fun _ => ret "Summary generation failed. Document processed successfully.") ;;
          ret (mk_result (keys sections) chunks summary
                 (mk_stats (length chunks) (length sections) (len text)))
      end
  end.

Definition process_document (w : env) (f : file) : M result :=
  process_document_with w (fun sec_text => Return (chunk_section w sec_text)) f.

End Processor.

(** ** qa_engine.py *)
Module QaEngine.

Definition max_retries : nat := 3.

(** [get_llm]: the endpoint is constructed and probed with the prompt
    ["Test"]; an empty probe answer or any exception ends in the same
    [ValueError]. *)
Definition get_llm (w : env) : M unit :=
  if negb (has_token w)
  then raise (ValueError "HF_TOKEN environment variable is required")
  else
    ok <- try_except
            (_ <- lift (endpoint_init w) ;;
             test_response <- invoke w "Test" ;;
             ret (truthy test_response && truthy (strip test_response)))
            (fun _ => ret false) ;;
    if ok then ret tt
    else raise (ValueError "Failed to initialize any LLM model").

Definition get_or {A} (o : option A) (d : A) : A :=
  match o with Some a => a | None => d end.

(** One iteration of the loop over the chunks: [chunk_id] is read from
    [len(texts)] after the text has been appended. *)
Definition build_step (acc : list string * list metadata) (c : chunk_dict)
  : list string * list metadata :=
  match c_text c with
  | Some text =>
      if truthy text && truthy (strip text)
      then
        let texts := fst acc ++ [text] in
        (texts,
         snd acc ++ [mk_metadata (Some (get_or (c_section c) "Unknown"))
                                 (Some (get_or (c_paragraph c) 0))
                                 (Some (length texts))])
      else acc
  | None => acc
  end.

(** [build_vector_store]: the result is the list of documents handed to
    FAISS and persisted. *)
Definition build_vector_store (w : env) (chunks : list chunk_dict)
  : outcome (list Document) :=
  match makedirs w with
  | Raise e => Raise e
  | Return _ =>
      let '(texts, metadatas) := fold_left build_step chunks ([], []) in
      match texts with
      | [] => Raise (ValueError "No valid text chunks provided")
      | _ =>
          let docs := map (fun tm => mk_document (fst tm) (snd tm))
                          (combine texts metadatas) in
          match faiss_save w docs with
          | Raise e => Raise e
          | Return _ => Return docs
          end
      end
  end.

Definition load_vector_store (w : env) : M vector_store :=
  if negb (index_exists w)
  then raise (ValueError "Vector store not found. Please process a document first.")
  else lift (faiss_load w).

Definition retrieve_relevant_chunks (w : env) (query : string) (k : nat)
  : M (list Document) :=
  try_except
    (vs <- load_vector_store w ;;
     lift (vs query k))
    (fun _ => ret []).

(** [document_to_dict]: [{"page_content": .., "metadata": ..}]. *)
Record source : Type := mk_source {
  src_page_content : string;
  src_metadata : metadata
}.

Definition document_to_dict (doc : Document) : source :=
  mk_source (page_content doc) (doc_metadata doc).

Record answer_result : Type := mk_answer {
  answer : string;
  sources : list source;
  confidence : string
}.

Definition overlap (a b : string) : nat :=
  length (intersection (set_of (split_ws (lower a))) (set_of (split_ws (lower b)))).

Definition is_response_grounded (response context : string) : bool :=
  if contains "SOURCE" (upper response) || contains "SECTION" (upper response)
  then true
  else 3 <? overlap context response.

(** [f"{para}"] for a paragraph number, ["?"] when the key is absent. *)
Definition show_para (p : option nat) : string :=
  match p with Some n => str_of_nat n | None => "?" end.

Definition generate_fallback_answer (query : string) (docs : list Document)
  : answer_result :=
  match docs with
  | [] => mk_answer "No relevant information found in the document to answer your question."
                    [] "low"
  | _ =>
      let answer_parts :=
        map (fun doc =>
               let section := get_or (md_section (doc_metadata doc)) "Unknown Section" in
               let para := show_para (md_paragraph (doc_metadata doc)) in
               let content := take 200 (page_content doc) in
               let content := if endswith "..." content
                              then take (len content - 3) content else content in
               "From " +++ section +++ " (paragraph " +++ para +++ "): " +++ content)
            (firstn 3 docs) in
      let answer := "Based on the document content:" +++ nl +++ nl +++
                    join (nl +++ nl) answer_parts in
      let answer := if 500 <? len answer then take 500 answer +++ "..." else answer in
      mk_answer answer (map document_to_dict docs) "medium"
  end.

Definition build_context (docs : list Document) : string :=
  let context_parts :=
    map (fun idoc =>
           let '(i, doc) := idoc in
           let section := get_or (md_section (doc_metadata doc)) "Unknown Section" in
           let para := show_para (md_paragraph (doc_metadata doc)) in
           "[SOURCE " +++ str_of_nat (i + 1) +++ " - Section: " +++ section +++
           ", Paragraph: " +++ para +++ "]" +++ nl +++ page_content doc)
        (enumerate docs) in
  let context := join (nl +++ nl) context_parts in
  if 2000 <? len context then take 2000 context +++ "..." else context.

Definition build_prompt (context query : string) : string :=
  join nl
    [ "You are a document assistant. Answer ONLY based on the provided context from the document. ";
      "";
      "STRICT RULES:";
      "1. Use ONLY information explicitly stated in the context";
      "2. If the context doesn't contain enough information to answer fully, say so";
      "3. Always reference which SOURCE number you're using";
      "4. Do NOT add external knowledge or assumptions";
      "5. If uncertain, state your uncertainty clearly";
      "";
      "Context from document:";
      context;
      "";
      "Question: " +++ query;
      "";
      "Answer (reference sources by number):" ].

(** One pass of the retry loop: [Some] is a [return], [None] goes on to
    the next attempt; the exception of the last attempt is re-raised. *)
Definition answer_attempt (w : env) (query : string) (docs : list Document)
    (context prompt : string) (attempt : nat) : M (option answer_result) :=
  try_except
    (response <- invoke w prompt ;;
     if truthy response && truthy (strip response)
     then
       if is_response_grounded response context
       then ret (Some (mk_answer (strip response) (map document_to_dict docs) "high"))
       else ret (Some (generate_fallback_answer query docs))
     else ret None)
    (fun e => if attempt <? max_retries - 1 then ret None else raise e).

Fixpoint answer_attempts (w : env) (query : string) (docs : list Document)
    (context prompt : string) (attempts : list nat) : M answer_result :=
  match attempts with
  | [] => ret (generate_fallback_answer query docs)
  | attempt :: rest =>
      r <- answer_attempt w query docs context prompt attempt ;;
      match r with
      | Some res => ret res
      | None => answer_attempts w query docs context prompt rest
      end
  end.

Definition generate_answer_with_sources (w : env) (query : string) (k : nat)
  : M answer_result :=
  try_except
    (vector_store <- load_vector_store w ;;
     docs <- lift (vector_store query k) ;;
     match docs with
     | [] => ret (mk_answer
                    "No relevant information found in the document to answer your question."
                    [] "low")
     | _ =>
         let context := build_context docs in
         let prompt := build_prompt context query in
         try_except
           (_ <- get_llm w ;;
            answer_attempts w query docs context prompt (range max_retries 1))
           (fun _ => ret (generate_fallback_answer query docs))
     end)
    (fun e => ret (mk_answer ("Error generating answer: " +++ str_of_exn e) [] "error")).

End QaEngine.

(** ** logic_quiz.py *)
Module LogicQuiz.

Definition max_retries : nat := 3.

(** A chunk reaches this module as a langchain [Document] or as a dict. *)
Inductive chunk : Type :=
| Doc (d : Document)
| Dict (c : chunk_dict).

Definition get_llm (w : env) : M unit :=
  if negb (has_token w)
  then raise (ValueError "HF_TOKEN environment variable is required")
  else try_except (lift (endpoint_init w))
         (fun _ => raise (ValueError "Failed to initialize any LLM model")).

(** [extract_text_from_response]: the endpoint's [invoke] returns a [str],
    which is the first branch. *)
Definition extract_text_from_response (response : string) : string := response.

Definition get_or {A} (o : option A) (d : A) : A :=
  match o with Some a => a | None => d end.

Definition document_to_dict (c : chunk) : chunk_dict :=
  match c with
  | Doc doc =>
      mk_chunk (Some (get_or (md_section (doc_metadata doc)) "Unknown"))
               (Some (get_or (md_paragraph (doc_metadata doc)) 0))
               (Some (page_content doc))
               (Some (get_or (md_chunk_id (doc_metadata doc)) 0))
  | Dict d => d
  end.

Definition overlap (a b : string) : nat :=
  length (intersection (set_of (split_ws a)) (set_of (split_ws b))).

Definition invalid_patterns : list Re.regex :=
  [ Re.seqs [Re.lit "external"; Re.Plus Re.space; Re.lit "knowledge"];
    Re.seqs [Re.lit "outside"; Re.Plus Re.space; Re.lit "the";
             Re.Plus Re.space; Re.lit "document"];
    Re.seqs [Re.lit "research"; Re.Plus Re.space; Re.lit "further"];
    Re.seqs [Re.lit "google"; Re.Plus Re.space; Re.lit "search"];
    Re.seqs [Re.lit "additional"; Re.Plus Re.space; Re.lit "sources"] ].

Definition is_valid_question (question : string) (doc_chunks : list chunk_dict) : bool :=
  if negb (truthy question) || (len question <? 10) then false
  else if negb (endswith "?" question) then false
  else
    let question_lower := lower question in
    if existsb (fun pattern => Re.is_some (Re.re_search pattern question_lower))
               invalid_patterns
    then false
    else
      let doc_text :=
        lower (join " " (map (fun c => get_or (c_text c) "") (firstn 5 doc_chunks))) in
      2 <? overlap question_lower doc_text.

(** The tail [(.+\?)\s*$] shared by the five line patterns, which are
    compiled with [re.MULTILINE]. *)
Definition question_tail : list Re.regex :=
  [ Re.Group (Re.seqs [Re.Plus Re.dot; Re.chr "?"]); Re.Star Re.space; Re.Eol true ].

(** The bullet of the fourth pattern is U+2022, which no ASCII character
    equals. *)
Definition bullet : Re.regex := Re.Chr (fun _ => false).

Definition question_patterns : list Re.regex :=
  [ Re.seqs ([Re.Plus Re.digit; Re.chr "."; Re.Star Re.space] ++ question_tail);
    Re.seqs ([Re.Plus Re.digit; Re.chr ")"; Re.Star Re.space] ++ question_tail);
    Re.seqs ([Re.chr "-"; Re.Star Re.space] ++ question_tail);
    Re.seqs ([bullet; Re.Star Re.space] ++ question_tail);
    Re.seqs question_tail ].

(** The first pattern that matches the line decides. *)
Fixpoint first_match (patterns : list Re.regex) (line : string) : option string :=
  match patterns with
  | [] => None
  | pattern :: rest =>
      match Re.re_match pattern line with
      | Some g => Some g
      | None => first_match rest line
      end
  end.

Definition parse_and_validate_questions (response : string)
    (doc_chunks : list chunk_dict) : list string :=
  let lines := split_on (ascii_of_nat 10) (strip response) in
  fold_left (fun questions line =>
               let line := strip line in
               if negb (truthy line) then questions
               else
                 match first_match question_patterns line with
                 | Some g =>
                     let question := strip g in
                     if is_valid_question question doc_chunks
                     then questions ++ [question] else questions
                 | None => questions
                 end) lines [].

Definition generic_questions : list string :=
  [ "What are the main points discussed in this document?";
    "How are the different sections related to each other?";
    "What conclusions can be drawn from the content?" ].

Definition fallback_questions : list string :=
  [ "What are the main themes or arguments presented in this document?";
    "What evidence or examples are provided to support the main points?";
    "What questions or implications does this document raise for further consideration?";
    "How might the information in this document be applied or interpreted?";
    "What connections can be made between different parts of this document?" ].

(** The loop over [processed_chunks[:10]] that collects section names and
    key terms. *)
Definition structure_step (acc : list string * list string) (c : chunk_dict)
  : list string * list string :=
  let section := get_or (c_section c) "" in
  let sections := if truthy section then set_add section (fst acc) else fst acc in
  let words := split_ws (lower (get_or (c_text c) "")) in
  let key_terms :=
    fold_left (fun kt word =>
                 if (6 <? len word) && isalpha word then set_add word kt else kt)
              words (snd acc) in
  (sections, key_terms).

(** [list(sections)] enumerates a set in the order CPython's hashing
    gives; [set_order] stands for it. *)
Definition generate_fallback_questions (w : env) (doc_chunks : list chunk) (num : nat)
  : list string :=
  match doc_chunks with
  | [] => firstn num generic_questions
  | _ =>
      let processed_chunks := map document_to_dict doc_chunks in
      let '(sections, key_terms) :=
        fold_left structure_step (firstn 10 processed_chunks) ([], []) in
      let questions :=
        if 1 <? length sections
        then [ "How do the different sections (" +++
               join ", " (firstn 3 (set_order w sections)) +++
               ") relate to each other?" ]
        else [] in
      let questions :=
        match key_terms with
        | [] => questions
        | _ => questions ++
               [ "What is the significance of the key concepts discussed in this document?" ]
        end in
      firstn num (questions ++ fallback_questions)
  end.

(** The selection loop: the first chunk of each section, eight at most. *)
Definition select_step (acc : list chunk_dict * list string) (c : chunk_dict)
  : list chunk_dict * list string :=
  let section := get_or (c_section c) "Unknown" in
  if negb (mem section (snd acc)) && (length (fst acc) <? 8)
  then (fst acc ++ [c], set_add section (snd acc))
  else acc.

Definition select_chunks (processed_chunks : list chunk_dict) : list chunk_dict :=
  match fst (fold_left select_step processed_chunks ([], [])) with
  | [] => firstn 5 processed_chunks
  | selected => selected
  end.

Definition questions_context (selected_chunks : list chunk_dict) : string :=
  join (nl +++ nl)
    (map (fun ic =>
            let '(i, c) := ic in
            let section := get_or (c_section c) "Unknown" in
            let text := take 300 (get_or (c_text c) "") in
            "[SECTION " +++ str_of_nat (i + 1) +++ ": " +++ section +++ "]" +++ nl +++ text)
         (enumerate selected_chunks)).

Definition questions_prompt (num : nat) (full_context : string) : string :=
  join nl
    [ "Generate " +++ str_of_nat num +++
      " analytical questions based ONLY on the provided document content.";
      "";
      "REQUIREMENTS:";
      "1. Questions must be answerable using ONLY the document content";
      "2. Focus on comprehension, analysis, and connections between sections";
      "3. Avoid questions requiring external knowledge";
      "4. Make questions thought-provoking but document-grounded";
      "5. Format as numbered list";
      "";
      "Document Content:";
      full_context;
      "";
      "Generate " +++ str_of_nat num +++ " questions:" ].

(** One pass of the retry loop of [generate_challenge_questions]. *)
Definition questions_attempt (w : env) (selected_chunks : list chunk_dict)
    (prompt : string) (num attempt : nat) : M (option (list string)) :=
  try_except
    (response <- invoke w prompt ;;
     let response_text := extract_text_from_response response in
     if truthy response_text && truthy (strip response_text)
     then
       let questions := parse_and_validate_questions response_text selected_chunks in
       if num <=? length questions then ret (Some (firstn num questions))
       else
         match questions with
         | [] => ret None
         | _ => ret (Some (questions ++
                           generate_fallback_questions w (map Dict selected_chunks)
                                                       (num - length questions)))
         end
     else ret None)
    (fun e => if attempt <? max_retries - 1 then ret None else raise e).

Fixpoint questions_attempts (w : env) (selected_chunks : list chunk_dict)
    (prompt : string) (num : nat) (attempts : list nat) : M (list string) :=
  match attempts with
  | [] => ret (generate_fallback_questions w (map Dict selected_chunks) num)
  | attempt :: rest =>
      r <- questions_attempt w selected_chunks prompt num attempt ;;
      match r with
      | Some questions => ret questions
      | None => questions_attempts w selected_chunks prompt num rest
      end
  end.

Definition generate_challenge_questions (w : env) (doc_chunks : list chunk) (num : nat)
  : M (list string) :=
  try_except
    (_ <- get_llm w ;;
     let processed_chunks := map document_to_dict doc_chunks in
     let selected_chunks := select_chunks processed_chunks in
     let full_context := questions_context selected_chunks in
     let prompt := questions_prompt num full_context in
     questions_attempts w selected_chunks prompt num (range max_retries 1))
    (fun _ => ret (generate_fallback_questions w doc_chunks num)).

Definition is_evaluation_grounded (evaluation context user_answer : string) : bool :=
  if contains "SOURCE" (upper evaluation) || contains "SECTION" (upper evaluation)
  then true
  else
    let context_overlap := overlap (lower evaluation) (lower context) in
    let answer_overlap := overlap (lower evaluation) (lower user_answer) in
    (5 <? context_overlap) && (3 <? answer_overlap).

Definition brief_answer_reply : string :=
  "Your answer is very brief. Please provide more detail and explanation based on the document content.".

Definition chunk_text (c : chunk) : string :=
  match c with
  | Doc d => page_content d
  | Dict d => get_or (c_text d) ""
  end.

Definition generate_fallback_evaluation (question user_answer : string)
    (chunks : list chunk) : string :=
  if negb (truthy user_answer) || (len (strip user_answer) <? 5)
  then brief_answer_reply
  else
    let word_count := length (split_ws user_answer) in
    let evaluation := "Thank you for your " +++ str_of_nat word_count +++ "-word response. " in
    let evaluation :=
      match chunks with
      | [] => evaluation
      | _ =>
          let doc_content :=
            fold_left (fun acc c => acc +++ chunk_text c +++ " ") (firstn 3 chunks) "" in
          let overlap := overlap (lower user_answer) (lower doc_content) in
          if 10 <? overlap
          then evaluation +++ "Your answer shows good engagement with the document content. "
          else if 5 <? overlap
          then evaluation +++ "Your answer has some connection to the document content. "
          else evaluation +++ "Consider referencing more specific details from the document. "
      end in
    if word_count <? 20
    then evaluation +++ "Try to provide more detailed explanations and examples from the document."
    else if 150 <? word_count
    then evaluation +++ "Good detail in your response - you've provided comprehensive coverage."
    else evaluation +++ "Good length for your response.".

Definition no_content_reply : string :=
  "I cannot evaluate your answer as no relevant document content was found for this question.".

Definition evaluation_context (chunks : list Document) : string :=
  let context_parts :=
    map (fun ic =>
           let '(i, doc) := ic in
           let section := get_or (md_section (doc_metadata doc)) "Unknown Section" in
           let para := QaEngine.show_para (md_paragraph (doc_metadata doc)) in
           let content := take 300 (page_content doc) in
           "[SOURCE " +++ str_of_nat (i + 1) +++ " - " +++ section +++ ", Para " +++
           para +++ "]" +++ nl +++ content)
        (enumerate chunks) in
  let context := join (nl +++ nl) context_parts in
  if 1800 <? len context then take 1800 context +++ "..." else context.

Definition eval_prompt (context question user_answer : string) : string :=
  join nl
    [ "You are evaluating a user's answer based ONLY on the provided document content.";
      "";
      "EVALUATION CRITERIA:";
      "1. Accuracy: Does the answer align with the document content?";
      "2. Completeness: Does it address the question adequately?";
      "3. Use of evidence: Does it reference or reflect document content?";
      "4. Reasoning: Is the logic sound based on the document?";
      "";
      "Document Content:";
      context;
      "";
      "Question: " +++ question;
      "";
      "User's Answer: " +++ user_answer;
      "";
      "Provide evaluation feedback focusing on:";
      "- What the user got right (reference specific sources)";
      "- What could be improved";
      "- How well they used the document content";
      "- Specific suggestions for better answers";
      "";
      "Evaluation:" ].

(** One pass of the retry loop of [evaluate_user_answer]. *)
Definition evaluation_attempt (w : env) (question user_answer : string)
    (chunks : list Document) (context prompt : string) (attempt : nat)
  : M (option string) :=
  try_except
    (response <- invoke w prompt ;;
     let response_text := extract_text_from_response response in
     if truthy response_text && truthy (strip response_text)
     then
       if is_evaluation_grounded response_text context user_answer
       then ret (Some (strip response_text))
       else ret (Some (generate_fallback_evaluation question user_answer (map Doc chunks)))
     else ret None)
    (fun e => if attempt <? max_retries - 1 then ret None else raise e).

Fixpoint evaluation_attempts (w : env) (question user_answer : string)
    (chunks : list Document) (context prompt : string) (attempts : list nat)
  : M string :=
  match attempts with
  | [] => ret (generate_fallback_evaluation question user_answer (map Doc chunks))
  | attempt :: rest =>
      r <- evaluation_attempt w question user_answer chunks context prompt attempt ;;
      match r with
      | Some feedback => ret feedback
      | None => evaluation_attempts w question user_answer chunks context prompt rest
      end
  end.

Definition evaluate_user_answer (w : env) (question user_answer : string) : M string :=
  try_except
    (chunks <- QaEngine.retrieve_relevant_chunks w question 5 ;;
     match chunks with
     | [] => ret no_content_reply
     | _ =>
         let context := evaluation_context chunks in
         _ <- get_llm w ;;
         let prompt := eval_prompt context question user_answer in
         evaluation_attempts w question user_answer chunks context prompt
                             (range max_retries 1)
     end)
    (fun _ => ret (generate_fallback_evaluation question user_answer [])).

End LogicQuiz.

(** ** Concrete worlds and inputs used by the examples *)
Module Samples.

Definition doc (section : string) (paragraph chunk_id : nat) (text : string) : Document :=
  mk_document text (mk_metadata (Some section) (Some paragraph) (Some chunk_id)).

Definition dict (section : string) (paragraph : nat) (text : string) : chunk_dict :=
  mk_chunk (Some section) (Some paragraph) (Some text) None.

(** No token, no index, no model: the state before any document has been
    processed on a machine without credentials. *)
Definition fresh : env :=
  mk_env None
         (Raise (Exception "endpoint unavailable"))
         (fun _ _ => Raise (Exception "model unavailable"))
         (fun text => Return [text])
         (fun _ => Raise (Exception "not a PDF"))
         (Return tt)
         false
         (Raise (Exception "no index on disk"))
         (fun _ => Return tt)
         (fun names => names).

(** A world with credentials and an index holding [docs]; every search
    returns the first [k] of them and the model answers [reply]. *)
Definition indexed (docs : list Document) (reply : string) : env :=
  mk_env (Some "hf_token")
         (Return tt)
         (fun _ _ => Return reply)
         (fun text => Return [text])
         (fun _ => Raise (Exception "not a PDF"))
         (Return tt)
         true
         (Return (fun _ k => Return (firstn k docs)))
         (fun _ => Return tt)
         (fun names => names).

(** A world with credentials and no index, whose splitter always raises. *)
Definition broken_splitter : env :=
  mk_env (Some "hf_token")
         (Return tt)
         (fun _ _ => Return "ok")
         (fun _ => Raise (Exception "splitter failure"))
         (fun _ => Raise (Exception "not a PDF"))
         (Return tt)
         false
         (Raise (Exception "no index on disk"))
         (fun _ => Return tt)
         (fun names => names).

(** A text of [n] copies of one character. *)
Fixpoint replicate (n : nat) (c : ascii) : string :=
  match n with
  | 0 => EmptyString
  | S n' => String c (replicate n' c)
  end.

Definition lines (l : list string) : string := join nl l.

End Samples.

(** ** app.py

    The Flask handlers, from the parsed request on.  [request.json] and
    [request.files.get('file')] are inputs of the handlers; a response is
    the status code with the JSON body.  The global [document_chunks] is
    passed in and, where a handler assigns it, returned. *)
Module App.

(** A JSON value as the handlers look at it: a string, or something else,
    of which only the truth value and the Python type name matter. *)
Inductive jvalue : Type :=
| JStr (s : string)
| JOther (is_truthy : bool) (type_name : string).

(** What [request.json] evaluates to. *)
Inductive jbody : Type :=
| NoBody
| Object (fields : list (string * jvalue))
| NotObject (is_truthy : bool) (type_name : string).

Inductive body : Type :=
| ErrorJson (error : string) (details : list (string * string))
| ProcessJson (result : Processor.result) (vector_store_status : string)
              (vector_store_error : option string)
              (info_filename : string) (info_total_chunks : nat)
| AnswerJson (result : QaEngine.answer_result) (query : string)
| QuestionsJson (questions : list string) (total_questions document_chunks : nat)
| FeedbackJson (feedback question user_answer : string)
| InfoJson (total_chunks : nat) (sections : list string)
           (total_sections total_characters average_chunk_size : nat).

Definition response : Type := nat * body.

(** [AttributeError] for a method the value does not have. *)
Definition attribute_error (type_name method : string) : exn :=
  Exception ("'" +++ type_name +++ "' object has no attribute '" +++ method +++ "'").

(** [data.get(key)] followed by the test [not v or not v.strip()]:
    [Return None] when the test rejects the field, [Return (Some s)] for a
    string that is not blank. *)
Definition required_field (fields : list (string * jvalue)) (key : string)
  : outcome (option string) :=
  match dict_get fields key with
  | None => Return None
  | Some (JStr s) =>
      if negb (truthy s) || negb (truthy (strip s)) then Return None
      else Return (Some s)
  | Some (JOther false _) => Return None
  | Some (JOther true type_name) => Raise (attribute_error type_name "strip")
  end.

(** [process]: [upload] is [request.files.get('file')]; a [FileStorage]
    without a filename is falsy.  The result is the response and the value
    of [document_chunks] afterwards. *)
Definition process (w : env) (document_chunks : list chunk_dict) (upload : option file)
  : M (response * list chunk_dict) :=
  match upload with
  | None => ret ((400, ErrorJson "No file uploaded" []), document_chunks)
  | Some f =>
      if negb (truthy (filename f))
      then ret ((400, ErrorJson "No file uploaded" []), document_chunks)
      else if negb (truthy (filename f))
      then ret ((400, ErrorJson "No filename provided" []), document_chunks)
      else if negb (endswith ".pdf" (filename f) || endswith ".txt" (filename f))
      then ret ((400, ErrorJson "Only PDF and TXT files are supported" []),
                document_chunks)
      else
        try_except
          (result <- Processor.process_document w f ;;
           let document_chunks := Processor.r_chunks result in
           let '(status, error) :=
             match document_chunks with
             | [] => ("no_chunks", None)
             | _ =>
                 match QaEngine.build_vector_store w document_chunks with
                 | Return _ => ("success", None)
                 | Raise vs_error => ("failed", Some (str_of_exn vs_error))
                 end
             end in
           ret ((200, ProcessJson result status error (filename f)
                        (length document_chunks)),
                document_chunks))
          (fun e =>
             match e with
             | ValueError msg => ret ((400, ErrorJson msg []), document_chunks)
             | Exception msg =>
                 ret ((500, ErrorJson ("Processing failed: " +++ msg) []),
                      document_chunks)
             end)
  end.

(** [ask]: [is_file_not_found] is the class test of the first [except]
    clause, which the exception values of this embedding do not carry. *)
Definition ask (w : env) (is_file_not_found : exn -> bool) (request_json : outcome jbody)
  : M response :=
  try_except
    (data <- lift request_json ;;
     match data with
     | NoBody | NotObject false _ | Object [] =>
         ret (400, ErrorJson "No JSON data provided" [])
     | NotObject true type_name => raise (attribute_error type_name "get")
     | Object fields =>
         query <- lift (required_field fields "query") ;;
         match query with
         | None => ret (400, ErrorJson "Query is required and cannot be empty" [])
         | Some query =>
             result <- QaEngine.generate_answer_with_sources w query 5 ;;
             ret (200, AnswerJson result query)
         end
     end)
    (fun e =>
       if is_file_not_found e
       then ret (400, ErrorJson
                        "No document has been processed yet. Please upload a document first."
                        [("suggestion",
                          "Use the /process endpoint to upload a PDF or TXT file")])
       else ret (500, ErrorJson ("Failed to generate answer: " +++ str_of_exn e)
                        [("response_type", "error")])).

(** [challenge_init]: the request body is read only when no chunks are
    stored; [request_chunks] is its ["chunks"] entry, a list of chunk
    dicts, if it has one. *)
Definition challenge_init (w : env) (document_chunks : list chunk_dict)
    (request_chunks : outcome (option (list chunk_dict))) : M response :=
  try_except
    (chunks <-
       match document_chunks with
       | [] =>
           data <- lift request_chunks ;;
           match data with
           | None | Some [] => ret None
           | Some chunks => ret (Some chunks)
           end
       | _ => ret (Some document_chunks)
       end ;;
     match chunks with
     | None =>
         ret (400, ErrorJson
                     "No document chunks available. Please process a document first."
                     [("suggestion", "Use the /process endpoint to upload a document")])
     | Some [] => ret (400, ErrorJson "Invalid chunks format" [])
     | Some chunks =>
         questions <- LogicQuiz.generate_challenge_questions w
                        (map LogicQuiz.Dict chunks) 3 ;;
         match questions with
         | [] =>
             ret (500, ErrorJson "Failed to generate challenge questions"
                         [("fallback_message",
                           "Try uploading a different document or check if the document has sufficient content")])
         | _ => ret (200, QuestionsJson questions (length questions) (length chunks))
         end
     end)
    (fun e => ret (500, ErrorJson ("Failed to initialize challenge: " +++ str_of_exn e)
                          [("status", "error")])).

Definition challenge_evaluate (w : env) (request_json : outcome jbody) : M response :=
  try_except
    (data <- lift request_json ;;
     match data with
     | NoBody | NotObject false _ | Object [] =>
         ret (400, ErrorJson "No JSON data provided" [])
     | NotObject true type_name => raise (attribute_error type_name "get")
     | Object fields =>
         question <- lift (required_field fields "question") ;;
         match question with
         | None => ret (400, ErrorJson "Question is required and cannot be empty" [])
         | Some question =>
             answer <- lift (required_field fields "answer") ;;
             match answer with
             | None => ret (400, ErrorJson "Answer is required and cannot be empty" [])
             | Some answer =>
                 feedback <- LogicQuiz.evaluate_user_answer w question answer ;;
                 if negb (truthy feedback)
                 then ret (500, ErrorJson "Failed to generate evaluation feedback"
                                  [("fallback_message",
                                    "Your answer has been received but cannot be evaluated at this time.")])
                 else ret (200, FeedbackJson feedback question answer)
             end
         end
     end)
    (fun e => ret (500, ErrorJson ("Failed to evaluate answer: " +++ str_of_exn e)
                          [("status", "error")])).

(** The loop of [document_info] over the stored chunks. *)
Definition info_step (acc : list string * nat) (c : chunk_dict) : list string * nat :=
  (set_add (LogicQuiz.get_or (c_section c) "Unknown") (fst acc),
   snd acc + len (LogicQuiz.get_or (c_text c) "")).

Definition document_info (w : env) (document_chunks : list chunk_dict) : response :=
  match document_chunks with
  | [] => (400, ErrorJson "No document currently processed"
                  [("suggestion", "Upload a document using the /process endpoint")])
  | _ =>
      let '(sections, total_chars) := fold_left info_step document_chunks ([], 0) in
      (200, InfoJson (length document_chunks) (set_order w sections) (length sections)
              total_chars (total_chars / length document_chunks))
  end.

End App.

(** ** Vocabulary of the properties *)

(** A chunk survives the build filter when it has a text that is not blank. *)
Definition survives (c : chunk_dict) : bool :=
  match c_text c with
  | Some text => truthy text && truthy (strip text)
  | None => false
  end.

Definition text_of (c : chunk_dict) : string := QaEngine.get_or (c_text c) "".

Definition stored_metadata (c : chunk_dict) (id : nat) : metadata :=
  mk_metadata (Some (QaEngine.get_or (c_section c) "Unknown"))
              (Some (QaEngine.get_or (c_paragraph c) 0))
              (Some id).

(** The text [token] occurs in [text] up to letter case. *)
Definition mentions (token text : string) : Prop :=
  exists pre mid post, text = pre +++ mid +++ post /\ upper mid = token.

(** The two texts share more than [n] distinct words, a word being a
    maximal run of non-blank characters of the lower-cased text. *)
Definition share_more_than (n : nat) (a b : string) : Prop :=
  exists ws : list string,
    NoDup ws /\ n < length ws /\
    forall x, In x ws -> In x (split_ws (lower a)) /\ In x (split_ws (lower b)).


Definition word_count (user_answer : string) : nat := length (split_ws user_answer).

(** Chunking a section text returned, rather than raised. *)
Definition chunked (chunker : string -> outcome (list string)) (kv : string * string)
  : bool :=
  match chunker (snd kv) with
  | Return _ => true
  | Raise _ => false
  end.

(** A short introduction, whose only chunk falls to the noise filter, and a
    conclusion long enough to be kept. *)
Definition two_section_file : file :=
  mk_file "notes.txt"
    (Samples.lines [ "Introduction"; "short"; "Conclusion";
                     "This conclusion is long enough to pass the filter." ]).

(** A report whose numbered parts repeat the headers Methods and Results. *)
Definition survey_report : string :=
  Samples.lines [ "1. Methods"; "We sampled ten sites.";
                  "1.1 Results"; "Site A passed.";
                  "2. Methods"; "We repeated the survey.";
                  "2.1 Results"; "Site B failed." ].

(** The header a line stands for, if any: blank lines are skipped before
    the patterns are tried. *)
Definition header_of (line : string) : option string :=
  if negb (truthy (strip line)) then None else Processor.find_header (strip line).

(** The canonical names of the header lines, in order of appearance. *)
Definition header_names (lines : list string) : list string :=
  flat_map (fun line => match header_of line with Some h => [h] | None => [] end) lines.

(** A text that starts and ends with a non-blank character. *)
Definition solid (x : string) : Prop :=
  x <> "" /\ lstrip x = x /\ rstrip x = x.

(** What the loop keeps true of its state: the current name and the saved
    names are "Main Content" or canonical headers, the buffered lines are
    not blank, and the saved texts are trimmed and not empty. *)
Record seg_invariant (st : Processor.seg_state) : Prop := mk_seg_invariant {
  inv_current :
    Processor.current_section st = "Main Content"
    \/ In (Processor.current_section st) Processor.SECTION_HEADERS;
  inv_buffer :
    forall line, In line (Processor.buffer st) -> truthy (strip line) = true;
  inv_sections :
    forall name value, In (name, value) (Processor.sections st) ->
      (name = "Main Content" \/ In name Processor.SECTION_HEADERS)
      /\ strip value = value /\ value <> ""
}.

(** The chunk dicts made from the pieces of one section. *)
Definition numbered (sec_name : string) (pieces : list string) : list chunk_dict :=
  map (fun ic => mk_chunk (Some sec_name) (Some (fst ic + 1)) (Some (snd ic)) None)
      (enumerate pieces).

Definition pieces_of (chunker : string -> outcome (list string)) (sec_text : string)
  : list string :=
  match chunker sec_text with
  | Return pieces => pieces
  | Raise _ => []
  end.

(** The chunk belongs to the section of that name. *)
Definition in_section (sec_name : string) (c : chunk_dict) : bool :=
  match c_section c with
  | Some s => String.eqb s sec_name
  | None => false
  end.

(** The documents handed to FAISS: the surviving chunks in order, numbered
    from 1, with ["Unknown"] and [0] for a missing section or paragraph. *)
Definition stored_documents (chunks : list chunk_dict) : list Document :=
  map (fun ic => mk_document (text_of (snd ic)) (stored_metadata (snd ic) (fst ic)))
      (enumerate_from 1 (filter survives chunks)).

(** What [generate_answer_with_sources] can return in a given world. *)
Inductive answer_outcome (w : env) (query : string) (k : nat)
  : QaEngine.answer_result -> Prop :=
| outcome_no_index :
    index_exists w = false ->
    answer_outcome w query k
      (QaEngine.mk_answer
         "Error generating answer: Vector store not found. Please process a document first."
         [] "error")
| outcome_load_failed e :
    index_exists w = true -> faiss_load w = Raise e ->
    answer_outcome w query k
      (QaEngine.mk_answer ("Error generating answer: " +++ str_of_exn e) [] "error")
| outcome_search_failed vs e :
    index_exists w = true -> faiss_load w = Return vs -> vs query k = Raise e ->
    answer_outcome w query k
      (QaEngine.mk_answer ("Error generating answer: " +++ str_of_exn e) [] "error")
| outcome_nothing_found vs :
    index_exists w = true -> faiss_load w = Return vs -> vs query k = Return [] ->
    answer_outcome w query k
      (QaEngine.mk_answer
         "No relevant information found in the document to answer your question."
         [] "low")
| outcome_fallback vs docs :
    index_exists w = true -> faiss_load w = Return vs -> vs query k = Return docs ->
    docs <> [] ->
    answer_outcome w query k (QaEngine.generate_fallback_answer query docs)
| outcome_grounded vs docs response :
    index_exists w = true -> faiss_load w = Return vs -> vs query k = Return docs ->
    docs <> [] ->
    QaEngine.is_response_grounded response (QaEngine.build_context docs) = true ->
    strip response <> "" ->
    answer_outcome w query k
      (QaEngine.mk_answer (strip response) (map QaEngine.document_to_dict docs) "high").

(** What the retry loop can return for the retrieved [docs]. *)
Inductive attempt_outcome (query : string) (docs : list Document)
  : QaEngine.answer_result -> Prop :=
| attempt_gives_fallback :
    attempt_outcome query docs (QaEngine.generate_fallback_answer query docs)
| attempt_gives_grounded response :
    QaEngine.is_response_grounded response (QaEngine.build_context docs) = true ->
    strip response <> "" ->
    attempt_outcome query docs
      (QaEngine.mk_answer (strip response) (map QaEngine.document_to_dict docs) "high").

(** The section of a chunk as the selection sees it. *)
Definition section_or_unknown (c : chunk_dict) : string :=
  LogicQuiz.get_or (c_section c) "Unknown".

(** What the selection loop keeps true: the sections seen are those of
    the selected chunks, pairwise distinct; at most eight chunks are
    selected, all from the input; and every chunk met so far has its
    section among the selected ones unless eight were already selected. *)
Record select_invariant (input met : list chunk_dict)
    (acc : list chunk_dict * list string) : Prop := mk_select_invariant {
  sel_seen : snd acc = map section_or_unknown (fst acc);
  sel_distinct : NoDup (snd acc);
  sel_bound : length (fst acc) <= 8;
  sel_input : forall c, In c (fst acc) -> In c input;
  sel_cover : forall c, In c met -> In (section_or_unknown c) (snd acc)
                                    \/ length (fst acc) = 8
}.

(** A list of questions as [generate_challenge_questions] gives them for
    [num] questions asked: each ends with a question mark, there are at
    most [num], and exactly [num] when there is a chunk to draw on and
    [num] is at most five. *)
Definition well_formed_questions (num : nat) (has_chunks : Prop) (qs : list string)
  : Prop :=
  (forall q, In q qs -> endswith "?" q = true)
  /\ length qs <= num
  /\ (has_chunks -> num <= 5 -> length qs = num).

(** The texts of the pages of a PDF that could be read, in page order. *)
Definition readable_pages (pages : list (outcome string)) : list string :=
  flat_map (fun page =>
              match page with
              | Return page_text => [page_text]
              | Raise _ => []
              end) pages.

(** * Properties *)

(** ** Answering when no index has been persisted *)

Lemma load_vector_store_absent (w : env) (t : trace) :
  index_exists w = false ->
  QaEngine.load_vector_store w t =
  (Raise (ValueError "Vector store not found. Please process a document first."), t).
Proof.
  intros Habsent. unfold QaEngine.load_vector_store.
  rewrite Habsent. reflexivity.
Qed.

(** C1, as stated, fails: before any document has been processed the
    answer operation does not raise; it returns a result. *)
Lemma C1_answer_without_index_returns :
  ~ (exists e, fst (QaEngine.generate_answer_with_sources Samples.fresh "what?" 5 [])
               = Raise e).
Proof.
  intros [e He]. vm_compute in He. discriminate He.
Qed.

(** C1, amended: when no persisted index exists, [load_vector_store]
    raises the "Vector store not found" [ValueError]; the answer operation
    catches it and returns a result of confidence ["error"] with no sources
    whose answer carries that message, and the generative model is not
    invoked. *)
Theorem C1_answer_without_index (w : env) (query : string) (k : nat) (t : trace) :
  index_exists w = false ->
  QaEngine.load_vector_store w t =
    (Raise (ValueError "Vector store not found. Please process a document first."), t)
  /\ QaEngine.generate_answer_with_sources w query k t =
     (Return (QaEngine.mk_answer
                "Error generating answer: Vector store not found. Please process a document first."
                [] "error"), t).
Proof.
  intros Habsent. split.
  - apply load_vector_store_absent; assumption.
  - unfold QaEngine.generate_answer_with_sources, try_except, bind.
    rewrite load_vector_store_absent by assumption.
    reflexivity.
Qed.

(** The amended C1 on a machine where nothing has been processed. *)
Lemma C1_answer_without_index_witness :
  QaEngine.load_vector_store Samples.fresh [] =
    (Raise (ValueError "Vector store not found. Please process a document first."), [])
  /\ QaEngine.generate_answer_with_sources Samples.fresh "what?" 5 [] =
     (Return (QaEngine.mk_answer
                "Error generating answer: Vector store not found. Please process a document first."
                [] "error"), []).
Proof.
  apply (C1_answer_without_index Samples.fresh "what?" 5 []).
  reflexivity.
Defined.

(** ** Empty retrieval *)

(** C4: when the index loads and the similarity search retrieves no chunk,
    the answer operation returns the low-confidence result with no sources
    and leaves the trace of model calls as it was. *)
Theorem C4_empty_retrieval (w : env) (query : string) (k : nat) (t : trace)
    (vs : vector_store) :
  index_exists w = true ->
  faiss_load w = Return vs ->
  vs query k = Return [] ->
  exists res,
    QaEngine.generate_answer_with_sources w query k t = (Return res, t)
    /\ QaEngine.confidence res = "low"
    /\ QaEngine.sources res = []
    /\ QaEngine.answer res =
       "No relevant information found in the document to answer your question.".
Proof.
  intros Hexists Hload Hsearch.
  eexists. split.
  - unfold QaEngine.generate_answer_with_sources, QaEngine.load_vector_store,
      try_except, bind, lift.
    rewrite Hexists, Hload. simpl. rewrite Hsearch. reflexivity.
  - simpl. repeat split.
Qed.

(** C4 on an index that holds no document. *)
Lemma C4_empty_retrieval_witness :
  exists res,
    QaEngine.generate_answer_with_sources (Samples.indexed [] "unused") "what?" 5 []
      = (Return res, [])
    /\ QaEngine.confidence res = "low"
    /\ QaEngine.sources res = []
    /\ QaEngine.answer res =
       "No relevant information found in the document to answer your question.".
Proof.
  apply (C4_empty_retrieval (Samples.indexed [] "unused") "what?" 5 []
           (fun _ k => Return (firstn k []))); reflexivity.
Defined.

(** ** Chunk identifiers assigned at index build *)

Lemma nth_error_enumerate_from {A : Type} (l : list A) (start i : nat) :
  nth_error (enumerate_from start l) i =
  option_map (fun x => (start + i, x)) (nth_error l i).
Proof.
  revert start i. induction l as [|x l IH]; intros start i.
  - destruct i; reflexivity.
  - destruct i as [|i]; simpl.
    + now rewrite Nat.add_0_r.
    + rewrite IH. now rewrite Nat.add_succ_r.
Qed.

Lemma build_step_keep (c : chunk_dict) (texts : list string) (mds : list metadata) :
  survives c = true ->
  QaEngine.build_step (texts, mds) c =
  (texts ++ [text_of c], mds ++ [stored_metadata c (length texts + 1)]).
Proof.
  unfold survives, QaEngine.build_step, text_of, stored_metadata.
  destruct (c_text c) as [text|]; [|discriminate].
  intros ->. simpl. rewrite length_app. reflexivity.
Qed.

Lemma build_step_drop (c : chunk_dict) (acc : list string * list metadata) :
  survives c = false -> QaEngine.build_step acc c = acc.
Proof.
  unfold survives, QaEngine.build_step.
  destruct (c_text c) as [text|]; [|reflexivity].
  intros ->. reflexivity.
Qed.

Lemma build_loop (chunks : list chunk_dict) (texts0 : list string)
    (mds0 : list metadata) :
  fold_left QaEngine.build_step chunks (texts0, mds0) =
  (texts0 ++ map text_of (filter survives chunks),
   mds0 ++ map (fun ic => stored_metadata (snd ic) (fst ic))
               (enumerate_from (length texts0 + 1) (filter survives chunks))).
Proof.
  revert texts0 mds0.
  induction chunks as [|c chunks IH]; intros texts0 mds0; cbn [fold_left filter].
  - simpl. now rewrite !app_nil_r.
  - destruct (survives c) eqn:Hs.
    + rewrite build_step_keep by assumption. rewrite IH.
      rewrite <- !app_assoc, length_app. simpl.
      replace (length texts0 + 1 + 1) with (S (length texts0 + 1)) by lia.
      reflexivity.
    + rewrite build_step_drop by assumption. apply IH.
Qed.

Lemma combine_enumerated {A B C : Type} (f : A -> B) (g : nat * A -> C)
    (l : list A) (start : nat) :
  combine (map f l) (map g (enumerate_from start l)) =
  map (fun ic => (f (snd ic), g ic)) (enumerate_from start l).
Proof.
  revert start. induction l as [|x l IH]; intros start; simpl.
  - reflexivity.
  - now rewrite IH.
Qed.

Lemma build_vector_store_docs (w : env) (chunks : list chunk_dict)
    (docs : list Document) :
  QaEngine.build_vector_store w chunks = Return docs ->
  docs = map (fun ic => mk_document (text_of (snd ic))
                                    (stored_metadata (snd ic) (fst ic)))
             (enumerate_from 1 (filter survives chunks)).
Proof.
  unfold QaEngine.build_vector_store.
  destruct (makedirs w); [|discriminate].
  rewrite build_loop. simpl.
  rewrite combine_enumerated, map_map. simpl.
  destruct (map text_of (filter survives chunks)); [discriminate|].
  destruct (faiss_save w _); [|discriminate].
  intros H. injection H as <-. reflexivity.
Qed.

(** C3, as stated, fails: the only chunk of a one-chunk list is the
    surviving chunk of index 0, and it is stored with [chunk_id] 1. *)
Lemma C3_first_chunk_id_is_not_zero :
  exists docs d,
    QaEngine.build_vector_store Samples.fresh [Samples.dict "Abstract" 1 "alpha"]
      = Return docs
    /\ nth_error docs 0 = Some d
    /\ md_chunk_id (doc_metadata d) <> Some 0.
Proof.
  eexists. eexists. split; [reflexivity|]. split; [reflexivity|].
  simpl. discriminate.
Qed.

(** C3, amended: after the chunks without text or with blank text have
    been discarded, the i-th surviving chunk (0-based) is stored with its
    text, its section and paragraph, and [chunk_id] equal to [i + 1]: the
    identifiers enumerate the surviving chunks from 1. *)
Theorem C3_chunk_id_enumeration (w : env) (chunks : list chunk_dict)
    (docs : list Document) :
  QaEngine.build_vector_store w chunks = Return docs ->
  length docs = length (filter survives chunks)
  /\ forall i c,
       nth_error (filter survives chunks) i = Some c ->
       exists d,
         nth_error docs i = Some d
         /\ Some (page_content d) = c_text c
         /\ md_chunk_id (doc_metadata d) = Some (i + 1).
Proof.
  intros Hbuild. apply build_vector_store_docs in Hbuild. subst docs. split.
  - rewrite length_map.
    generalize 1. induction (filter survives chunks) as [|x l IH]; intros n.
    + reflexivity.
    + simpl. now rewrite IH.
  - intros i c Hc.
    eexists. split.
    + rewrite nth_error_map, nth_error_enumerate_from, Hc. reflexivity.
    + simpl. split.
      * assert (Hin : In c (filter survives chunks))
          by (eapply nth_error_In; eassumption).
        apply filter_In in Hin. destruct Hin as [_ Hs].
        unfold survives in Hs. unfold text_of.
        destruct (c_text c); [reflexivity|discriminate].
      * unfold stored_metadata. simpl. f_equal. lia.
Qed.

(** The amended C3 on three chunks of which the second is blank. *)
Lemma C3_chunk_id_enumeration_witness :
  length [Samples.doc "A" 1 1 "alpha"; Samples.doc "B" 1 2 "beta"] =
  length (filter survives [Samples.dict "A" 1 "alpha"; Samples.dict "A" 2 "  ";
                           Samples.dict "B" 1 "beta"])
  /\ forall i c,
       nth_error (filter survives [Samples.dict "A" 1 "alpha"; Samples.dict "A" 2 "  ";
                                   Samples.dict "B" 1 "beta"]) i = Some c ->
       exists d,
         nth_error [Samples.doc "A" 1 1 "alpha"; Samples.doc "B" 1 2 "beta"] i = Some d
         /\ Some (page_content d) = c_text c
         /\ md_chunk_id (doc_metadata d) = Some (i + 1).
Proof.
  apply (C3_chunk_id_enumeration Samples.fresh
           [Samples.dict "A" 1 "alpha"; Samples.dict "A" 2 "  ";
            Samples.dict "B" 1 "beta"]).
  reflexivity.
Defined.

(** ** Chunking one section *)

Lemma length_substring (s : string) (n m : nat) :
  String.length (substring n m s) = Nat.min m (String.length s - n).
Proof.
  revert n m. induction s as [|c s IH]; intros n m.
  - destruct n, m; reflexivity.
  - destruct n as [|n].
    + destruct m as [|m]; simpl; [reflexivity|].
      rewrite IH. now rewrite Nat.sub_0_r.
    + simpl. apply IH.
Qed.

Lemma nth_error_range_go (fuel i stop step j : nat) :
  nth_error (range_go fuel i stop step) j =
  if (j <? fuel) && (i + j * step <? stop) then Some (i + j * step) else None.
Proof.
  revert i j. induction fuel as [|fuel IH]; intros i j.
  - destruct j; reflexivity.
  - simpl range_go. destruct (i <? stop) eqn:Hi.
    + destruct j as [|j].
      * simpl. rewrite Nat.add_0_r, Hi. reflexivity.
      * simpl nth_error. rewrite IH.
        replace (i + step + j * step) with (i + S j * step) by lia.
        reflexivity.
    + apply Nat.ltb_ge in Hi.
      replace (i + j * step <? stop) with false
        by (symmetry; apply Nat.ltb_ge; lia).
      rewrite andb_false_r. destruct j; reflexivity.
Qed.

Lemma nth_error_range (stop step j : nat) :
  0 < step ->
  nth_error (range stop step) j =
  if j * step <? stop then Some (j * step) else None.
Proof.
  intros Hstep. unfold range. rewrite nth_error_range_go. simpl.
  destruct (j * step <? stop) eqn:Hj.
  - apply Nat.ltb_lt in Hj.
    replace (j <? stop) with true by (symmetry; apply Nat.ltb_lt; nia).
    reflexivity.
  - now rewrite andb_false_r.
Qed.

(** The slices of the fallback: the i-th starts at offset [400 * i] and
    takes up to 500 characters. *)
Lemma nth_error_fallback_slices (s : string) (i : nat) :
  nth_error (Processor.fallback_slices s) i =
  if i * 400 <? len s then Some (substring (i * 400) 500 s) else None.
Proof.
  unfold Processor.fallback_slices.
  rewrite nth_error_map, nth_error_range by lia.
  destruct (i * 400 <? len s); simpl; [|reflexivity].
  unfold slice. now replace (i * 400 + 500 - i * 400) with 500 by lia.
Qed.

Lemma not_blank_truthy (s : string) : s <> EmptyString -> truthy s = true.
Proof.
  destruct s; [contradiction|reflexivity].
Qed.

Lemma chunk_section_recursive (w : env) (section_text : string) (chunks : list string) :
  strip section_text <> "" ->
  split_text w section_text = Return chunks ->
  Processor.chunk_section w section_text =
  filter (fun chunk => 30 <? len (strip chunk)) chunks.
Proof.
  intros Hnb Hsplit. unfold Processor.chunk_section.
  rewrite (not_blank_truthy _ Hnb), Hsplit. reflexivity.
Qed.

Lemma chunk_section_fallback (w : env) (section_text : string) (e : exn) :
  strip section_text <> "" ->
  split_text w section_text = Raise e ->
  Processor.chunk_section w section_text = Processor.fallback_slices section_text.
Proof.
  intros Hnb Hsplit. unfold Processor.chunk_section.
  rewrite (not_blank_truthy _ Hnb), Hsplit. reflexivity.
Qed.

(** C6, as stated, fails: with a splitter that raises, a text of 850
    characters is cut into three slices and the second one, which is not
    the last, is 450 characters long. *)
Lemma C6_second_to_last_slice_is_short :
  exists c,
    length (Processor.chunk_section Samples.broken_splitter
              (Samples.replicate 850 "x")) = 3
    /\ nth_error (Processor.chunk_section Samples.broken_splitter
                    (Samples.replicate 850 "x")) 1 = Some c
    /\ len c <> 500.
Proof.
  eexists. split; [vm_compute; reflexivity|].
  split; [vm_compute; reflexivity|].
  vm_compute. discriminate.
Qed.

(** C6, amended: a blank section text yields no chunk; on the recursive
    path every returned chunk is one of the splitter's and has trimmed
    length above 30; on the fallback path the result is the sequence of
    slices of which the i-th starts at offset [400 * i] and is
    [min 500 (len - 400 * i)] characters long, so that every slice is 500
    characters long except possibly the last two. *)
Theorem C6_chunk_section (w : env) (section_text : string) :
  (strip section_text = "" -> Processor.chunk_section w section_text = [])
  /\ (forall chunks c,
        strip section_text <> "" ->
        split_text w section_text = Return chunks ->
        In c (Processor.chunk_section w section_text) ->
        In c chunks /\ 30 < len (strip c))
  /\ (forall e,
        strip section_text <> "" ->
        split_text w section_text = Raise e ->
        (forall i,
           nth_error (Processor.chunk_section w section_text) i =
           if i * 400 <? len section_text
           then Some (substring (i * 400) 500 section_text) else None)
        /\ (forall i c,
              nth_error (Processor.chunk_section w section_text) i = Some c ->
              len c = Nat.min 500 (len section_text - 400 * i)
              /\ (i + 2 < length (Processor.chunk_section w section_text) ->
                  len c = 500))).
Proof.
  split; [|split].
  - intros Hblank. unfold Processor.chunk_section. rewrite Hblank. reflexivity.
  - intros chunks c Hnb Hsplit Hin.
    rewrite (chunk_section_recursive w _ chunks Hnb Hsplit) in Hin.
    apply filter_In in Hin. destruct Hin as [Hin Hlen].
    split; [assumption|]. now apply Nat.ltb_lt in Hlen.
  - intros e Hnb Hsplit.
    rewrite (chunk_section_fallback w _ e Hnb Hsplit).
    split; [apply nth_error_fallback_slices|].
    intros i c Hc. split.
    + rewrite nth_error_fallback_slices in Hc.
      destruct (i * 400 <? len section_text); [|discriminate].
      injection Hc as <-. unfold len. rewrite length_substring.
      f_equal. lia.
    + intros Hlast.
      assert (Hnext : nth_error (Processor.fallback_slices section_text) (i + 2) <> None)
        by (apply nth_error_Some; assumption).
      rewrite nth_error_fallback_slices in Hnext, Hc.
      destruct ((i + 2) * 400 <? len section_text) eqn:Hfar; [|contradiction].
      apply Nat.ltb_lt in Hfar.
      destruct (i * 400 <? len section_text); [|discriminate].
      injection Hc as <-. unfold len in *. rewrite length_substring. lia.
Qed.

(** The amended C6 on a blank text, on a sentence the splitter returns
    whole, and on 850 characters with a splitter that raises. *)
Lemma C6_chunk_section_witness :
  Processor.chunk_section Samples.fresh "   " = []
  /\ (forall c,
        In c (Processor.chunk_section Samples.fresh
                "A sentence that is long enough to be kept.") ->
        30 < len (strip c))
  /\ (forall i c,
        nth_error (Processor.chunk_section Samples.broken_splitter
                     (Samples.replicate 850 "x")) i = Some c ->
        len c = Nat.min 500 (len (Samples.replicate 850 "x") - 400 * i)).
Proof.
  split; [|split].
  - apply (C6_chunk_section Samples.fresh "   "). reflexivity.
  - intros c Hin.
    apply (C6_chunk_section Samples.fresh "A sentence that is long enough to be kept.")
      with (chunks := ["A sentence that is long enough to be kept."]);
      [discriminate | reflexivity | assumption].
  - intros i c Hc.
    apply (C6_chunk_section Samples.broken_splitter (Samples.replicate 850 "x"))
      with (e := Exception "splitter failure");
      [vm_compute; discriminate | reflexivity | assumption].
Defined.

(** ** Groundedness checks *)

Lemma startswith_spec (p s : string) :
  startswith p s = true <-> exists post, s = p +++ post.
Proof.
  revert s. induction p as [|a p IH]; intros s; simpl.
  - split; [intros _; now exists s | reflexivity].
  - destruct s as [|b s].
    + split; [discriminate | intros [post H]; discriminate].
    + rewrite andb_true_iff, Ascii.eqb_eq, IH. split.
      * intros [-> [post ->]]. now exists post.
      * intros [post H]. injection H as -> ->. split; [reflexivity | now exists post].
Qed.

Lemma contains_spec (sub s : string) :
  contains sub s = true <-> exists pre post, s = pre +++ sub +++ post.
Proof.
  induction s as [|c s IH].
  - simpl. rewrite orb_false_r, startswith_spec. split.
    + intros [post H]. now exists EmptyString, post.
    + intros [pre [post H]]. destruct pre; [now exists post | discriminate].
  - cbn [contains]. rewrite orb_true_iff, startswith_spec, IH. split.
    + intros [[post H] | [pre [post H]]].
      * now exists EmptyString, post.
      * exists (String c pre), post. simpl. now rewrite H.
    + intros [pre [post H]]. destruct pre as [|c' pre].
      * left. now exists post.
      * right. simpl in H. injection H as _ H. now exists pre, post.
Qed.

Lemma smap_app (f : ascii -> ascii) (a b : string) :
  smap f (a +++ b) = smap f a +++ smap f b.
Proof.
  induction a as [|c a IH]; simpl; [reflexivity | now rewrite IH].
Qed.

Lemma smap_app_inv (f : ascii -> ascii) (s a b : string) :
  smap f s = a +++ b ->
  exists s1 s2, s = s1 +++ s2 /\ smap f s1 = a /\ smap f s2 = b.
Proof.
  revert s. induction a as [|c a IH]; intros s H.
  - now exists EmptyString, s.
  - destruct s as [|d s]; [discriminate|].
    simpl in H. injection H as Hc H.
    destruct (IH s H) as [s1 [s2 [-> [<- <-]]]].
    exists (String d s1), s2. simpl. now rewrite Hc.
Qed.

Lemma contains_upper_mentions (token text : string) :
  contains token (upper text) = true <-> mentions token text.
Proof.
  rewrite contains_spec. unfold mentions, upper. split.
  - intros [pre' [post' H]].
    apply smap_app_inv in H. destruct H as [pre [rest [-> [_ H]]]].
    apply smap_app_inv in H. destruct H as [mid [post [-> [Hmid _]]]].
    now exists pre, mid, post.
  - intros [pre [mid [post [-> Hmid]]]].
    exists (smap upper_char pre), (smap upper_char post).
    now rewrite !smap_app, Hmid.
Qed.

Lemma mem_In (x : string) (l : list string) : mem x l = true <-> In x l.
Proof.
  unfold mem. rewrite existsb_exists. split.
  - intros [y [Hy Heq]]. apply String.eqb_eq in Heq. now subst.
  - intros Hx. exists x. split; [assumption | apply String.eqb_refl].
Qed.

Lemma set_add_In (x y : string) (s : list string) :
  In y (set_add x s) <-> y = x \/ In y s.
Proof.
  unfold set_add. destruct (mem x s) eqn:Hm.
  - apply mem_In in Hm. split; [tauto | intros [-> | H]; assumption].
  - rewrite in_app_iff. simpl. split; intros H; intuition auto.
Qed.

Lemma set_add_NoDup (x : string) (s : list string) :
  NoDup s -> NoDup (set_add x s).
Proof.
  intros Hs. unfold set_add. destruct (mem x s) eqn:Hm; [assumption|].
  assert (Hx : ~ In x s) by (rewrite <- mem_In, Hm; discriminate).
  clear Hm. induction Hs as [|y s Hy Hs IH]; simpl.
  - constructor; [intros [] | constructor].
  - constructor.
    + rewrite in_app_iff. simpl. intros [H | [H | []]]; [tauto|].
      subst. apply Hx. now left.
    + apply IH. intros H. apply Hx. now right.
Qed.

Lemma set_of_fold (l acc : list string) :
  NoDup acc ->
  NoDup (fold_left (fun acc x => set_add x acc) l acc)
  /\ forall y, In y (fold_left (fun acc x => set_add x acc) l acc) <->
               In y acc \/ In y l.
Proof.
  revert acc. induction l as [|x l IH]; intros acc Hacc; simpl.
  - split; [assumption | intros y; tauto].
  - destruct (IH (set_add x acc) (set_add_NoDup x acc Hacc)) as [Hnd Hin].
    split; [assumption|].
    intros y. rewrite Hin, set_add_In. intuition auto.
Qed.

Lemma set_of_NoDup (l : list string) : NoDup (set_of l).
Proof. apply (set_of_fold l []). constructor. Qed.

Lemma set_of_In (l : list string) (y : string) : In y (set_of l) <-> In y l.
Proof.
  unfold set_of. destruct (set_of_fold l [] (NoDup_nil _)) as [_ H].
  rewrite H. simpl. tauto.
Qed.

(** The size of the intersection of two word sets exceeds [n] exactly
    when more than [n] distinct words occur in both lists. *)
Lemma intersection_size (n : nat) (la lb : list string) :
  n < length (intersection (set_of la) (set_of lb)) <->
  exists ws, NoDup ws /\ n < length ws /\
             forall x, In x ws -> In x la /\ In x lb.
Proof.
  assert (Hin : forall x, In x (intersection (set_of la) (set_of lb)) <->
                          In x la /\ In x lb).
  { intros x. unfold intersection.
    rewrite filter_In, mem_In, !set_of_In. tauto. }
  split.
  - intros Hn. exists (intersection (set_of la) (set_of lb)).
    split; [|split].
    + apply NoDup_filter, set_of_NoDup.
    + assumption.
    + intros x. apply Hin.
  - intros [ws [Hnd [Hn Hws]]].
    apply Nat.lt_le_trans with (length ws); [assumption|].
    apply NoDup_incl_length; [assumption|].
    intros x Hx. apply Hin, Hws, Hx.
Qed.

Lemma share_more_than_sym (n : nat) (a b : string) :
  share_more_than n a b <-> share_more_than n b a.
Proof.
  unfold share_more_than.
  split; intros [ws [Hnd [Hn Hws]]]; exists ws; (split; [|split]); try assumption;
    intros x Hx; destruct (Hws x Hx); tauto.
Qed.

(** C7: the answer check accepts exactly when the response mentions SOURCE
    or SECTION in any letter case or shares more than 3 distinct words with
    the context; the evaluation check accepts exactly when the evaluation
    mentions SOURCE or SECTION in any letter case, or shares more than 5
    distinct words with the context and more than 3 with the user's
    answer. *)
Theorem C7_groundedness (response context evaluation user_answer : string) :
  (QaEngine.is_response_grounded response context = true <->
   mentions "SOURCE" response \/ mentions "SECTION" response \/
   share_more_than 3 response context)
  /\ (LogicQuiz.is_evaluation_grounded evaluation context user_answer = true <->
      mentions "SOURCE" evaluation \/ mentions "SECTION" evaluation \/
      (share_more_than 5 evaluation context /\
       share_more_than 3 evaluation user_answer)).
Proof.
  split.
  - unfold QaEngine.is_response_grounded, QaEngine.overlap.
    rewrite <- !contains_upper_mentions, (share_more_than_sym 3 response context).
    destruct (contains "SOURCE" (upper response)); simpl; [tauto|].
    destruct (contains "SECTION" (upper response)); simpl; [tauto|].
    rewrite Nat.ltb_lt, intersection_size. unfold share_more_than.
    split; [intros H; right; right; exact H|].
    intros [H | [H | H]]; [discriminate | discriminate | exact H].
  - unfold LogicQuiz.is_evaluation_grounded, LogicQuiz.overlap.
    rewrite <- !contains_upper_mentions.
    destruct (contains "SOURCE" (upper evaluation)); simpl; [tauto|].
    destruct (contains "SECTION" (upper evaluation)); simpl; [tauto|].
    rewrite andb_true_iff, !Nat.ltb_lt, !intersection_size.
    unfold share_more_than.
    split; [intros H; right; right; exact H|].
    intros [H | [H | H]]; [discriminate | discriminate | exact H].
Qed.

(** ** The deterministic fallback evaluation *)

Lemma append_assoc (a b c : string) : (a +++ b) +++ c = a +++ b +++ c.
Proof.
  induction a as [|x a IH]; simpl; [reflexivity | now rewrite IH].
Qed.






(** ** Challenge questions when the model is unavailable *)




Lemma quiz_get_llm_cases (w : env) (t : trace) :
  (has_token w = true /\ (exists u, endpoint_init w = Return u)
   /\ LogicQuiz.get_llm w t = (Return tt, t))
  \/ ((has_token w = false \/ exists e, endpoint_init w = Raise e)
      /\ exists e, LogicQuiz.get_llm w t = (Raise e, t)).
Proof.
  unfold LogicQuiz.get_llm, try_except, raise, lift.
  destruct (has_token w); simpl.
  - destruct (endpoint_init w) as [[]|e].
    + left. repeat split. now exists tt.
    + right. split; [right; now exists e | eexists; reflexivity].
  - right. split; [now left | eexists; reflexivity].
Qed.



(** ** Evaluating a blank answer *)

Lemma retrieve_relevant_chunks_total (w : env) (query : string) (k : nat) (t : trace) :
  exists chunks, QaEngine.retrieve_relevant_chunks w query k t = (Return chunks, t).
Proof.
  unfold QaEngine.retrieve_relevant_chunks, QaEngine.load_vector_store,
    try_except, bind, raise, lift, ret.
  destruct (index_exists w); simpl; [|eexists; reflexivity].
  destruct (faiss_load w) as [vs|e]; [|eexists; reflexivity].
  destruct (vs query k); eexists; reflexivity.
Qed.

Lemma fallback_evaluation_blank (question user_answer : string)
    (chunks : list LogicQuiz.chunk) :
  strip user_answer = "" ->
  LogicQuiz.generate_fallback_evaluation question user_answer chunks =
  LogicQuiz.brief_answer_reply.
Proof.
  intros Hblank. unfold LogicQuiz.generate_fallback_evaluation.
  rewrite Hblank. simpl. now rewrite orb_true_r.
Qed.

(** A feedback returned by the retry loop is the fallback evaluation, or it
    is what the model answered to the last prompt sent: the prompt was sent
    [earlier] times before without a usable response, then once more, and
    the response to that invocation, trimmed, is the feedback. *)
Lemma evaluation_attempts_returned (w : env) (question user_answer : string)
    (chunks : list Document) (context prompt : string) (attempts : list nat)
    (t t' : trace) (feedback : string) :
  LogicQuiz.evaluation_attempts w question user_answer chunks context prompt attempts t
  = (Return feedback, t') ->
  feedback = LogicQuiz.generate_fallback_evaluation question user_answer
               (map LogicQuiz.Doc chunks)
  \/ exists response earlier,
       earlier < length attempts
       /\ t' = t ++ repeat prompt (S earlier)
       /\ llm_invoke w (length t + earlier) prompt = Return response
       /\ feedback = strip response
       /\ LogicQuiz.is_evaluation_grounded response context user_answer = true.
Proof.
  revert t. induction attempts as [|attempt rest IH]; intros t.
  - intros H. injection H as <- _. now left.
  - assert (Hnext :
      LogicQuiz.evaluation_attempts w question user_answer chunks context prompt rest
        (t ++ [prompt]) = (Return feedback, t') ->
      feedback = LogicQuiz.generate_fallback_evaluation question user_answer
                   (map LogicQuiz.Doc chunks)
      \/ exists response earlier,
           earlier < length (attempt :: rest)
           /\ t' = t ++ repeat prompt (S earlier)
           /\ llm_invoke w (length t + earlier) prompt = Return response
           /\ feedback = strip response
           /\ LogicQuiz.is_evaluation_grounded response context user_answer = true).
    { intros H. apply IH in H.
      destruct H as [H | [response [earlier [Hlt [Ht' [Hinv [Hf Hg]]]]]]]; [now left|].
      right. exists response, (S earlier).
      rewrite length_app in Hinv. simpl in Hinv.
      replace (length t + 1 + earlier) with (length t + S earlier) in Hinv by lia.
      rewrite <- app_assoc in Ht'.
      split; [simpl; lia|]. split; [exact Ht'|]. now repeat split. }
    cbn [LogicQuiz.evaluation_attempts]. unfold bind at 1.
    unfold LogicQuiz.evaluation_attempt, try_except, bind, invoke, ret, raise,
      LogicQuiz.extract_text_from_response.
    destruct (llm_invoke w (length t) prompt) as [response|e] eqn:Hinv.
    + destruct (truthy response && truthy (strip response)); [|exact Hnext].
      destruct (LogicQuiz.is_evaluation_grounded response context user_answer) eqn:Hg.
      * intros H. injection H as <- <-. right. exists response, 0.
        rewrite Nat.add_0_r. split; [simpl; lia|]. now repeat split.
      * intros H. injection H as <- _. now left.
    + destruct (attempt <? LogicQuiz.max_retries - 1); [exact Hnext | discriminate].
Qed.

(** C5, as stated, fails: with a document indexed and the model
    answering, a blank user answer is sent to the model and the model's
    grounded evaluation is returned. *)
Lemma C5_blank_answer_reaches_model :
  strip "   " = ""
  /\ exists feedback t',
       LogicQuiz.evaluate_user_answer
         (Samples.indexed [Samples.doc "Introduction" 1 1 "Some text."] "See SOURCE 1.")
         "What is it?" "   " [] = (Return feedback, t')
       /\ feedback <> LogicQuiz.brief_answer_reply
       /\ t' <> [].
Proof.
  split; [reflexivity|].
  eexists. eexists. split; [vm_compute; reflexivity|].
  split; discriminate.
Qed.

(** C5, amended: for a user answer that is blank after trimming, the
    fallback evaluation is the canned reply for very brief answers, whatever
    the chunks.  The evaluate operation always returns: the "no relevant
    content" message, without invoking the model, when nothing is
    retrieved; the canned brief reply, without invoking the model, when
    chunks are retrieved and the model cannot be initialised; and otherwise
    either the canned brief reply or an evaluation produced by the model
    that passed the groundedness check.  In the last case the model was
    initialised and sent the evaluation prompt, built from the retrieved
    chunks, the question and the blank answer, one to three times and
    nothing else; the feedback is its response to the last of these
    invocations, trimmed. *)
Theorem C5_blank_answer (w : env) (question user_answer : string) (t : trace) :
  strip user_answer = "" ->
  exists chunks feedback t',
    QaEngine.retrieve_relevant_chunks w question 5 t = (Return chunks, t)
    /\ LogicQuiz.evaluate_user_answer w question user_answer t = (Return feedback, t')
    /\ (forall cs, LogicQuiz.generate_fallback_evaluation question user_answer cs
                   = LogicQuiz.brief_answer_reply)
    /\ (chunks = [] -> feedback = LogicQuiz.no_content_reply /\ t' = t)
    /\ (chunks <> [] ->
        (has_token w = false \/ exists e, endpoint_init w = Raise e) ->
        feedback = LogicQuiz.brief_answer_reply /\ t' = t)
    /\ (chunks <> [] ->
        feedback = LogicQuiz.brief_answer_reply
        \/ exists response earlier,
             has_token w = true
             /\ (exists u, endpoint_init w = Return u)
             /\ earlier < LogicQuiz.max_retries
             /\ t' = t ++ repeat (LogicQuiz.eval_prompt
                                    (LogicQuiz.evaluation_context chunks)
                                    question user_answer) (S earlier)
             /\ llm_invoke w (length t + earlier)
                  (LogicQuiz.eval_prompt (LogicQuiz.evaluation_context chunks)
                     question user_answer) = Return response
             /\ feedback = strip response
             /\ LogicQuiz.is_evaluation_grounded response
                  (LogicQuiz.evaluation_context chunks) user_answer = true).
Proof.
  intros Hblank.
  destruct (retrieve_relevant_chunks_total w question 5 t) as [chunks Hret].
  exists chunks.
  unfold LogicQuiz.evaluate_user_answer, try_except, bind. rewrite Hret.
  destruct chunks as [|c0 rest].
  - exists LogicQuiz.no_content_reply, t.
    repeat split; try reflexivity; try contradiction.
    intros cs. now apply fallback_evaluation_blank.
  - set (chunks := c0 :: rest).
    destruct (quiz_get_llm_cases w t) as [[Htoken [[u Hinit] Hllm]] | [Hdown [e Hllm]]];
      rewrite Hllm.
    + pose proof (evaluation_attempts_returned w question user_answer chunks
                    (LogicQuiz.evaluation_context chunks)
                    (LogicQuiz.eval_prompt (LogicQuiz.evaluation_context chunks)
                       question user_answer)
                    (range LogicQuiz.max_retries 1) t) as Hcases.
      destruct (LogicQuiz.evaluation_attempts w question user_answer chunks _ _ _ t)
        as [[feedback|e] t1].
      * exists feedback, t1. split; [reflexivity|]. split; [reflexivity|].
        split; [intros cs; now apply fallback_evaluation_blank|].
        split; [discriminate|]. split.
        -- intros _ [Hno | [e He]]; congruence.
        -- intros _.
           destruct (Hcases t1 feedback eq_refl)
             as [-> | [response [earlier [Hlt [Ht1 [Hinv [Hf Hg]]]]]]].
           ++ left. now apply fallback_evaluation_blank.
           ++ right. exists response, earlier.
              split; [exact Htoken|]. split; [now exists u|].
              split; [exact Hlt|]. now repeat split.
      * exists (LogicQuiz.generate_fallback_evaluation question user_answer []), t1.
        split; [reflexivity|]. split; [reflexivity|].
        split; [intros cs; now apply fallback_evaluation_blank|].
        split; [discriminate|]. split.
        -- intros _ [Hno | [e' He]]; congruence.
        -- intros _. left. now apply fallback_evaluation_blank.
    + exists (LogicQuiz.generate_fallback_evaluation question user_answer []), t.
      split; [reflexivity|]. split; [reflexivity|].
      split; [intros cs; now apply fallback_evaluation_blank|].
      split; [discriminate|]. split.
      * intros _ _. split; [now apply fallback_evaluation_blank | reflexivity].
      * intros _. left. now apply fallback_evaluation_blank.
Qed.

(** The amended C5 with a document indexed and the model answering: a
    blank answer to a question about the indexed document. *)
Lemma C5_blank_answer_witness :
  exists chunks feedback t',
    QaEngine.retrieve_relevant_chunks
      (Samples.indexed [Samples.doc "Introduction" 1 1 "Some text."] "See SOURCE 1.")
      "What is it?" 5 [] = (Return chunks, [])
    /\ LogicQuiz.evaluate_user_answer
         (Samples.indexed [Samples.doc "Introduction" 1 1 "Some text."] "See SOURCE 1.")
         "What is it?" "   " [] = (Return feedback, t')
    /\ (forall cs, LogicQuiz.generate_fallback_evaluation "What is it?" "   " cs
                   = LogicQuiz.brief_answer_reply)
    /\ (chunks = [] -> feedback = LogicQuiz.no_content_reply /\ t' = [])
    /\ (chunks <> [] ->
        (has_token (Samples.indexed [Samples.doc "Introduction" 1 1 "Some text."]
                      "See SOURCE 1.") = false
         \/ exists e,
              endpoint_init (Samples.indexed [Samples.doc "Introduction" 1 1 "Some text."]
                               "See SOURCE 1.") = Raise e) ->
        feedback = LogicQuiz.brief_answer_reply /\ t' = [])
    /\ (chunks <> [] ->
        feedback = LogicQuiz.brief_answer_reply
        \/ exists response earlier,
             has_token (Samples.indexed [Samples.doc "Introduction" 1 1 "Some text."]
                          "See SOURCE 1.") = true
             /\ (exists u,
                   endpoint_init (Samples.indexed
                                    [Samples.doc "Introduction" 1 1 "Some text."]
                                    "See SOURCE 1.") = Return u)
             /\ earlier < LogicQuiz.max_retries
             /\ t' = [] ++ repeat (LogicQuiz.eval_prompt
                                     (LogicQuiz.evaluation_context chunks)
                                     "What is it?" "   ") (S earlier)
             /\ llm_invoke (Samples.indexed [Samples.doc "Introduction" 1 1 "Some text."]
                              "See SOURCE 1.")
                  (length (@nil string) + earlier)
                  (LogicQuiz.eval_prompt (LogicQuiz.evaluation_context chunks)
                     "What is it?" "   ") = Return response
             /\ feedback = strip response
             /\ LogicQuiz.is_evaluation_grounded response
                  (LogicQuiz.evaluation_context chunks) "   " = true).
Proof.
  apply (C5_blank_answer
           (Samples.indexed [Samples.doc "Introduction" 1 1 "Some text."] "See SOURCE 1.")
           "What is it?" "   " []).
  reflexivity.
Defined.

(** ** Sections reported by document processing *)

Lemma keys_dict_set_new {V : Type} (d : list (string * V)) (k : string) (v : V) :
  ~ In k (keys d) -> keys (dict_set d k v) = keys d ++ [k].
Proof.
  induction d as [|[k' v'] d IH]; intros Hk; simpl.
  - reflexivity.
  - destruct (String.eqb_spec k' k) as [->|Hne].
    + exfalso. apply Hk. now left.
    + simpl. f_equal. apply IH. intros H. apply Hk. now right.
Qed.

Lemma keys_dict_set_old {V : Type} (d : list (string * V)) (k : string) (v : V) :
  In k (keys d) -> keys (dict_set d k v) = keys d.
Proof.
  induction d as [|[k' v'] d IH]; intros Hk; simpl.
  - destruct Hk.
  - destruct (String.eqb_spec k' k) as [->|Hne].
    + reflexivity.
    + simpl. f_equal. apply IH. destruct Hk as [Hk|Hk]; [contradiction|assumption].
Qed.

Lemma dict_set_NoDup {V : Type} (d : list (string * V)) (k : string) (v : V) :
  NoDup (keys d) -> NoDup (keys (dict_set d k v)).
Proof.
  intros Hd. destruct (in_dec string_dec k (keys d)) as [Hin|Hout].
  - now rewrite keys_dict_set_old.
  - rewrite keys_dict_set_new by assumption.
    apply NoDup_app; [assumption | repeat constructor; intros [] |].
    intros x Hx [<- | []]. contradiction.
Qed.

Lemma keys_filter_NoDup {V : Type} (p : string * V -> bool) (d : list (string * V)) :
  NoDup (keys d) -> NoDup (keys (filter p d)).
Proof.
  unfold keys. induction d as [|kv d IH]; simpl; intros Hd.
  - constructor.
  - inversion Hd as [|? ? Hout Hrest]; subst.
    destruct (p kv); [|now apply IH].
    simpl. constructor; [|now apply IH].
    intros Hin. apply Hout.
    apply in_map_iff in Hin. destruct Hin as [x [Hx Hin]].
    apply filter_In in Hin. apply in_map_iff. exists x. tauto.
Qed.

Lemma flush_NoDup (st : Processor.seg_state) :
  NoDup (keys (Processor.sections st)) -> NoDup (keys (Processor.flush st)).
Proof.
  intros Hst. unfold Processor.flush.
  destruct (Processor.buffer st); [assumption | now apply dict_set_NoDup].
Qed.

Lemma seg_step_NoDup (st : Processor.seg_state) (line : string) :
  NoDup (keys (Processor.sections st)) ->
  NoDup (keys (Processor.sections (Processor.seg_step st line))).
Proof.
  intros Hst. unfold Processor.seg_step.
  destruct (negb (truthy (strip line))); [assumption|].
  destruct (Processor.find_header (strip line)); simpl;
    [now apply flush_NoDup | assumption].
Qed.

(** The section names of a segmentation are pairwise distinct. *)
Lemma split_into_sections_NoDup (text : string) :
  NoDup (keys (Processor.split_into_sections text)).
Proof.
  unfold Processor.split_into_sections.
  apply keys_filter_NoDup, flush_NoDup.
  generalize (split_on (ascii_of_nat 10) text).
  assert (Hinit : NoDup (keys (Processor.sections (Processor.mk_seg [] "Main Content" []))))
    by constructor.
  revert Hinit. generalize (Processor.mk_seg [] "Main Content" []).
  intros st Hst lines. revert st Hst.
  induction lines as [|line lines IH]; intros st Hst; simpl.
  - assumption.
  - apply IH. now apply seg_step_NoDup.
Qed.

Lemma chunk_loop_keys (chunker : string -> outcome (list string))
    (l : list (string * string)) (d0 : list (string * list string))
    (c0 : list chunk_dict) :
  NoDup (keys l) ->
  (forall k, In k (keys l) -> ~ In k (keys d0)) ->
  keys (fst (fold_left (Processor.chunk_step chunker) l (d0, c0))) =
  keys d0 ++ keys (filter (chunked chunker) l).
Proof.
  revert d0 c0. induction l as [|[name text] l IH]; intros d0 c0 Hnd Hfresh.
  - simpl. now rewrite app_nil_r.
  - cbn [fold_left filter]. unfold Processor.chunk_step at 2, chunked at 1.
    simpl in Hnd. inversion Hnd as [|? ? Hout Hrest]; subst.
    cbn [snd fst]. destruct (chunker text) as [pieces|e].
    + rewrite IH; [|assumption|].
      * rewrite keys_dict_set_new by (apply Hfresh; now left).
        now rewrite <- app_assoc.
      * intros k Hk. rewrite keys_dict_set_new by (apply Hfresh; now left).
        rewrite in_app_iff. intros [Hin | [<- | []]].
        -- apply (Hfresh k); [now right | assumption].
        -- contradiction.
    + rewrite IH; [reflexivity | assumption |].
      intros k Hk. apply Hfresh. now right.
Qed.

Lemma generate_summary_returns (w : env) (sections : list (string * string)) (t : trace) :
  exists summary t',
    try_except (Processor.generate_summary w sections)
      (fun _ => ret "Summary generation failed. Document processed successfully.") t
    = (Return summary, t').
Proof.
  unfold try_except at 1.
  destruct (Processor.generate_summary w sections t) as [[summary|e] t1];
    eexists; eexists; reflexivity.
Qed.

(** C10: when processing returns, the [sections] list holds, in order,
    the name of every segmented section whose chunking did not raise, and
    [stats.total_sections] is its length; a section all of whose chunks the
    noise filter discarded is among them, with no entry in [chunks]. *)
Theorem C10_sections_reported (w : env) (chunker : string -> outcome (list string))
    (f : file) (t t' : trace) (res : Processor.result) :
  Processor.process_document_with w chunker f t = (Return res, t') ->
  (exists text,
     Processor.extract_text w f = Return text
     /\ Processor.r_sections res =
        keys (filter (chunked chunker) (Processor.split_into_sections text))
     /\ Processor.total_sections (Processor.r_stats res) =
        length (Processor.r_sections res))
  /\ (exists res0 t0,
        Processor.process_document Samples.fresh two_section_file [] = (Return res0, t0)
        /\ In "Introduction" (Processor.r_sections res0)
        /\ Processor.total_sections (Processor.r_stats res0) = 2
        /\ forall c, In c (Processor.r_chunks res0) -> c_section c <> Some "Introduction").
Proof.
  intros Hrun. split.
  - unfold Processor.process_document_with, bind at 1, lift in Hrun.
    destruct (Processor.extract_text w f) as [text|e]; [|discriminate].
    exists text. split; [reflexivity|].
    pose proof (split_into_sections_NoDup text) as Hnd.
    pose proof (chunk_loop_keys chunker (Processor.split_into_sections text) [] []
                  Hnd (fun _ _ H => H)) as Hkeys.
    destruct (Processor.split_into_sections text) as [|kv0 raw]; [discriminate|].
    destruct (fold_left (Processor.chunk_step chunker) (kv0 :: raw) ([], []))
      as [sections chunks].
    destruct chunks as [|c0 chunks]; [discriminate|].
    unfold bind in Hrun.
    destruct (generate_summary_returns w (kv0 :: raw) t) as [summary [t1 Hsum]].
    rewrite Hsum in Hrun. unfold ret in Hrun.
    injection Hrun as <- _. simpl in *.
    split; [exact Hkeys|]. unfold keys. now rewrite length_map.
  - eexists. eexists. split; [vm_compute; reflexivity|].
    split; [simpl; now left|]. split; [reflexivity|].
    intros c [<- | []]. discriminate.
Qed.

(** C10 on the two-section file. *)
Lemma C10_sections_reported_witness :
  exists text,
    Processor.extract_text Samples.fresh two_section_file = Return text
    /\ [ "Introduction"; "Conclusion" ] =
       keys (filter (chunked (fun sec_text =>
                                Return (Processor.chunk_section Samples.fresh sec_text)))
                    (Processor.split_into_sections text))
    /\ 2 = length [ "Introduction"; "Conclusion" ].
Proof.
  pose proof (C10_sections_reported Samples.fresh
                (fun sec_text => Return (Processor.chunk_section Samples.fresh sec_text))
                two_section_file [] []
                (Processor.mk_result
                   [ "Introduction"; "Conclusion" ]
                   [ mk_chunk (Some "Conclusion") (Some 1)
                       (Some "This conclusion is long enough to pass the filter.") None ]
                   ("Document Summary:" +++ nl +++
                    "Conclusion: This conclusion is long enough to pass the filter.")
                   (Processor.mk_stats 1 2 80))) as H.
  apply H. vm_compute. reflexivity.
Defined.

(** ** Segmentation *)

(** Every section of a segmentation has text left after trimming. *)
Lemma split_into_sections_nonempty (text name value : string) :
  In (name, value) (Processor.split_into_sections text) -> strip value <> "".
Proof.
  unfold Processor.split_into_sections. intros Hin.
  apply filter_In in Hin. destruct Hin as [_ Hkeep]. simpl in Hkeep.
  intros Hblank. rewrite Hblank in Hkeep. discriminate.
Qed.

Lemma lstrip_head (s : string) (a : ascii) (r : string) :
  lstrip s = String a r -> isspace a = false.
Proof.
  induction s as [|c s IH]; simpl; [discriminate|].
  destruct (isspace c) eqn:Hc; [exact IH|].
  intros H. injection H as <- _. exact Hc.
Qed.

Lemma rstrip_idempotent (s : string) : rstrip (rstrip s) = rstrip s.
Proof.
  induction s as [|c s IH]; simpl; [reflexivity|].
  destruct (rstrip s) as [|b r] eqn:Hr.
  - destruct (isspace c) eqn:Hc; simpl; [reflexivity | now rewrite Hc].
  - simpl in *. now rewrite IH.
Qed.

Lemma rstrip_head (s : string) (a : ascii) (r : string) :
  rstrip s = String a r -> exists s', s = String a s'.
Proof.
  destruct s as [|c s]; simpl; [discriminate|].
  destruct (rstrip s); [destruct (isspace c); [discriminate|] |];
    intros H; injection H as <- _; eexists; reflexivity.
Qed.

Lemma lstrip_solid_head (a : ascii) (r : string) :
  isspace a = false -> lstrip (String a r) = String a r.
Proof. intros H. simpl. now rewrite H. Qed.

Lemma strip_solid (l : string) : strip l <> "" -> solid (strip l).
Proof.
  intros Hne. split; [assumption|]. split.
  - unfold strip in *. destruct (rstrip (lstrip l)) as [|a r] eqn:Hr; [contradiction|].
    destruct (rstrip_head _ _ _ Hr) as [s' Hs'].
    apply lstrip_solid_head. eapply lstrip_head. eassumption.
  - unfold strip. apply rstrip_idempotent.
Qed.

Lemma lstrip_suffix (s : string) : exists pre, s = pre +++ lstrip s.
Proof.
  induction s as [|c s [pre IH]]; simpl.
  - now exists "".
  - destruct (isspace c).
    + exists (String c pre). simpl. now rewrite <- IH.
    + now exists "".
Qed.

Lemma append_nil_r (s : string) : s +++ "" = s.
Proof. induction s as [|c s IH]; simpl; [reflexivity | now rewrite IH]. Qed.

Lemma rstrip_prefix (s : string) : exists post, s = rstrip s +++ post.
Proof.
  induction s as [|c s [post IH]]; simpl.
  - now exists "".
  - destruct (rstrip s) as [|b r] eqn:Hr.
    + destruct (isspace c).
      * exists (String c s). reflexivity.
      * exists s. reflexivity.
    + exists post. simpl in *. now rewrite <- IH.
Qed.

Lemma strip_inside (l : string) : exists pre post, l = pre +++ strip l +++ post.
Proof.
  unfold strip. destruct (lstrip_suffix l) as [pre Hpre].
  destruct (rstrip_prefix (lstrip l)) as [post Hpost].
  exists pre, post. now rewrite <- Hpost.
Qed.

Lemma lstrip_contains (x s : string) :
  solid x -> contains x s = true -> contains x (lstrip s) = true.
Proof.
  intros [Hne [Hl _]]. destruct x as [|a x]; [contradiction|].
  assert (Ha : isspace a = false) by (eapply lstrip_head; exact Hl).
  induction s as [|c s IH]; [trivial|].
  cbn [contains lstrip]. destruct (isspace c) eqn:Hc; [|trivial].
  intros H. apply orb_true_iff in H. destruct H as [H|H]; [|now apply IH].
  simpl in H. apply andb_true_iff in H. destruct H as [H _].
  apply Ascii.eqb_eq in H. subst. congruence.
Qed.

Lemma append_nonempty (a b : string) : b <> "" -> a +++ b <> "".
Proof. destruct a; simpl; [trivial | discriminate]. Qed.

Lemma rstrip_app_nonblank (pre y : string) :
  rstrip y <> "" -> rstrip (pre +++ y) = pre +++ rstrip y.
Proof.
  intros Hy. induction pre as [|c pre IH]; simpl; [reflexivity|].
  rewrite IH. destruct (pre +++ rstrip y) eqn:H; [|reflexivity].
  exfalso. apply (append_nonempty pre _ Hy). exact H.
Qed.

Lemma rstrip_cons (c : ascii) (s : string) :
  rstrip s <> "" -> rstrip (String c s) = String c (rstrip s).
Proof.
  intros H. simpl. destruct (rstrip s); [contradiction | reflexivity].
Qed.

Lemma rstrip_cons_inv (c : ascii) (s : string) :
  s <> "" -> rstrip (String c s) = String c s -> rstrip s = s.
Proof.
  intros Hs H. simpl in H. destruct (rstrip s) as [|b r].
  - destruct (isspace c); [discriminate|].
    injection H as H. symmetry in H. contradiction.
  - now injection H.
Qed.

Lemma rstrip_app_solid (x : string) :
  x <> "" -> rstrip x = x ->
  forall post, exists post', rstrip (x +++ post) = x +++ post'.
Proof.
  induction x as [|c x IH]; [contradiction|].
  intros _ Hx post. destruct x as [|d x].
  - simpl in Hx. destruct (isspace c) eqn:Hc; [discriminate|].
    simpl. destruct (rstrip post) as [|b r].
    + rewrite Hc. now exists "".
    + now exists (String b r).
  - assert (Hne : String d x <> "") by discriminate.
    pose proof (rstrip_cons_inv c _ Hne Hx) as Hx'.
    destruct (IH Hne Hx' post) as [post' Hpost'].
    exists post'.
    change (String c (String d x) +++ post) with (String c (String d x +++ post)).
    rewrite rstrip_cons; rewrite Hpost'; [reflexivity | discriminate].
Qed.

Lemma rstrip_contains (x s : string) :
  solid x -> contains x s = true -> contains x (rstrip s) = true.
Proof.
  intros [Hne [_ Hr]] H. apply contains_spec in H.
  destruct H as [pre [post ->]]. apply contains_spec.
  destruct (rstrip_app_solid x Hne Hr post) as [post' Hpost'].
  exists pre, post'. rewrite rstrip_app_nonblank; rewrite Hpost'.
  - reflexivity.
  - destruct x; [contradiction | discriminate].
Qed.

Lemma strip_contains (x s : string) :
  solid x -> contains x s = true -> contains x (strip s) = true.
Proof.
  intros Hx H. unfold strip. now apply rstrip_contains, lstrip_contains.
Qed.

Lemma contains_trans (x y z : string) :
  contains x y = true -> contains y z = true -> contains x z = true.
Proof.
  rewrite !contains_spec. intros [p1 [q1 ->]] [p2 [q2 ->]].
  exists (p2 +++ p1), (q1 +++ q2). now rewrite !append_assoc.
Qed.

Lemma join_contains (sep l : string) (ls : list string) :
  In l ls -> contains l (join sep ls) = true.
Proof.
  intros Hin. apply contains_spec.
  induction ls as [|p ls IH]; [destruct Hin|].
  destruct Hin as [-> | Hin].
  - destruct ls as [|q ls].
    + exists "", "". simpl. now rewrite append_nil_r.
    + exists "", (sep +++ join sep (q :: ls)). reflexivity.
  - destruct (IH Hin) as [pre [post H]]. destruct ls as [|q ls]; [destruct Hin|].
    exists (p +++ sep +++ pre), post.
    change (join sep (p :: q :: ls)) with (p +++ sep +++ join sep (q :: ls)).
    rewrite H. now rewrite !append_assoc.
Qed.

Lemma contains_solid_nonblank (x v : string) :
  solid x -> contains x v = true -> truthy (strip v) = true.
Proof.
  intros Hx H. apply (strip_contains x v Hx) in H.
  destruct (strip v); [|reflexivity].
  destruct Hx as [Hne _]. destruct x; [contradiction | discriminate].
Qed.

Lemma dict_set_In_new {V : Type} (d : list (string * V)) (k : string) (v : V) :
  In (k, v) (dict_set d k v).
Proof.
  induction d as [|[k' v'] d IH]; simpl; [now left|].
  destruct (String.eqb_spec k' k) as [->|Hne]; [now left | now right].
Qed.

Lemma dict_set_In_old {V : Type} (d : list (string * V)) (k : string) (v : V)
    (k0 : string) (v0 : V) :
  ~ In k (keys d) -> In (k0, v0) d -> In (k0, v0) (dict_set d k v).
Proof.
  induction d as [|[k' v'] d IH]; simpl; intros Hk Hin; [destruct Hin|].
  destruct (String.eqb_spec k' k) as [->|Hne].
  - exfalso. apply Hk. now left.
  - destruct Hin as [Hin|Hin]; [now left|]. right. apply IH; [|assumption].
    intros H. apply Hk. now right.
Qed.

Lemma flush_keeps_sections (st : Processor.seg_state) (name value : string) :
  ~ In (Processor.current_section st) (keys (Processor.sections st)) ->
  In (name, value) (Processor.sections st) ->
  In (name, value) (Processor.flush st).
Proof.
  intros Hfresh Hin. unfold Processor.flush.
  destruct (Processor.buffer st); [assumption | now apply dict_set_In_old].
Qed.

Lemma flush_keeps_buffer (st : Processor.seg_state) (line : string) :
  In line (Processor.buffer st) -> strip line <> "" ->
  exists value,
    In (Processor.current_section st, value) (Processor.flush st)
    /\ contains (strip line) value = true.
Proof.
  intros Hin Hne. unfold Processor.flush.
  destruct (Processor.buffer st) as [|b0 bs] eqn:Hbuf; [destruct Hin|].
  exists (strip (join nl (b0 :: bs))). split; [apply dict_set_In_new|].
  apply strip_contains; [now apply strip_solid|].
  apply contains_trans with line; [|now apply join_contains].
  apply contains_spec. apply strip_inside.
Qed.

Lemma flush_keys (st : Processor.seg_state) (k : string) :
  In k (keys (Processor.flush st)) ->
  k = Processor.current_section st \/ In k (keys (Processor.sections st)).
Proof.
  unfold Processor.flush. destruct (Processor.buffer st); [now right|].
  destruct (in_dec string_dec (Processor.current_section st)
              (keys (Processor.sections st))) as [Hin|Hout].
  - rewrite keys_dict_set_old by assumption. now right.
  - rewrite keys_dict_set_new by assumption. rewrite in_app_iff.
    intros [H | [<- | []]]; [now right | now left].
Qed.

Lemma seg_step_cases (st : Processor.seg_state) (line : string) :
  Processor.seg_step st line =
  match header_of line with
  | Some header => Processor.mk_seg (Processor.flush st) header []
  | None =>
      if truthy (strip line)
      then Processor.mk_seg (Processor.sections st) (Processor.current_section st)
             (Processor.buffer st ++ [line])
      else st
  end.
Proof.
  unfold Processor.seg_step, header_of.
  destruct (truthy (strip line)); simpl; [|reflexivity].
  destruct (Processor.find_header (strip line)); reflexivity.
Qed.

(** The loop invariant, looking forward: if the headers still to come are
    pairwise distinct and none of them names the current or an earlier
    section, then everything saved or buffered so far, and every content
    line still to come, is found in the section map at the end. *)
Lemma segmentation_loop (lines : list string) (st : Processor.seg_state) :
  NoDup (header_names lines) ->
  (forall h, In h (header_names lines) ->
             h <> Processor.current_section st
             /\ ~ In h (keys (Processor.sections st))) ->
  ~ In (Processor.current_section st) (keys (Processor.sections st)) ->
  let final := Processor.flush (fold_left Processor.seg_step lines st) in
  (forall name value, In (name, value) (Processor.sections st) ->
                      In (name, value) final)
  /\ (forall line, In line (Processor.buffer st) -> strip line <> "" ->
        exists name value, In (name, value) final
                           /\ contains (strip line) value = true)
  /\ (forall line, In line lines -> strip line <> "" -> header_of line = None ->
        exists name value, In (name, value) final
                           /\ contains (strip line) value = true).
Proof.
  revert st. induction lines as [|l0 rest IH]; intros st Hnd Hahead Hfresh.
  - simpl. split; [|split].
    + intros name value. now apply flush_keeps_sections.
    + intros line Hin Hne.
      destruct (flush_keeps_buffer st line Hin Hne) as [value Hv].
      now exists (Processor.current_section st), value.
    + intros line [].
  - cbn [fold_left]. rewrite seg_step_cases.
    unfold header_names in Hnd, Hahead. cbn [flat_map] in Hnd, Hahead.
    fold (header_names rest) in Hnd, Hahead.
    destruct (header_of l0) as [header|] eqn:Hh.
    + simpl in Hnd. inversion Hnd as [|? ? Hout Hrest]; subst.
      destruct (Hahead header (or_introl eq_refl)) as [Hcur Hnew].
      destruct (IH (Processor.mk_seg (Processor.flush st) header []) Hrest)
        as [Hsec [_ Hlines]].
      * intros h Hin. simpl. split; [intros ->; contradiction|].
        intros Hk. destruct (Hahead h (or_intror Hin)) as [H1 H2].
        apply flush_keys in Hk. destruct Hk as [Hk|Hk]; contradiction.
      * simpl. intros Hk. apply flush_keys in Hk.
        destruct Hk as [Hk|Hk]; contradiction.
      * simpl in Hsec. split; [|split].
        -- intros name value Hin. apply Hsec. now apply flush_keeps_sections.
        -- intros line Hin Hne.
           destruct (flush_keeps_buffer st line Hin Hne) as [value [Hv Hc]].
           exists (Processor.current_section st), value. split; [now apply Hsec | assumption].
        -- intros line [<- | Hin] Hne Hnone; [congruence|]. now apply Hlines.
    + simpl in Hnd, Hahead. destruct (truthy (strip l0)) eqn:Ht.
      * destruct (IH (Processor.mk_seg (Processor.sections st)
                        (Processor.current_section st)
                        (Processor.buffer st ++ [l0])) Hnd Hahead Hfresh)
          as [Hsec [Hbuf Hlines]].
        simpl in Hsec, Hbuf. split; [exact Hsec|]. split.
        -- intros line Hin. apply Hbuf. apply in_app_iff. now left.
        -- intros line [<- | Hin] Hne Hnone; [|now apply Hlines].
           apply Hbuf; [|assumption]. apply in_app_iff. right. now left.
      * destruct (IH st Hnd Hahead Hfresh) as [Hsec [Hbuf Hlines]].
        split; [exact Hsec|]. split; [exact Hbuf|].
        intros line [<- | Hin] Hne Hnone; [|now apply Hlines].
        exfalso. apply Hne. destruct (strip l0); [reflexivity | discriminate].
Qed.

Lemma header_names_canonical (lines : list string) (h : string) :
  In h (header_names lines) -> In h Processor.SECTION_HEADERS.
Proof.
  unfold header_names. rewrite in_flat_map. intros [line [_ Hin]].
  unfold header_of in Hin. destruct (negb (truthy (strip line))); [destruct Hin|].
  destruct (Processor.find_header (strip line)) as [h'|] eqn:Hf; [|destruct Hin].
  destruct Hin as [<- | []]. unfold Processor.find_header in Hf.
  apply find_some in Hf. tauto.
Qed.

(** Segmentation loses no text when no header name repeats: every line
    that is neither blank nor a header then occurs, trimmed, in the text of
    some section of the result. *)
Theorem split_into_sections_preserves (text line : string) :
  NoDup (header_names (split_on (ascii_of_nat 10) text)) ->
  In line (split_on (ascii_of_nat 10) text) ->
  strip line <> "" ->
  header_of line = None ->
  exists name value,
    In (name, value) (Processor.split_into_sections text)
    /\ contains (strip line) value = true.
Proof.
  intros Hnd Hin Hne Hnone.
  destruct (segmentation_loop (split_on (ascii_of_nat 10) text)
              (Processor.mk_seg [] "Main Content" []) Hnd) as [_ [_ Hlines]].
  - intros h Hh. simpl. split; [|intros []].
    apply header_names_canonical in Hh. intros ->.
    revert Hh. vm_compute. intuition discriminate.
  - intros [].
  - destruct (Hlines line Hin Hne Hnone) as [name [value [Hv Hc]]].
    exists name, value. split; [|assumption].
    unfold Processor.split_into_sections. apply filter_In. split; [assumption|].
    simpl. apply (contains_solid_nonblank (strip line)); [now apply strip_solid | assumption].
Qed.

(** C2 does not hold of the code: in [survey_report] the lines "We sampled
    ten sites." and "Site A passed." are neither blank nor headers, yet the
    section map keeps only the text that follows the second occurrence of
    each header, and neither line occurs in any section value. *)
Theorem C2_repeated_header_overwrites :
  Processor.find_header (strip "We sampled ten sites.") = None
  /\ Processor.find_header (strip "Site A passed.") = None
  /\ Processor.split_into_sections survey_report =
     [ ("Methods", "We repeated the survey."); ("Results", "Site B failed.") ]
  /\ (forall name value,
        In (name, value) (Processor.split_into_sections survey_report) ->
        contains "We sampled ten sites." value = false
        /\ contains "Site A passed." value = false).
Proof.
  split; [vm_compute; reflexivity|].
  split; [vm_compute; reflexivity|].
  assert (Hmap : Processor.split_into_sections survey_report =
                 [ ("Methods", "We repeated the survey."); ("Results", "Site B failed.") ])
    by (vm_compute; reflexivity).
  split; [exact Hmap|].
  intros name value Hin. rewrite Hmap in Hin.
  destruct Hin as [H | [H | []]]; injection H as <- <-;
    split; vm_compute; reflexivity.
Qed.

(** ** Text extraction *)

Lemma solid_strip_fixed (x : string) : solid x -> strip x = x.
Proof.
  intros [_ [Hl Hr]]. unfold strip. now rewrite Hl.
Qed.

Lemma strip_idempotent (s : string) : strip (strip s) = strip s.
Proof.
  destruct (strip s) eqn:Hs; [reflexivity|].
  rewrite <- Hs. apply solid_strip_fixed, strip_solid. rewrite Hs. discriminate.
Qed.

Lemma truthy_not_blank (s : string) : truthy s = true <-> s <> "".
Proof.
  destruct s; simpl; split; intros H; try discriminate; try reflexivity.
  now contradiction H.
Qed.

(** A text that contains a non-blank line is not blank. *)
Lemma join_nonblank (sep part : string) (parts : list string) :
  In part parts -> truthy (strip part) = true ->
  truthy (strip (join sep parts)) = true.
Proof.
  intros Hin Hpart.
  apply (contains_solid_nonblank (strip part)).
  - apply strip_solid. now apply truthy_not_blank.
  - apply contains_trans with part; [|now apply join_contains].
    apply contains_spec, strip_inside.
Qed.

Lemma pdf_pages_nonblank (pages : list (outcome string)) (parts0 : list string) :
  (forall p, In p parts0 -> truthy (strip p) = true) ->
  forall p,
    In p (fold_left (fun parts page =>
                       match page with
                       | Return page_text =>
                           if truthy (strip page_text)
                           then parts ++ [page_text] else parts
                       | Raise _ => parts
                       end) pages parts0) ->
    truthy (strip p) = true.
Proof.
  revert parts0. induction pages as [|page pages IH]; intros parts0 H0; simpl.
  - exact H0.
  - apply IH. destruct page as [page_text|e]; [|exact H0].
    destruct (truthy (strip page_text)) eqn:Ht; [|exact H0].
    intros p Hp. apply in_app_iff in Hp. destruct Hp as [Hp | [<- | []]];
      [now apply H0 | exact Ht].
Qed.

(** The loop over the pages of a PDF collects, in page order, the texts
    of the readable pages that are not blank. *)
Lemma pdf_pages_collected (pages : list (outcome string)) (parts0 : list string) :
  fold_left (fun parts page =>
               match page with
               | Return page_text =>
                   if truthy (strip page_text)
                   then parts ++ [page_text] else parts
               | Raise _ => parts
               end) pages parts0
  = parts0 ++ filter (fun page_text => truthy (strip page_text)) (readable_pages pages).
Proof.
  revert parts0. induction pages as [|page pages IH]; intros parts0.
  - simpl. now rewrite app_nil_r.
  - cbn [fold_left readable_pages flat_map]. rewrite IH.
    destruct page as [page_text|e]; [|reflexivity].
    cbn [app filter].
    destruct (truthy (strip page_text)); [|reflexivity].
    now rewrite <- app_assoc.
Qed.

(** Whatever [extract_text] returns is not blank.  For a PDF it is the
    texts of the pages that PyMuPDF could read and that are not blank,
    joined by newlines in page order; for a TXT file it is the content of
    the file, unchanged. *)
Theorem extract_text_not_blank (w : env) (f : file) (text : string) :
  Processor.extract_text w f = Return text ->
  strip text <> ""
  /\ ((endswith ".pdf" (lower (filename f)) = true
       /\ exists pages,
            fitz_open w (content f) = Return pages
            /\ text = join nl (filter (fun page_text => truthy (strip page_text))
                                 (readable_pages pages)))
      \/ (endswith ".pdf" (lower (filename f)) = false
          /\ endswith ".txt" (lower (filename f)) = true /\ text = content f)).
Proof.
  unfold Processor.extract_text.
  destruct (endswith ".pdf" (lower (filename f))) eqn:Hpdf.
  - intros H.
    unfold Processor.extract_text_from_pdf in H.
    destruct (negb (truthy (content f))); [discriminate|].
    destruct (fitz_open w (content f)) as [pages|e]; [|discriminate].
    destruct (length pages =? 0); [discriminate|].
    pose proof (pdf_pages_nonblank pages [] (fun p (H : In p []) => match H with end))
      as Hparts.
    rewrite pdf_pages_collected in H, Hparts. cbn [app] in H, Hparts.
    destruct (filter _ (readable_pages pages)) as [|p0 parts] eqn:Hkept;
      [discriminate|].
    injection H as <-. split.
    + apply truthy_not_blank.
      apply (join_nonblank nl p0 (p0 :: parts)); [now left|]. apply Hparts. now left.
    + left. split; [reflexivity|]. exists pages. split; [reflexivity|].
      now rewrite Hkept.
  - destruct (endswith ".txt" (lower (filename f))) eqn:Htxt; [|discriminate].
    unfold Processor.extract_text_from_txt.
    destruct (truthy (strip (content f))) eqn:Ht; simpl; [|discriminate].
    intros H. injection H as <-. split; [now apply truthy_not_blank|].
    right. now repeat split.
Qed.

(** A PDF of four pages: one with text, one blank, one that cannot be
    read, one with text. *)
Lemma extract_text_not_blank_witness :
  strip ("Title page" +++ nl +++ "Second page") <> ""
  /\ ((endswith ".pdf" (lower "Paper.PDF") = true
       /\ exists pages,
            Return [ Return "Title page"; Return "   ";
                     Raise (Exception "damaged page"); Return "Second page" ]
            = Return pages
            /\ "Title page" +++ nl +++ "Second page"
               = join nl (filter (fun page_text => truthy (strip page_text))
                            (readable_pages pages)))
      \/ (endswith ".pdf" (lower "Paper.PDF") = false
          /\ endswith ".txt" (lower "Paper.PDF") = true
          /\ "Title page" +++ nl +++ "Second page" = "%PDF-1.7")).
Proof.
  apply (extract_text_not_blank
           (mk_env None (Return tt) (fun _ _ => Raise (Exception "model unavailable"))
              (fun text => Return [text])
              (fun _ => Return [ Return "Title page"; Return "   ";
                                 Raise (Exception "damaged page"); Return "Second page" ])
              (Return tt) false (Raise (Exception "no index on disk"))
              (fun _ => Return tt) (fun names => names))
           (mk_file "Paper.PDF" "%PDF-1.7")).
  reflexivity.
Defined.

(** Every failure of [extract_text] is a [ValueError]: the "unsupported
    format" one for any other extension, whatever the content and without
    consulting the PDF library; a message prefixed "PDF parsing error: " for
    a PDF; and the "TXT parsing error" for a blank TXT file. *)
Theorem extract_text_errors (w : env) (f : file) (e : exn) :
  Processor.extract_text w f = Raise e ->
  (exists msg, e = ValueError msg)
  /\ (endswith ".pdf" (lower (filename f)) = true ->
      exists cause, e = ValueError ("PDF parsing error: " +++ cause))
  /\ (endswith ".pdf" (lower (filename f)) = false ->
      endswith ".txt" (lower (filename f)) = true ->
      strip (content f) = ""
      /\ e = ValueError
               "TXT parsing error: TXT file is empty or contains no readable text")
  /\ (endswith ".pdf" (lower (filename f)) = false ->
      endswith ".txt" (lower (filename f)) = false ->
      e = ValueError "Unsupported file format. Only PDF and TXT files are supported.").
Proof.
  unfold Processor.extract_text.
  destruct (endswith ".pdf" (lower (filename f))) eqn:Hpdf.
  - unfold Processor.extract_text_from_pdf.
    match goal with
    | |- match ?body with _ => _ end = _ -> _ => destruct body as [text|e0]
    end; [discriminate|].
    intros H. injection H as <-.
    split; [eexists; reflexivity|]. split; [intros _; eexists; reflexivity|].
    split; discriminate.
  - destruct (endswith ".txt" (lower (filename f))) eqn:Htxt.
    + unfold Processor.extract_text_from_txt.
      destruct (truthy (strip (content f))) eqn:Ht; simpl; [discriminate|].
      intros H. injection H as <-.
      split; [eexists; reflexivity|]. split; [discriminate|].
      split; [|discriminate]. intros _ _. split; [|reflexivity].
      destruct (strip (content f)); [reflexivity | discriminate].
    + intros H. injection H as <-.
      split; [eexists; reflexivity|]. split; [discriminate|].
      split; [discriminate|]. reflexivity.
Qed.

Lemma extract_text_errors_witness :
  (exists msg,
      ValueError "Unsupported file format. Only PDF and TXT files are supported."
      = ValueError msg)
  /\ ValueError "Unsupported file format. Only PDF and TXT files are supported."
     = ValueError "Unsupported file format. Only PDF and TXT files are supported.".
Proof.
  destruct (extract_text_errors Samples.fresh (mk_file "table.csv" "a,b")
              (ValueError "Unsupported file format. Only PDF and TXT files are supported."))
    as [Hval [_ [_ Hother]]].
  - reflexivity.
  - split; [exact Hval|]. apply Hother; reflexivity.
Defined.

(** ** The shape of a segmentation *)

Lemma dict_set_In_inv {V : Type} (d : list (string * V)) (k : string) (v : V)
    (k0 : string) (v0 : V) :
  In (k0, v0) (dict_set d k v) -> (k0 = k /\ v0 = v) \/ In (k0, v0) d.
Proof.
  induction d as [|[k' v'] d IH]; simpl.
  - intros [H | []]. injection H as <- <-. now left.
  - destruct (String.eqb_spec k' k) as [->|Hne].
    + intros [H | H]; [injection H as <- <-; now left | right; now right].
    + intros [H | H]; [right; now left|].
      destruct (IH H) as [Heq | Hin]; [now left | right; now right].
Qed.

Lemma flush_invariant (st : Processor.seg_state) :
  seg_invariant st ->
  forall name value, In (name, value) (Processor.flush st) ->
    (name = "Main Content" \/ In name Processor.SECTION_HEADERS)
    /\ strip value = value /\ value <> "".
Proof.
  intros [Hcur Hbuf Hsec] name value. unfold Processor.flush.
  destruct (Processor.buffer st) as [|b0 bs] eqn:Hb; [apply Hsec|].
  intros Hin. apply dict_set_In_inv in Hin.
  destruct Hin as [[-> ->] | Hin]; [|now apply Hsec].
  split; [exact Hcur|]. split; [apply strip_idempotent|].
  apply truthy_not_blank. apply (join_nonblank nl b0); [now left|].
  apply Hbuf. now left.
Qed.

Lemma find_header_canonical (line_clean header : string) :
  Processor.find_header line_clean = Some header ->
  In header Processor.SECTION_HEADERS.
Proof.
  unfold Processor.find_header. intros H. apply find_some in H. tauto.
Qed.

Lemma seg_step_invariant (st : Processor.seg_state) (line : string) :
  seg_invariant st -> seg_invariant (Processor.seg_step st line).
Proof.
  intros Hst. unfold Processor.seg_step.
  destruct (truthy (strip line)) eqn:Ht; simpl; [|assumption].
  destruct (Processor.find_header (strip line)) as [header|] eqn:Hf.
  - constructor; simpl.
    + right. eapply find_header_canonical; eassumption.
    + intros l [].
    + now apply flush_invariant.
  - destruct Hst as [Hcur Hbuf Hsec]. constructor; simpl; try assumption.
    intros l Hl. apply in_app_iff in Hl.
    destruct Hl as [Hl | [<- | []]]; [now apply Hbuf | exact Ht].
Qed.

Lemma seg_loop_invariant (lines : list string) (st : Processor.seg_state) :
  seg_invariant st -> seg_invariant (fold_left Processor.seg_step lines st).
Proof.
  revert st. induction lines as [|line lines IH]; intros st Hst; simpl.
  - assumption.
  - apply IH. now apply seg_step_invariant.
Qed.

Lemma seg_initial_invariant :
  seg_invariant (Processor.mk_seg [] "Main Content" []).
Proof.
  constructor; simpl; [now left | intros l [] | intros n v []].
Qed.

(** A segmentation is a well-formed section map: the names are pairwise
    distinct, each is "Main Content" or one of the canonical headers, and
    each text is trimmed and not empty. *)
Theorem segmentation_well_formed (text : string) :
  NoDup (keys (Processor.split_into_sections text))
  /\ forall name value,
       In (name, value) (Processor.split_into_sections text) ->
       (name = "Main Content" \/ In name Processor.SECTION_HEADERS)
       /\ strip value = value /\ value <> "".
Proof.
  split; [apply split_into_sections_NoDup|].
  intros name value Hin. unfold Processor.split_into_sections in Hin.
  apply filter_In in Hin. destruct Hin as [Hin _].
  revert Hin. apply flush_invariant, seg_loop_invariant, seg_initial_invariant.
Qed.

(** The final filter of [split_into_sections] removes nothing. *)
Lemma final_filter_keeps_all (st : Processor.seg_state) :
  seg_invariant st ->
  filter (fun kv => truthy (strip (snd kv))) (Processor.flush st) = Processor.flush st.
Proof.
  intros Hst. pose proof (flush_invariant st Hst) as Hall.
  induction (Processor.flush st) as [|[name value] l IH]; [reflexivity|].
  simpl. destruct (Hall name value (or_introl eq_refl)) as [_ [Hfix Hne]].
  rewrite Hfix. apply truthy_not_blank in Hne. rewrite Hne. f_equal.
  apply IH. intros n v Hin. apply Hall. now right.
Qed.

Lemma dict_set_not_empty {V : Type} (d : list (string * V)) (k : string) (v : V) :
  dict_set d k v <> [].
Proof.
  destruct d as [|[k' v'] d]; simpl; [discriminate|].
  destruct (String.eqb k' k); discriminate.
Qed.

Lemma flush_not_empty (st : Processor.seg_state) :
  Processor.buffer st <> [] \/ Processor.sections st <> [] ->
  Processor.flush st <> [].
Proof.
  unfold Processor.flush. destruct (Processor.buffer st).
  - intros [H | H]; [contradiction | assumption].
  - intros _. apply dict_set_not_empty.
Qed.

(** Once something has been buffered or saved, the state never becomes
    empty again. *)
Lemma seg_loop_not_empty (lines : list string) (st : Processor.seg_state) :
  Processor.buffer st <> [] \/ Processor.sections st <> [] ->
  Processor.flush (fold_left Processor.seg_step lines st) <> [].
Proof.
  revert st. induction lines as [|line lines IH]; intros st Hst; simpl.
  - now apply flush_not_empty.
  - apply IH. rewrite seg_step_cases.
    destruct (header_of line); simpl.
    + right. now apply flush_not_empty.
    + destruct (truthy (strip line)); simpl; [|assumption].
      left. destruct (Processor.buffer st); discriminate.
Qed.

Lemma seg_loop_content (lines : list string) (st : Processor.seg_state) (line : string) :
  In line lines -> strip line <> "" -> header_of line = None ->
  Processor.flush (fold_left Processor.seg_step lines st) <> [].
Proof.
  revert st. induction lines as [|l0 lines IH]; intros st Hin Hne Hnone; [destruct Hin|].
  simpl. destruct Hin as [-> | Hin]; [|now apply IH].
  apply seg_loop_not_empty. rewrite seg_step_cases, Hnone.
  apply truthy_not_blank in Hne. rewrite Hne. simpl.
  left. destruct (Processor.buffer st); discriminate.
Qed.

Lemma seg_loop_no_content (lines : list string) (st : Processor.seg_state) :
  (forall line, In line lines -> strip line = "" \/ header_of line <> None) ->
  Processor.buffer st = [] -> Processor.sections st = [] ->
  Processor.flush (fold_left Processor.seg_step lines st) = [].
Proof.
  revert st. induction lines as [|l0 lines IH]; intros st Hall Hb Hs; simpl.
  - unfold Processor.flush. now rewrite Hb.
  - apply IH.
    + intros line Hin. apply Hall. now right.
    + rewrite seg_step_cases. destruct (header_of l0) eqn:Hh; [reflexivity|].
      destruct (Hall l0 (or_introl eq_refl)) as [Hblank | Hhead]; [|contradiction].
      now rewrite Hblank.
    + rewrite seg_step_cases. destruct (header_of l0) eqn:Hh.
      * simpl. unfold Processor.flush. now rewrite Hb.
      * destruct (Hall l0 (or_introl eq_refl)) as [Hblank | Hhead]; [|contradiction].
        now rewrite Hblank.
Qed.

(** The section map is empty exactly when the text has no content line,
    that is when every line is blank or a header: a single line of body
    text, with or without headers around it, is enough for a section. *)
Theorem no_sections_iff_no_content (text : string) :
  Processor.split_into_sections text = [] <->
  forall line, In line (split_on (ascii_of_nat 10) text) ->
               strip line = "" \/ header_of line <> None.
Proof.
  unfold Processor.split_into_sections.
  rewrite final_filter_keeps_all
    by apply seg_loop_invariant, seg_initial_invariant.
  split.
  - intros Hempty line Hin.
    destruct (strip line) eqn:Hs; [now left|]. right. intros Hnone.
    apply (seg_loop_content _ (Processor.mk_seg [] "Main Content" []) line Hin);
      [rewrite Hs; discriminate | assumption | assumption].
  - intros Hall. now apply seg_loop_no_content.
Qed.

Lemma seg_loop_no_header (lines : list string) (st : Processor.seg_state) :
  (forall line, In line lines -> header_of line = None) ->
  fold_left Processor.seg_step lines st =
  Processor.mk_seg (Processor.sections st) (Processor.current_section st)
    (Processor.buffer st ++ filter (fun line => truthy (strip line)) lines).
Proof.
  revert st. induction lines as [|l0 lines IH]; intros st Hall; simpl.
  - rewrite app_nil_r. now destruct st.
  - rewrite IH by (intros line Hin; apply Hall; now right).
    rewrite seg_step_cases, (Hall l0 (or_introl eq_refl)).
    destruct (truthy (strip l0)); simpl; [|reflexivity].
    now rewrite <- app_assoc.
Qed.

(** A text without any header line is one section, "Main Content", whose
    text is the non-blank lines joined and trimmed; it is no section at all
    only when every line is blank. *)
Theorem headerless_text_is_main_content (text : string) :
  (forall line, In line (split_on (ascii_of_nat 10) text) -> header_of line = None) ->
  Processor.split_into_sections text =
  match filter (fun line => truthy (strip line)) (split_on (ascii_of_nat 10) text) with
  | [] => []
  | body => [("Main Content", strip (join nl body))]
  end.
Proof.
  intros Hall. unfold Processor.split_into_sections.
  rewrite final_filter_keeps_all
    by apply seg_loop_invariant, seg_initial_invariant.
  rewrite seg_loop_no_header by assumption. simpl.
  unfold Processor.flush. simpl.
  destruct (filter _ (split_on (ascii_of_nat 10) text)); reflexivity.
Qed.

Lemma headerless_text_is_main_content_witness :
  Processor.split_into_sections
    (Samples.lines [ "  A note without any heading."; ""; "Second paragraph. " ]) =
  [("Main Content", strip (join nl [ "  A note without any heading.";
                                     "Second paragraph. " ]))].
Proof.
  apply (headerless_text_is_main_content
           (Samples.lines [ "  A note without any heading."; ""; "Second paragraph. " ])).
  intros line Hin. vm_compute in Hin.
  destruct Hin as [<- | [<- | [<- | []]]]; vm_compute; reflexivity.
Defined.

Lemma split_into_sections_preserves_witness :
  exists name value,
    In (name, value)
       (Processor.split_into_sections
          (Samples.lines [ "Introduction"; "This is the intro."; "";
                           "Conclusion"; "This wraps up." ]))
    /\ contains (strip "This is the intro.") value = true.
Proof.
  apply (split_into_sections_preserves
           (Samples.lines [ "Introduction"; "This is the intro."; "";
                            "Conclusion"; "This wraps up." ])
           "This is the intro.").
  - vm_compute. repeat constructor; simpl; intuition discriminate.
  - vm_compute. right. left. reflexivity.
  - vm_compute. discriminate.
  - vm_compute. reflexivity.
Defined.

(** ** The fallback slices cover the text *)

Lemma substring_empty (n m : nat) : substring n m "" = "".
Proof. destruct n, m; reflexivity. Qed.

Lemma substring_none (s : string) (n : nat) : substring n 0 s = "".
Proof.
  revert n. induction s as [|c s IH]; intros n; [apply substring_empty|].
  destruct n; simpl; [reflexivity | apply IH].
Qed.

Lemma substring_split (s : string) (i a b : nat) :
  substring i (a + b) s = substring i a s +++ substring (i + a) b s.
Proof.
  revert i a. induction s as [|c s IH]; intros i a.
  - now rewrite !substring_empty.
  - destruct i as [|i]; [|simpl; apply IH].
    destruct a as [|a]; [reflexivity|].
    simpl. now rewrite IH.
Qed.

Lemma substring_take (s : string) (i a b : nat) :
  substring 0 a (substring i b s) = substring i (Nat.min a b) s.
Proof.
  revert i a b. induction s as [|c s IH]; intros i a b.
  - now rewrite !substring_empty.
  - destruct i as [|i]; [|simpl; apply IH].
    destruct b as [|b]; [rewrite Nat.min_0_r; now destruct a|].
    destruct a as [|a]; [reflexivity|].
    simpl. now rewrite IH.
Qed.

Lemma substring_truncate (s : string) (i m : nat) :
  String.length s - i <= m -> substring i m s = substring i (String.length s - i) s.
Proof.
  revert i m. induction s as [|c s IH]; intros i m Hm.
  - now rewrite !substring_empty.
  - destruct i as [|i]; [|simpl in *; now apply IH].
    simpl in Hm. destruct m as [|m]; [lia|].
    simpl. f_equal. rewrite (IH 0 m) by lia. now rewrite Nat.sub_0_r.
Qed.

Lemma substring_whole (s : string) : substring 0 (String.length s) s = s.
Proof. induction s as [|c s IH]; simpl; [reflexivity | now rewrite IH]. Qed.

Lemma join_empty_sep_cons (p : string) (rest : list string) :
  join "" (p :: rest) = p +++ join "" rest.
Proof.
  destruct rest; simpl; [now rewrite append_nil_r | reflexivity].
Qed.

(** Pieces of [step] characters taken at the offsets of a range rebuild
    the rest of the text. *)
Lemma range_pieces (s : string) (step fuel i : nat) :
  0 < step -> len s <= i + fuel * step ->
  join "" (map (fun j => substring j step s) (range_go fuel i (len s) step)) =
  substring i (len s - i) s.
Proof.
  intros Hstep. revert i. induction fuel as [|fuel IH]; intros i Hfuel.
  - simpl. replace (len s - i) with 0 by lia. now rewrite substring_none.
  - simpl range_go. destruct (i <? len s) eqn:Hi.
    + apply Nat.ltb_lt in Hi. cbn [map]. rewrite join_empty_sep_cons.
      rewrite IH by lia. rewrite <- substring_split.
      unfold len in *. destruct (Nat.le_gt_cases (i + step) (String.length s)).
      * f_equal. lia.
      * replace (String.length s - (i + step)) with 0 by lia.
        rewrite Nat.add_0_r. apply substring_truncate. lia.
    + apply Nat.ltb_ge in Hi. simpl.
      replace (len s - i) with 0 by lia. now rewrite substring_none.
Qed.

Lemma length_range (stop step : nat) :
  0 < step -> length (range stop step) = (stop + step - 1) / step.
Proof.
  intros Hstep. set (n := (stop + step - 1) / step).
  assert (Hdiv : step * n <= stop + step - 1 < step * n + step).
  { unfold n. pose proof (Nat.div_mod_eq (stop + step - 1) step) as Hdm.
    pose proof (Nat.mod_upper_bound (stop + step - 1) step) as Hub. lia. }
  apply Nat.le_antisymm.
  - apply nth_error_None. rewrite nth_error_range by assumption.
    replace (n * step <? stop) with false; [reflexivity|].
    symmetry. apply Nat.ltb_ge. nia.
  - destruct n as [|m]; [lia|].
    apply nth_error_Some. rewrite nth_error_range by assumption.
    replace (m * step <? stop) with true; [discriminate|].
    symmetry. apply Nat.ltb_lt. nia.
Qed.

(** The fallback loses no text: there is one slice for every 400
    characters of the section, rounded up, and the first 400 characters of
    each slice, put end to end, are the section text. *)
Theorem fallback_slices_cover (section_text : string) :
  length (Processor.fallback_slices section_text) = (len section_text + 399) / 400
  /\ join "" (map (take 400) (Processor.fallback_slices section_text)) = section_text.
Proof.
  unfold Processor.fallback_slices. split.
  - rewrite length_map, length_range by lia. f_equal. lia.
  - rewrite map_map.
    rewrite (map_ext _ (fun j => substring j 400 section_text)).
    + unfold range. rewrite range_pieces by lia.
      rewrite Nat.sub_0_r. apply substring_whole.
    + intros j. unfold take, slice. rewrite substring_take.
      f_equal. lia.
Qed.

(** ** Chunks of a processed document *)

Lemma chunk_loop_chunks (chunker : string -> outcome (list string))
    (l : list (string * string)) (d0 : list (string * list string))
    (c0 : list chunk_dict) :
  snd (fold_left (Processor.chunk_step chunker) l (d0, c0)) =
  c0 ++ flat_map (fun kv => numbered (fst kv) (pieces_of chunker (snd kv))) l.
Proof.
  revert d0 c0. induction l as [|[name text] l IH]; intros d0 c0.
  - simpl. now rewrite app_nil_r.
  - cbn [fold_left flat_map fst snd]. unfold Processor.chunk_step at 2, pieces_of at 1.
    destruct (chunker text) as [pieces|e].
    + cbn [fst snd]. rewrite IH. now rewrite <- app_assoc.
    + rewrite IH. reflexivity.
Qed.

Lemma filter_numbered (sec_name other : string) (pieces : list string) :
  filter (in_section sec_name) (numbered other pieces) =
  if String.eqb other sec_name then numbered other pieces else [].
Proof.
  unfold numbered. generalize (enumerate pieces). intros l.
  induction l as [|ic l IH]; simpl.
  - now destruct (String.eqb other sec_name).
  - unfold in_section at 1. simpl. rewrite IH.
    now destruct (String.eqb other sec_name).
Qed.

Lemma filter_other_sections (chunker : string -> outcome (list string))
    (l : list (string * string)) (sec_name : string) :
  ~ In sec_name (keys l) ->
  filter (in_section sec_name)
         (flat_map (fun kv => numbered (fst kv) (pieces_of chunker (snd kv))) l) = [].
Proof.
  induction l as [|[name text] l IH]; intros Hout; [reflexivity|].
  cbn [flat_map fst snd]. rewrite filter_app, filter_numbered.
  destruct (String.eqb_spec name sec_name) as [->|Hne].
  - exfalso. apply Hout. now left.
  - apply IH. intros H. apply Hout. now right.
Qed.

Lemma filter_section_chunks (chunker : string -> outcome (list string))
    (l : list (string * string)) (sec_name sec_text : string) :
  NoDup (keys l) -> In (sec_name, sec_text) l ->
  filter (in_section sec_name)
         (flat_map (fun kv => numbered (fst kv) (pieces_of chunker (snd kv))) l) =
  numbered sec_name (pieces_of chunker sec_text).
Proof.
  induction l as [|[name text] l IH]; intros Hnd Hin; [destruct Hin|].
  simpl in Hnd. inversion Hnd as [|? ? Hout Hrest]; subst.
  cbn [flat_map fst snd]. rewrite filter_app, filter_numbered.
  destruct Hin as [Heq | Hin].
  - injection Heq as -> ->. rewrite String.eqb_refl.
    rewrite filter_other_sections by assumption. apply app_nil_r.
  - destruct (String.eqb_spec name sec_name) as [->|Hne].
    + exfalso. apply Hout. apply in_map_iff. now exists (sec_name, sec_text).
    + now apply IH.
Qed.

(** When processing returns, the chunks of each section are the pieces
    its chunking gave, in order, numbered from 1 within the section and
    without a [chunk_id]; a section whose chunking raised has none.  The
    chunk list is not empty and the statistics count it and the characters
    of the extracted text. *)
Theorem processed_chunks_by_section (w : env)
    (chunker : string -> outcome (list string)) (f : file) (t t' : trace)
    (res : Processor.result) :
  Processor.process_document_with w chunker f t = (Return res, t') ->
  exists text,
    Processor.extract_text w f = Return text
    /\ (forall sec_name sec_text,
          In (sec_name, sec_text) (Processor.split_into_sections text) ->
          filter (in_section sec_name) (Processor.r_chunks res) =
          numbered sec_name (pieces_of chunker sec_text))
    /\ Processor.r_chunks res <> []
    /\ Processor.total_chunks (Processor.r_stats res) = length (Processor.r_chunks res)
    /\ Processor.total_text_length (Processor.r_stats res) = len text.
Proof.
  intros Hrun.
  unfold Processor.process_document_with, bind at 1, lift in Hrun.
  destruct (Processor.extract_text w f) as [text|e]; [|discriminate].
  exists text. split; [reflexivity|].
  pose proof (split_into_sections_NoDup text) as Hnd.
  pose proof (chunk_loop_chunks chunker (Processor.split_into_sections text) [] [])
    as Hchunks.
  pose proof (fun n s => filter_section_chunks chunker
                (Processor.split_into_sections text) n s Hnd) as Hfilter.
  destruct (Processor.split_into_sections text) as [|kv0 raw]; [discriminate|].
  destruct (fold_left (Processor.chunk_step chunker) (kv0 :: raw) ([], []))
    as [sections chunks].
  destruct chunks as [|c0 chunks]; [discriminate|].
  unfold bind in Hrun.
  destruct (generate_summary_returns w (kv0 :: raw) t) as [summary [t1 Hsum]].
  rewrite Hsum in Hrun. unfold ret in Hrun.
  injection Hrun as <- _. cbn [Processor.r_chunks Processor.r_stats
    Processor.total_chunks Processor.total_text_length snd] in *.
  split; [|split; [discriminate | split; reflexivity]].
  intros sec_name sec_text Hin. rewrite Hchunks. now apply Hfilter.
Qed.

Lemma processed_chunks_by_section_witness :
  exists text,
    Processor.extract_text Samples.fresh two_section_file = Return text
    /\ (forall sec_name sec_text,
          In (sec_name, sec_text) (Processor.split_into_sections text) ->
          filter (in_section sec_name)
            [ mk_chunk (Some "Conclusion") (Some 1)
                (Some "This conclusion is long enough to pass the filter.") None ] =
          numbered sec_name
            (pieces_of (fun sec_text => Return (Processor.chunk_section Samples.fresh sec_text))
                       sec_text))
    /\ [ mk_chunk (Some "Conclusion") (Some 1)
           (Some "This conclusion is long enough to pass the filter.") None ] <> []
    /\ 1 = length [ mk_chunk (Some "Conclusion") (Some 1)
                      (Some "This conclusion is long enough to pass the filter.") None ]
    /\ 80 = len text.
Proof.
  apply (processed_chunks_by_section Samples.fresh
           (fun sec_text => Return (Processor.chunk_section Samples.fresh sec_text))
           two_section_file [] []
           (Processor.mk_result
              [ "Introduction"; "Conclusion" ]
              [ mk_chunk (Some "Conclusion") (Some 1)
                  (Some "This conclusion is long enough to pass the filter.") None ]
              ("Document Summary:" +++ nl +++
               "Conclusion: This conclusion is long enough to pass the filter.")
              (Processor.mk_stats 1 2 80))).
  vm_compute. reflexivity.
Defined.

(** ** The summary of a processed document *)

Lemma append_not_empty_r (a b : string) : b <> "" -> a +++ b <> "".
Proof. destruct a; simpl; [trivial | discriminate]. Qed.

Lemma append_not_empty_l (a b : string) : a <> "" -> a +++ b <> "".
Proof. destruct a; simpl; [contradiction | discriminate]. Qed.

Lemma summary_attempt_cases (w : env) (prompt : string) (t : trace) :
  exists r,
    Processor.summary_attempt w prompt t = (Return r, t ++ [prompt])
    /\ forall summary, r = Some summary -> summary <> "".
Proof.
  unfold Processor.summary_attempt, try_except, bind, invoke, ret.
  destruct (llm_invoke w (length t) prompt) as [response|e].
  - destruct (truthy response && truthy (strip response)) eqn:Hok.
    + apply andb_true_iff in Hok. destruct Hok as [_ Hstrip].
      destruct (150 <? length (split_ws (strip response))).
      * eexists. split; [reflexivity|]. intros s H. injection H as <-.
        apply append_not_empty_r. discriminate.
      * eexists. split; [reflexivity|]. intros s H. injection H as <-.
        now apply truthy_not_blank.
    + eexists. split; [reflexivity|]. discriminate.
  - eexists. split; [reflexivity|]. discriminate.
Qed.

Lemma summary_attempts_cases (w : env) (prompt : string) (attempts : nat) (t : trace) :
  exists r added,
    Processor.summary_attempts w prompt attempts t = (Return r, t ++ added)
    /\ length added <= attempts
    /\ forall summary, r = Some summary -> summary <> "".
Proof.
  revert t. induction attempts as [|attempts IH]; intros t.
  - exists None, []. rewrite app_nil_r. repeat split; [apply Nat.le_refl | discriminate].
  - cbn [Processor.summary_attempts]. unfold bind.
    destruct (summary_attempt_cases w prompt t) as [r [Hrun Hr]]. rewrite Hrun.
    destruct r as [summary|].
    + exists (Some summary), [prompt]. repeat split; [simpl; lia | exact Hr].
    + destruct (IH (t ++ [prompt])) as [r' [added [Hrun' [Hlen Hr']]]].
      exists r', (prompt :: added). rewrite Hrun'.
      rewrite <- app_assoc. repeat split; [simpl; lia | exact Hr'].
Qed.

Lemma fallback_summary_not_empty (sections : list (string * string)) :
  Processor.generate_fallback_summary sections <> "".
Proof.
  unfold Processor.generate_fallback_summary.
  destruct (fold_left _ (firstn 3 sections) []); discriminate.
Qed.

Lemma processor_get_llm_cases (w : env) (t : trace) :
  exists o, Processor.get_llm w t = (o, t)
            /\ (has_token w = false -> exists e, o = Raise e).
Proof.
  unfold Processor.get_llm, raise, lift.
  destruct (has_token w); simpl; eexists; (split; [reflexivity|]);
    [discriminate | intros _; eexists; reflexivity].
Qed.

Lemma generate_summary_cases (w : env) (sections : list (string * string))
    (t : trace) :
  exists summary added,
    Processor.generate_summary w sections t = (Return summary, t ++ added)
    /\ length added <= 3
    /\ summary <> ""
    /\ (has_token w = false ->
        added = [] /\ summary = Processor.generate_fallback_summary sections).
Proof.
  unfold Processor.generate_summary, try_except, bind.
  destruct (processor_get_llm_cases w t) as [o [Hllm Hno]]. rewrite Hllm.
  destruct o as [u|e].
  - match goal with
    | |- context [Processor.summary_attempts w ?p 3 t] =>
        destruct (summary_attempts_cases w p 3 t) as [r [added [Hrun [Hlen Hr]]]];
        rewrite Hrun
    end.
    assert (Htoken : has_token w = false ->
                     forall s : string, added = [] /\ s = Processor.generate_fallback_summary sections)
      by (intros Hfalse; destruct (Hno Hfalse); discriminate).
    destruct r as [summary|]; unfold ret.
    + exists summary, added.
      split; [reflexivity|]. split; [assumption|]. split; [now apply Hr|].
      intros Hfalse. now apply Htoken.
    + exists (Processor.generate_fallback_summary sections), added.
      split; [reflexivity|]. split; [assumption|].
      split; [apply fallback_summary_not_empty|].
      intros Hfalse. now apply Htoken.
  - exists (Processor.generate_fallback_summary sections), [].
    rewrite app_nil_r. unfold ret.
    split; [reflexivity|]. split; [simpl; lia|].
    split; [apply fallback_summary_not_empty|]. intros _. now split.
Qed.

(** [generate_summary] never raises and never returns an empty summary; it
    sends the model at most three prompts, and none at all when the token
    is missing, in which case the summary is the fallback summary. *)
Theorem summary_always_returns (w : env) (sections : list (string * string))
    (t : trace) :
  exists summary added,
    Processor.generate_summary w sections t = (Return summary, t ++ added)
    /\ length added <= 3
    /\ summary <> ""
    /\ (has_token w = false ->
        added = [] /\ summary = Processor.generate_fallback_summary sections).
Proof.
  destruct (generate_summary_cases w sections t)
    as [summary [added [Hrun [Hlen [Hne Hno]]]]].
  exists summary, added. split; [exact Hrun|]. split; [exact Hlen|].
  split; [exact Hne | exact Hno].
Qed.

(** ** Retrieval and the index *)

Lemma load_vector_store_cases (w : env) (t : trace) :
  QaEngine.load_vector_store w t =
  (if index_exists w then faiss_load w
   else Raise (ValueError "Vector store not found. Please process a document first."),
   t).
Proof.
  unfold QaEngine.load_vector_store, raise, lift.
  destruct (index_exists w); reflexivity.
Qed.

(** Retrieval never raises and never calls the model: what the search
    returns is passed on, and a missing index, a failed load or a failed
    search all give the empty list. *)
Theorem retrieval_never_fails (w : env) (query : string) (k : nat) (t : trace) :
  exists docs,
    QaEngine.retrieve_relevant_chunks w query k t = (Return docs, t)
    /\ (index_exists w = false -> docs = [])
    /\ (forall e, faiss_load w = Raise e -> docs = [])
    /\ (forall vs, index_exists w = true -> faiss_load w = Return vs ->
          docs = match vs query k with Return found => found | Raise _ => [] end).
Proof.
  unfold QaEngine.retrieve_relevant_chunks, QaEngine.load_vector_store,
    try_except, bind, raise, lift, ret.
  destruct (index_exists w); simpl.
  - destruct (faiss_load w) as [vs|e].
    + destruct (vs query k) as [found|e] eqn:Hsearch.
      * exists found. repeat split; try discriminate.
        intros vs' _ H. injection H as <-. now rewrite Hsearch.
      * exists []. repeat split.
        intros vs' _ H. injection H as <-. now rewrite Hsearch.
    + exists []. repeat split. discriminate.
  - exists []. repeat split. discriminate.
Qed.

Lemma build_vector_store_cases (w : env) (chunks : list chunk_dict) :
  QaEngine.build_vector_store w chunks =
  match makedirs w with
  | Raise e => Raise e
  | Return _ =>
      match filter survives chunks with
      | [] => Raise (ValueError "No valid text chunks provided")
      | _ =>
          match faiss_save w (stored_documents chunks) with
          | Return _ => Return (stored_documents chunks)
          | Raise e => Raise e
          end
      end
  end.
Proof.
  unfold QaEngine.build_vector_store, stored_documents.
  destruct (makedirs w); [|reflexivity].
  rewrite build_loop. simpl.
  rewrite combine_enumerated, map_map. simpl.
  destruct (filter survives chunks); reflexivity.
Qed.

(** The build raises "No valid text chunks provided" when no chunk
    survives; an exception of [os.makedirs] or of FAISS is passed on as it
    is; and when the build returns, FAISS has accepted the stored
    documents, of which there is at least one. *)
Theorem build_vector_store_outcome (w : env) (chunks : list chunk_dict) :
  (forall e, makedirs w = Raise e -> QaEngine.build_vector_store w chunks = Raise e)
  /\ (forall u, makedirs w = Return u -> filter survives chunks = [] ->
        QaEngine.build_vector_store w chunks =
        Raise (ValueError "No valid text chunks provided"))
  /\ (forall u e, makedirs w = Return u -> filter survives chunks <> [] ->
        faiss_save w (stored_documents chunks) = Raise e ->
        QaEngine.build_vector_store w chunks = Raise e)
  /\ (forall docs, QaEngine.build_vector_store w chunks = Return docs ->
        docs = stored_documents chunks /\ docs <> []
        /\ exists u, faiss_save w docs = Return u).
Proof.
  rewrite build_vector_store_cases. split; [|split; [|split]].
  - intros e ->. reflexivity.
  - intros u -> ->. reflexivity.
  - intros u e -> Hsome ->. destruct (filter survives chunks); [contradiction | reflexivity].
  - intros docs. destruct (makedirs w); [|discriminate].
    unfold stored_documents.
    destruct (filter survives chunks) as [|c0 rest] eqn:Hs; [discriminate|].
    destruct (faiss_save w _) as [u|e] eqn:Hsave; [|discriminate].
    intros H. injection H as <-.
    split; [reflexivity|]. split; [discriminate | now exists u].
Qed.

Lemma retrieval_docs (w : env) (query : string) (k : nat) (t : trace) :
  exists docs,
    QaEngine.retrieve_relevant_chunks w query k t = (Return docs, t)
    /\ (index_exists w = false -> docs = []).
Proof.
  unfold QaEngine.retrieve_relevant_chunks, try_except, bind, lift, ret.
  rewrite load_vector_store_cases.
  destruct (index_exists w).
  - destruct (faiss_load w) as [vs|e]; [|exists []; split; [reflexivity | discriminate]].
    destruct (vs query k); eexists; (split; [reflexivity | discriminate]).
  - exists []. split; reflexivity.
Qed.

(** ** The outcomes of the answer operation *)

Lemma answer_attempt_cases (w : env) (query : string) (docs : list Document)
    (prompt : string) (attempt : nat) (t : trace) :
  exists o,
    QaEngine.answer_attempt w query docs (QaEngine.build_context docs) prompt attempt t
    = (o, t ++ [prompt])
    /\ forall res, o = Return (Some res) -> attempt_outcome query docs res.
Proof.
  unfold QaEngine.answer_attempt, try_except, bind, invoke, ret, raise.
  destruct (llm_invoke w (length t) prompt) as [response|e].
  - destruct (truthy response && truthy (strip response)) eqn:Hok.
    + apply andb_true_iff in Hok. destruct Hok as [_ Hstrip].
      apply truthy_not_blank in Hstrip.
      destruct (QaEngine.is_response_grounded response (QaEngine.build_context docs))
        eqn:Hg; eexists; (split; [reflexivity|]); intros res H; injection H as <-.
      * now apply attempt_gives_grounded.
      * apply attempt_gives_fallback.
    + eexists. split; [reflexivity|]. discriminate.
  - destruct (attempt <? QaEngine.max_retries - 1); eexists;
      (split; [reflexivity|]); discriminate.
Qed.

Lemma answer_attempts_cases (w : env) (query : string) (docs : list Document)
    (prompt : string) (attempts : list nat) (t : trace) :
  exists o added,
    QaEngine.answer_attempts w query docs (QaEngine.build_context docs) prompt attempts t
    = (o, t ++ added)
    /\ length added <= length attempts
    /\ forall res, o = Return res -> attempt_outcome query docs res.
Proof.
  revert t. induction attempts as [|attempt rest IH]; intros t.
  - exists (Return (QaEngine.generate_fallback_answer query docs)), [].
    rewrite app_nil_r. split; [reflexivity|]. split; [apply Nat.le_refl|].
    intros res H. injection H as <-. apply attempt_gives_fallback.
  - cbn [QaEngine.answer_attempts]. unfold bind.
    destruct (answer_attempt_cases w query docs prompt attempt t) as [o [Hrun Ho]].
    rewrite Hrun. destruct o as [[res|]|e].
    + exists (Return res), [prompt]. split; [reflexivity|]. split; [simpl; lia|].
      intros res' H. injection H as <-. now apply Ho.
    + destruct (IH (t ++ [prompt])) as [o' [added [Hrun' [Hlen Ho']]]].
      exists o', (prompt :: added). rewrite Hrun', <- app_assoc.
      split; [reflexivity|]. split; [simpl; lia | exact Ho'].
    + exists (Raise e), [prompt]. split; [reflexivity|]. split; [simpl; lia|].
      discriminate.
Qed.

(** [get_llm] of the answer module sends the probe or nothing. *)
Lemma qa_get_llm_trace (w : env) (t : trace) :
  exists o added,
    QaEngine.get_llm w t = (o, t ++ added)
    /\ length added <= 1
    /\ (has_token w = false -> added = [] /\ exists e, o = Raise e).
Proof.
  unfold QaEngine.get_llm, try_except, bind, raise, lift, ret, invoke.
  destruct (has_token w); simpl.
  - destruct (endpoint_init w) as [u|e].
    + destruct (llm_invoke w (length t) "Test") as [r|e].
      * destruct (truthy r && truthy (strip r)); eexists; exists ["Test"];
          (split; [reflexivity|]); (split; [simpl; lia | discriminate]).
      * eexists. exists ["Test"].
        split; [reflexivity|]. split; [simpl; lia | discriminate].
    + eexists. exists []. rewrite app_nil_r.
      split; [reflexivity|]. split; [simpl; lia | discriminate].
  - eexists. exists []. rewrite app_nil_r.
    split; [reflexivity|]. split; [simpl; lia|].
    intros _. split; [reflexivity | eexists; reflexivity].
Qed.

(** The answer operation always returns one of its six outcomes, after
    at most four prompts to the model: the probe and three attempts. *)
Lemma answer_outcome_total (w : env) (query : string) (k : nat) (t : trace) :
  exists res added,
    QaEngine.generate_answer_with_sources w query k t = (Return res, t ++ added)
    /\ length added <= 4
    /\ answer_outcome w query k res
    /\ (has_token w = false -> added = []).
Proof.
  unfold QaEngine.generate_answer_with_sources, try_except, bind, lift, ret.
  rewrite load_vector_store_cases.
  destruct (index_exists w) eqn:Hidx.
  2:{ eexists. exists []. rewrite app_nil_r.
      split; [reflexivity|]. split; [simpl; lia|]. split; [now constructor | reflexivity]. }
  destruct (faiss_load w) as [vs|e] eqn:Hload.
  2:{ eexists. exists []. rewrite app_nil_r.
      split; [reflexivity|]. split; [simpl; lia|].
      split; [now apply outcome_load_failed | reflexivity]. }
  destruct (vs query k) as [docs|e] eqn:Hsearch.
  2:{ eexists. exists []. rewrite app_nil_r.
      split; [reflexivity|]. split; [simpl; lia|].
      split; [now apply outcome_search_failed with vs | reflexivity]. }
  destruct docs as [|d0 docs].
  { eexists. exists []. rewrite app_nil_r.
    split; [reflexivity|]. split; [simpl; lia|].
    split; [now apply outcome_nothing_found with vs | reflexivity]. }
  set (found := d0 :: docs) in *.
  assert (Hfound : found <> []) by discriminate.
  destruct (qa_get_llm_trace w t) as [o [probe [Hllm [Hprobe Hno]]]]. rewrite Hllm.
  destruct o as [u|e].
  - destruct (answer_attempts_cases w query found
                (QaEngine.build_prompt (QaEngine.build_context found) query)
                (range QaEngine.max_retries 1) (t ++ probe))
      as [o [added [Hrun [Hlen Ho]]]].
    rewrite Hrun. change (length (range QaEngine.max_retries 1)) with 3 in Hlen.
    destruct o as [res|e].
    + exists res, (probe ++ added). rewrite app_assoc.
      split; [reflexivity|]. split; [rewrite length_app; lia|]. split.
      * destruct (Ho res eq_refl).
        -- now apply outcome_fallback with vs.
        -- now apply outcome_grounded with vs.
      * intros Hfalse. destruct (Hno Hfalse) as [_ [e He]]. discriminate.
    + exists (QaEngine.generate_fallback_answer query found), (probe ++ added).
      rewrite app_assoc.
      split; [reflexivity|]. split; [rewrite length_app; lia|]. split.
      * now apply outcome_fallback with vs.
      * intros Hfalse. destruct (Hno Hfalse) as [_ [e' He]]. discriminate.
  - exists (QaEngine.generate_fallback_answer query found), probe.
    split; [reflexivity|]. split; [simpl; lia|]. split.
    + now apply outcome_fallback with vs.
    + intros Hfalse. now destruct (Hno Hfalse).
Qed.

Lemma fallback_answer_medium (query : string) (docs : list Document) :
  docs <> [] ->
  QaEngine.confidence (QaEngine.generate_fallback_answer query docs) = "medium"
  /\ QaEngine.sources (QaEngine.generate_fallback_answer query docs)
     = map QaEngine.document_to_dict docs.
Proof.
  destruct docs; [contradiction|]. intros _. split; reflexivity.
Qed.

(** Asking never raises: a result comes back whatever the index, the
    search and the model do, after at most four prompts to the model (the
    probe and three attempts).  Its confidence is one of "low", "medium",
    "high" and "error", and it has no sources exactly when the confidence
    is "low" or "error". *)
Theorem answer_always_returns (w : env) (query : string) (k : nat) (t : trace) :
  exists res added,
    QaEngine.generate_answer_with_sources w query k t = (Return res, t ++ added)
    /\ length added <= 4
    /\ In (QaEngine.confidence res) [ "low"; "medium"; "high"; "error" ]
    /\ (QaEngine.sources res = [] <->
        QaEngine.confidence res = "low" \/ QaEngine.confidence res = "error").
Proof.
  destruct (answer_outcome_total w query k t) as [res [added [Hrun [Hlen [Hout _]]]]].
  exists res, added. split; [exact Hrun|]. split; [exact Hlen|].
  destruct Hout as [ | | | | vs docs ? ? ? Hdocs | vs docs response ? ? ? Hdocs ? ?].
  1-4: simpl; split; [tauto | split; [intros _; tauto | reflexivity]].
  - destruct (fallback_answer_medium query docs Hdocs) as [-> ->].
    split; [simpl; tauto|]. split.
    + intros Hnil. destruct docs; [contradiction | discriminate].
    + intros [Hc | Hc]; discriminate.
  - simpl. split; [tauto|]. split.
    + intros Hnil. destruct docs; [contradiction | discriminate].
    + intros [Hc | Hc]; discriminate.
Qed.






(** Without a token the model is never called: with chunks retrieved, the
    answer is the extract-based fallback, of confidence "medium", whose
    sources are all the retrieved chunks. *)
Theorem answer_without_token (w : env) (query : string) (k : nat) (t : trace)
    (vs : vector_store) (docs : list Document) :
  has_token w = false ->
  index_exists w = true -> faiss_load w = Return vs -> vs query k = Return docs ->
  docs <> [] ->
  QaEngine.generate_answer_with_sources w query k t =
    (Return (QaEngine.generate_fallback_answer query docs), t)
  /\ QaEngine.confidence (QaEngine.generate_fallback_answer query docs) = "medium"
  /\ QaEngine.sources (QaEngine.generate_fallback_answer query docs)
     = map QaEngine.document_to_dict docs.
Proof.
  intros Htoken Hidx Hload Hsearch Hdocs.
  split; [|now apply fallback_answer_medium].
  unfold QaEngine.generate_answer_with_sources, QaEngine.load_vector_store,
    QaEngine.get_llm, try_except, bind, lift, raise, ret.
  rewrite Hidx, Hload. simpl. rewrite Hsearch, Htoken.
  destruct docs; [contradiction | reflexivity].
Qed.

Lemma answer_without_token_witness :
  QaEngine.generate_answer_with_sources
    (mk_env None (Return tt) (fun _ _ => Return "unused") (fun text => Return [text])
       (fun _ => Raise (Exception "not a PDF")) (Return tt) true
       (Return (fun _ k => Return (firstn k [Samples.doc "Introduction" 1 1 "Some text."])))
       (fun _ => Return tt) (fun names => names))
    "What is it?" 5 [] =
    (Return (QaEngine.generate_fallback_answer "What is it?"
               [Samples.doc "Introduction" 1 1 "Some text."]), [])
  /\ QaEngine.confidence (QaEngine.generate_fallback_answer "What is it?"
                            [Samples.doc "Introduction" 1 1 "Some text."]) = "medium"
  /\ QaEngine.sources (QaEngine.generate_fallback_answer "What is it?"
                         [Samples.doc "Introduction" 1 1 "Some text."])
     = map QaEngine.document_to_dict [Samples.doc "Introduction" 1 1 "Some text."].
Proof.
  apply (answer_without_token
           (mk_env None (Return tt) (fun _ _ => Return "unused") (fun text => Return [text])
              (fun _ => Raise (Exception "not a PDF")) (Return tt) true
              (Return (fun _ k => Return (firstn k [Samples.doc "Introduction" 1 1 "Some text."])))
              (fun _ => Return tt) (fun names => names))
           "What is it?" 5 []
           (fun _ k => Return (firstn k [Samples.doc "Introduction" 1 1 "Some text."])));
    try reflexivity.
  discriminate.
Defined.

(** The model handle of the answer module is returned only after the
    model has answered the probe prompt "Test" with a text that is not
    blank; every failure, a missing token, a failing endpoint or a failing
    or blank probe, is a [ValueError] with one of two fixed messages. *)
Theorem answer_model_is_probed (w : env) (t t' : trace) (o : outcome unit) :
  QaEngine.get_llm w t = (o, t') ->
  (forall u, o = Return u ->
     has_token w = true /\ t' = t ++ ["Test"]
     /\ exists r, llm_invoke w (length t) "Test" = Return r /\ strip r <> "")
  /\ (forall e, o = Raise e ->
        e = ValueError "HF_TOKEN environment variable is required"
        \/ e = ValueError "Failed to initialize any LLM model").
Proof.
  unfold QaEngine.get_llm, try_except, bind, raise, lift, ret, invoke.
  destruct (has_token w); simpl.
  - destruct (endpoint_init w) as [u0|e0].
    + destruct (llm_invoke w (length t) "Test") as [r|e0] eqn:Hprobe.
      * destruct (truthy r && truthy (strip r)) eqn:Hok; intros H;
          injection H as <- <-; (split; [|intros e He; inversion He; tauto]).
        -- intros u _. split; [reflexivity|]. split; [reflexivity|].
           exists r. split; [reflexivity|].
           apply andb_true_iff in Hok. now apply truthy_not_blank.
        -- discriminate.
      * intros H. injection H as <- <-.
        split; [discriminate | intros e He; inversion He; tauto].
    + intros H. injection H as <- <-.
      split; [discriminate | intros e He; inversion He; tauto].
  - intros H. injection H as <- <-.
    split; [discriminate | intros e He; inversion He; tauto].
Qed.

Lemma answer_model_is_probed_witness :
  has_token (Samples.indexed [] "ready") = true
  /\ [ "Test" ] = [] ++ [ "Test" ]
  /\ exists r, llm_invoke (Samples.indexed [] "ready") (length (@nil string)) "Test"
               = Return r /\ strip r <> "".
Proof.
  destruct (answer_model_is_probed (Samples.indexed [] "ready") [] [ "Test" ] (Return tt))
    as [Hok _].
  - reflexivity.
  - apply (Hok tt). reflexivity.
Defined.

(** ** Bounds on what is built from the chunks *)

Lemma length_append (a b : string) :
  String.length (a +++ b) = String.length a + String.length b.
Proof. induction a as [|c a IH]; simpl; [reflexivity | now rewrite IH]. Qed.

Lemma len_take (n : nat) (s : string) : len (take n s) <= n.
Proof. unfold len, take. rewrite length_substring. lia. Qed.

Lemma len_capped (limit : nat) (s : string) :
  len (if limit <? len s then take limit s +++ "..." else s) <= limit + 3.
Proof.
  destruct (limit <? len s) eqn:Hlong.
  - unfold len at 1. rewrite length_append. pose proof (len_take limit s) as Ht.
    unfold len in Ht. simpl. lia.
  - apply Nat.ltb_ge in Hlong. lia.
Qed.

(** However many chunks are retrieved and however long they are, the
    context of the answer prompt has at most 2003 characters, the context
    of the evaluation prompt at most 1803, and the fallback answer at most
    503. *)
Theorem contexts_are_bounded (query : string) (docs : list Document) :
  len (QaEngine.build_context docs) <= 2003
  /\ len (LogicQuiz.evaluation_context docs) <= 1803
  /\ len (QaEngine.answer (QaEngine.generate_fallback_answer query docs)) <= 503.
Proof.
  split; [|split].
  - unfold QaEngine.build_context. apply (len_capped 2000).
  - unfold LogicQuiz.evaluation_context. apply (len_capped 1800).
  - unfold QaEngine.generate_fallback_answer.
    destruct docs as [|d0 docs]; [vm_compute; lia|].
    cbn [QaEngine.answer]. apply (len_capped 500).
Qed.

(** ** What the index stores *)

Lemma map_fst_enumerate_from {A : Type} (l : list A) (start : nat) :
  map fst (enumerate_from start l) = seq start (length l).
Proof.
  revert start. induction l as [|x l IH]; intros start; simpl;
    [reflexivity | now rewrite IH].
Qed.

Lemma length_enumerate_from {A : Type} (l : list A) (start : nat) :
  length (enumerate_from start l) = length l.
Proof.
  rewrite <- (length_map fst), map_fst_enumerate_from. apply length_seq.
Qed.

Lemma NoDup_map_Some {A : Type} (l : list A) :
  NoDup l -> NoDup (map Some l).
Proof.
  induction 1 as [|x l Hx Hl IH]; simpl; constructor; [|assumption].
  intros Hin. apply in_map_iff in Hin. destruct Hin as [y [Hy Hin]].
  injection Hy as ->. contradiction.
Qed.

Lemma survives_nonblank (c : chunk_dict) :
  survives c = true -> strip (text_of c) <> "".
Proof.
  unfold survives, text_of. destruct (c_text c) as [text|]; [|discriminate].
  intros H. apply andb_true_iff in H. simpl. now apply truthy_not_blank.
Qed.

(** There is one stored document for each surviving chunk, in order, and
    every stored document has a text that is not blank and a complete
    metadata dict: the chunk's section, or "Unknown" when the chunk has
    none, its paragraph, or 0 when it has none, and a [chunk_id].  The
    identifiers are the numbers from 1 to the number of stored documents,
    in order, so no two documents share one. *)
Theorem stored_documents_are_complete (w : env) (chunks : list chunk_dict)
    (docs : list Document) :
  QaEngine.build_vector_store w chunks = Return docs ->
  docs <> []
  /\ map (fun d => md_chunk_id (doc_metadata d)) docs = map Some (seq 1 (length docs))
  /\ NoDup (map (fun d => md_chunk_id (doc_metadata d)) docs)
  /\ (forall i c,
        nth_error (filter survives chunks) i = Some c ->
        exists d,
          nth_error docs i = Some d
          /\ strip (page_content d) <> ""
          /\ md_section (doc_metadata d) =
             Some (match c_section c with Some s => s | None => "Unknown" end)
          /\ md_paragraph (doc_metadata d) =
             Some (match c_paragraph c with Some p => p | None => 0 end))
  /\ length docs = length (filter survives chunks).
Proof.
  intros Hbuild.
  assert (Hne : docs <> []).
  { rewrite build_vector_store_cases in Hbuild.
    destruct (makedirs w); [|discriminate].
    unfold stored_documents in Hbuild.
    destruct (filter survives chunks); [discriminate|].
    destruct (faiss_save w _); [|discriminate].
    injection Hbuild as <-. discriminate. }
  apply build_vector_store_docs in Hbuild. subst docs.
  assert (Hids : map (fun d => md_chunk_id (doc_metadata d))
                   (map (fun ic => mk_document (text_of (snd ic))
                                     (stored_metadata (snd ic) (fst ic)))
                        (enumerate_from 1 (filter survives chunks)))
                 = map Some (seq 1 (length (filter survives chunks)))).
  { rewrite map_map. simpl. rewrite <- map_fst_enumerate_from, map_map. reflexivity. }
  split; [exact Hne|]. split; [|split; [|split]].
  - rewrite Hids. now rewrite length_map, length_enumerate_from.
  - rewrite Hids. apply NoDup_map_Some, seq_NoDup.
  - intros i c Hc. eexists. split.
    + rewrite nth_error_map, nth_error_enumerate_from, Hc. reflexivity.
    + simpl. split; [|split; reflexivity].
      apply survives_nonblank.
      assert (Hin : In c (filter survives chunks))
        by (eapply nth_error_In; eassumption).
      apply filter_In in Hin. tauto.
  - now rewrite length_map, length_enumerate_from.
Qed.

Lemma stored_documents_are_complete_witness :
  [ mk_document "alpha" (mk_metadata (Some "Unknown") (Some 0) (Some 1)) ] <> []
  /\ map (fun d => md_chunk_id (doc_metadata d))
         [ mk_document "alpha" (mk_metadata (Some "Unknown") (Some 0) (Some 1)) ]
     = map Some (seq 1 1).
Proof.
  destruct (stored_documents_are_complete Samples.fresh
              [ mk_chunk None None (Some "alpha") None; mk_chunk (Some "A") (Some 1) None None ]
              [ mk_document "alpha" (mk_metadata (Some "Unknown") (Some 0) (Some 1)) ])
    as [Hne [Hids _]].
  - reflexivity.
  - split; [exact Hne | exact Hids].
Defined.

(** ** From processing to the index *)

(** The result of a run of [process_document_with] that returned. *)
Lemma process_document_result (w : env) (chunker : string -> outcome (list string))
    (f : file) (t t' : trace) (res : Processor.result) :
  Processor.process_document_with w chunker f t = (Return res, t') ->
  exists text,
    Processor.extract_text w f = Return text
    /\ Processor.r_chunks res =
       flat_map (fun kv => numbered (fst kv) (pieces_of chunker (snd kv)))
                (Processor.split_into_sections text)
    /\ Processor.total_chunks (Processor.r_stats res) = length (Processor.r_chunks res).
Proof.
  intros Hrun.
  unfold Processor.process_document_with, bind at 1, lift in Hrun.
  destruct (Processor.extract_text w f) as [text|e]; [|discriminate].
  exists text. split; [reflexivity|].
  pose proof (chunk_loop_chunks chunker (Processor.split_into_sections text) [] [])
    as Hchunks.
  destruct (Processor.split_into_sections text) as [|kv0 raw]; [discriminate|].
  destruct (fold_left (Processor.chunk_step chunker) (kv0 :: raw) ([], []))
    as [sections chunks].
  destruct chunks as [|c0 chunks]; [discriminate|].
  unfold bind in Hrun.
  destruct (generate_summary_returns w (kv0 :: raw) t) as [summary [t1 Hsum]].
  rewrite Hsum in Hrun. unfold ret in Hrun.
  injection Hrun as <- _. cbn [Processor.r_chunks Processor.r_stats
    Processor.total_chunks snd] in *.
  split; [exact Hchunks | reflexivity].
Qed.

Lemma enumerate_from_In {A : Type} (l : list A) (start i : nat) (x : A) :
  In (i, x) (enumerate_from start l) -> In x l.
Proof.
  revert start. induction l as [|y l IH]; intros start; simpl; [intros []|].
  intros [H | H]; [injection H as _ ->; now left | right; eapply IH; eassumption].
Qed.

Lemma numbered_In (sec_name : string) (pieces : list string) (c : chunk_dict) :
  In c (numbered sec_name pieces) ->
  exists p piece,
    c = mk_chunk (Some sec_name) (Some p) (Some piece) None /\ In piece pieces.
Proof.
  unfold numbered, enumerate. intros Hin. apply in_map_iff in Hin.
  destruct Hin as [[i piece] [<- Hin]]. exists (i + 1), piece.
  split; [reflexivity|]. eapply enumerate_from_In; eassumption.
Qed.

Lemma filter_all {A : Type} (p : A -> bool) (l : list A) :
  (forall x, In x l -> p x = true) -> filter p l = l.
Proof.
  induction l as [|x l IH]; intros Hall; simpl; [reflexivity|].
  rewrite (Hall x (or_introl eq_refl)). f_equal. apply IH.
  intros y Hy. apply Hall. now right.
Qed.

(** When the splitter does not raise, processing and indexing agree:
    building the index from the chunks of a processed document discards
    none of them, so the index holds one document per chunk, in the order
    of the chunk list, with the chunk's text, section and paragraph, and
    with the chunk's position counted from 1 as [chunk_id]. *)
Theorem processed_chunks_are_indexed (w : env) (f : file) (t t' : trace)
    (res : Processor.result) (docs : list Document) :
  (forall s, exists pieces, split_text w s = Return pieces) ->
  Processor.process_document w f t = (Return res, t') ->
  QaEngine.build_vector_store w (Processor.r_chunks res) = Return docs ->
  length docs = Processor.total_chunks (Processor.r_stats res)
  /\ forall i c,
       nth_error (Processor.r_chunks res) i = Some c ->
       exists d,
         nth_error docs i = Some d
         /\ Some (page_content d) = c_text c
         /\ md_section (doc_metadata d) = c_section c
         /\ md_paragraph (doc_metadata d) = c_paragraph c
         /\ md_chunk_id (doc_metadata d) = Some (i + 1).
Proof.
  intros Hsplit Hrun Hbuild.
  destruct (process_document_result _ _ _ _ _ _ Hrun) as [text [_ [Hchunks Htotal]]].
  assert (Hshape : forall c, In c (Processor.r_chunks res) ->
            exists name p piece,
              c = mk_chunk (Some name) (Some p) (Some piece) None
              /\ 30 < len (strip piece)).
  { intros c Hc. rewrite Hchunks in Hc. apply in_flat_map in Hc.
    destruct Hc as [[name sec_text] [_ Hc]]. simpl in Hc.
    apply numbered_In in Hc. destruct Hc as [p [piece [-> Hpiece]]].
    exists name, p, piece. split; [reflexivity|].
    unfold pieces_of in Hpiece.
    destruct (Hsplit sec_text) as [pieces Hpieces].
    unfold Processor.chunk_section in Hpiece. rewrite Hpieces in Hpiece.
    destruct (negb (truthy (strip sec_text))); [destruct Hpiece|].
    apply filter_In in Hpiece. destruct Hpiece as [_ Hlen].
    now apply Nat.ltb_lt in Hlen. }
  assert (Hall : filter survives (Processor.r_chunks res) = Processor.r_chunks res).
  { apply filter_all. intros c Hc.
    destruct (Hshape c Hc) as [name [p [piece [-> Hlen]]]].
    unfold survives. simpl.
    assert (Hs : strip piece <> "") by (intros H; rewrite H in Hlen; simpl in Hlen; lia).
    apply truthy_not_blank in Hs. rewrite Hs, andb_true_r.
    destruct piece; [discriminate Hs | reflexivity]. }
  apply build_vector_store_docs in Hbuild. rewrite Hall in Hbuild. subst docs.
  split.
  - now rewrite Htotal, length_map, length_enumerate_from.
  - intros i c Hc. eexists. split.
    + rewrite nth_error_map, nth_error_enumerate_from, Hc. reflexivity.
    + destruct (Hshape c (nth_error_In _ _ Hc)) as [name [p [piece [-> _]]]].
      simpl. repeat split. f_equal. lia.
Qed.

Lemma processed_chunks_are_indexed_witness :
  length [ Samples.doc "Conclusion" 1 1 "This conclusion is long enough to pass the filter." ]
  = 1
  /\ forall i c,
       nth_error [ mk_chunk (Some "Conclusion") (Some 1)
                     (Some "This conclusion is long enough to pass the filter.") None ] i
       = Some c ->
       exists d,
         nth_error [ Samples.doc "Conclusion" 1 1
                       "This conclusion is long enough to pass the filter." ] i = Some d
         /\ Some (page_content d) = c_text c
         /\ md_section (doc_metadata d) = c_section c
         /\ md_paragraph (doc_metadata d) = c_paragraph c
         /\ md_chunk_id (doc_metadata d) = Some (i + 1).
Proof.
  apply (processed_chunks_are_indexed Samples.fresh two_section_file [] []
           (Processor.mk_result
              [ "Introduction"; "Conclusion" ]
              [ mk_chunk (Some "Conclusion") (Some 1)
                  (Some "This conclusion is long enough to pass the filter.") None ]
              ("Document Summary:" +++ nl +++
               "Conclusion: This conclusion is long enough to pass the filter.")
              (Processor.mk_stats 1 2 80))).
  - intros s. now exists [s].
  - vm_compute. reflexivity.
  - vm_compute. reflexivity.
Defined.

(** ** Fallback questions *)

Lemma In_firstn {A : Type} (n : nat) (l : list A) (x : A) :
  In x (firstn n l) -> In x l.
Proof.
  revert l. induction n as [|n IH]; intros l; [intros []|].
  destruct l as [|y l]; simpl; [intros [] |].
  intros [H | H]; [now left | right; now apply IH].
Qed.

Lemma substring_append_skip (a b : string) (i m : nat) :
  substring (String.length a + i) m (a +++ b) = substring i m b.
Proof. induction a as [|c a IH]; simpl; [reflexivity | exact IH]. Qed.

Lemma endswith_append (suf a b : string) :
  endswith suf b = true -> endswith suf (a +++ b) = true.
Proof.
  unfold endswith, len. intros H. apply andb_true_iff in H. destruct H as [Hlen Heq].
  apply Nat.leb_le in Hlen. rewrite length_append. apply andb_true_iff. split.
  - apply Nat.leb_le. lia.
  - replace (String.length a + String.length b - String.length suf)
      with (String.length a + (String.length b - String.length suf)) by lia.
    now rewrite substring_append_skip.
Qed.

Lemma fallback_questions_marked (w : env) (doc_chunks : list LogicQuiz.chunk)
    (num : nat) (q : string) :
  In q (LogicQuiz.generate_fallback_questions w doc_chunks num) ->
  endswith "?" q = true.
Proof.
  unfold LogicQuiz.generate_fallback_questions.
  assert (Hfixed : forall x, In x LogicQuiz.fallback_questions -> endswith "?" x = true).
  { intros x Hx. vm_compute in Hx.
    repeat (destruct Hx as [<- | Hx]; [vm_compute; reflexivity|]). destruct Hx. }
  destruct doc_chunks as [|c rest].
  - intros Hin. apply In_firstn in Hin. vm_compute in Hin.
    repeat (destruct Hin as [<- | Hin]; [vm_compute; reflexivity|]). destruct Hin.
  - destruct (fold_left LogicQuiz.structure_step _ _) as [sections key_terms].
    intros Hin. apply In_firstn in Hin.
    apply in_app_iff in Hin. destruct Hin as [Hin | Hin]; [|now apply Hfixed].
    assert (Hsec : forall x,
              In x (if 1 <? length sections
                    then [ "How do the different sections (" +++
                           join ", " (firstn 3 (set_order w sections)) +++
                           ") relate to each other?" ]
                    else []) -> endswith "?" x = true).
    { intros x Hx. destruct (1 <? length sections); [|destruct Hx].
      destruct Hx as [<- | []]. rewrite <- append_assoc.
      apply endswith_append. reflexivity. }
    destruct key_terms; [now apply Hsec|].
    apply in_app_iff in Hin. destruct Hin as [Hin | [<- | []]];
      [now apply Hsec | reflexivity].
Qed.

Lemma fallback_questions_count_cases (w : env) (doc_chunks : list LogicQuiz.chunk)
    (num : nat) :
  length (LogicQuiz.generate_fallback_questions w doc_chunks num) <= num
  /\ (doc_chunks = [] ->
      length (LogicQuiz.generate_fallback_questions w doc_chunks num) = Nat.min num 3)
  /\ (doc_chunks <> [] -> num <= 5 ->
      length (LogicQuiz.generate_fallback_questions w doc_chunks num) = num).
Proof.
  unfold LogicQuiz.generate_fallback_questions.
  destruct doc_chunks as [|c rest].
  - rewrite length_firstn. simpl length.
    split; [lia|]. split; [reflexivity | contradiction].
  - destruct (fold_left LogicQuiz.structure_step _ _) as [sections key_terms].
    rewrite length_firstn. split; [lia|]. split; [discriminate|].
    intros _ Hnum. rewrite length_app.
    change (length LogicQuiz.fallback_questions) with 5. lia.
Qed.

(** The number of fallback questions: with no chunk at all there are only
    three to give, so asking for more gives three; with at least one chunk
    up to five questions are always available, so asking for at most five
    gives exactly as many.  Never more than were asked for. *)
Theorem fallback_questions_length (w : env) (doc_chunks : list LogicQuiz.chunk)
    (num : nat) :
  length (LogicQuiz.generate_fallback_questions w doc_chunks num) <= num
  /\ (doc_chunks = [] ->
      length (LogicQuiz.generate_fallback_questions w doc_chunks num) = Nat.min num 3)
  /\ (doc_chunks <> [] -> num <= 5 ->
      length (LogicQuiz.generate_fallback_questions w doc_chunks num) = num).
Proof.
  destruct (fallback_questions_count_cases w doc_chunks num) as [Hle [Hnone Hsome]].
  split; [exact Hle|]. split; [exact Hnone | exact Hsome].
Qed.

Lemma fallback_questions_length_witness :
  length (LogicQuiz.generate_fallback_questions Samples.fresh [] 7) = Nat.min 7 3
  /\ length (LogicQuiz.generate_fallback_questions Samples.fresh
               [LogicQuiz.Dict (Samples.dict "Introduction" 1 "The only chunk.")] 5) = 5.
Proof.
  split.
  - apply (fallback_questions_length Samples.fresh [] 7). reflexivity.
  - apply (fallback_questions_length Samples.fresh
             [LogicQuiz.Dict (Samples.dict "Introduction" 1 "The only chunk.")] 5);
      [discriminate | lia].
Defined.

(** ** Parsed questions *)

Lemma valid_question_facts (question : string) (doc_chunks : list chunk_dict) :
  LogicQuiz.is_valid_question question doc_chunks = true ->
  10 <= len question
  /\ endswith "?" question = true
  /\ (forall pattern, In pattern LogicQuiz.invalid_patterns ->
        Re.re_search pattern (lower question) = None)
  /\ 2 < LogicQuiz.overlap (lower question)
           (lower (join " " (map (fun c => LogicQuiz.get_or (c_text c) "")
                                 (firstn 5 doc_chunks)))).
Proof.
  unfold LogicQuiz.is_valid_question.
  destruct (negb (truthy question) || (len question <? 10)) eqn:Hshort;
    [intros H; discriminate H|].
  apply orb_false_iff in Hshort. destruct Hshort as [_ Hlen].
  apply Nat.ltb_ge in Hlen.
  destruct (endswith "?" question); cbv beta iota delta [negb];
    [|intros H; discriminate H].
  destruct (existsb (fun pattern => Re.is_some (Re.re_search pattern (lower question)))
              LogicQuiz.invalid_patterns) eqn:Hbad; [intros H; discriminate H|].
  intros Hov. apply Nat.ltb_lt in Hov.
  split; [assumption|]. split; [reflexivity|]. split; [|assumption].
  intros pattern Hin.
  assert (Hnone : Re.is_some (Re.re_search pattern (lower question)) = false).
  { destruct (Re.is_some (Re.re_search pattern (lower question))) eqn:Hs; [|reflexivity].
    rewrite <- Hbad. symmetry. apply existsb_exists. now exists pattern. }
  destruct (Re.re_search pattern (lower question)); [discriminate | reflexivity].
Qed.

Lemma parsed_questions_valid (response : string) (doc_chunks : list chunk_dict)
    (question : string) :
  In question (LogicQuiz.parse_and_validate_questions response doc_chunks) ->
  LogicQuiz.is_valid_question question doc_chunks = true.
Proof.
  unfold LogicQuiz.parse_and_validate_questions.
  generalize (split_on (ascii_of_nat 10) (strip response)). intros lines.
  assert (Hgen : forall acc,
            (forall q, In q acc -> LogicQuiz.is_valid_question q doc_chunks = true) ->
            forall q,
              In q (fold_left
                      (fun questions line =>
                         let line := strip line in
                         if negb (truthy line) then questions
                         else
                           match LogicQuiz.first_match LogicQuiz.question_patterns line with
                           | Some g =>
                               let question := strip g in
                               if LogicQuiz.is_valid_question question doc_chunks
                               then questions ++ [question] else questions
                           | None => questions
                           end) lines acc) ->
              LogicQuiz.is_valid_question q doc_chunks = true).
  { induction lines as [|line lines IH]; intros acc Hacc; cbn [fold_left];
      [exact Hacc|].
    apply IH. cbv beta zeta. destruct (negb (truthy (strip line))); [exact Hacc|].
    destruct (LogicQuiz.first_match LogicQuiz.question_patterns (strip line)) as [g|];
      [|exact Hacc].
    destruct (LogicQuiz.is_valid_question (strip g) doc_chunks) eqn:Hv; [|exact Hacc].
    intros q Hq. apply in_app_iff in Hq.
    destruct Hq as [Hq | [<- | []]]; [now apply Hacc | exact Hv]. }
  apply Hgen. intros q [].
Qed.

(** Whatever the model writes, every question parsed from its response
    passed validation: it has at least 10 characters, ends with a question
    mark, contains none of the five phrases that send the reader outside
    the document, and shares more than two words with the text of the
    first five chunks. *)
Theorem parsed_questions_are_valid (response : string) (doc_chunks : list chunk_dict)
    (question : string) :
  In question (LogicQuiz.parse_and_validate_questions response doc_chunks) ->
  10 <= len question
  /\ endswith "?" question = true
  /\ (forall pattern, In pattern LogicQuiz.invalid_patterns ->
        Re.re_search pattern (lower question) = None)
  /\ 2 < LogicQuiz.overlap (lower question)
           (lower (join " " (map (fun c => LogicQuiz.get_or (c_text c) "")
                                 (firstn 5 doc_chunks)))).
Proof.
  intros Hin. now apply valid_question_facts, parsed_questions_valid with response.
Qed.

Lemma parsed_questions_are_valid_witness :
  10 <= len "What is some introductory text about?"
  /\ endswith "?" "What is some introductory text about?" = true
  /\ (forall pattern, In pattern LogicQuiz.invalid_patterns ->
        Re.re_search pattern (lower "What is some introductory text about?") = None)
  /\ 2 < LogicQuiz.overlap (lower "What is some introductory text about?")
           (lower (join " " (map (fun c => LogicQuiz.get_or (c_text c) "")
                                 (firstn 5 [Samples.dict "Introduction" 1
                                              "Some introductory text about"])))).
Proof.
  apply (parsed_questions_are_valid
           (Samples.lines [ "Here are the questions:";
                            "1. What is some introductory text about?";
                            "2) Why look at external knowledge text some introductory?";
                            "- ?" ])
           [Samples.dict "Introduction" 1 "Some introductory text about"]).
  vm_compute. left. reflexivity.
Defined.

(** ** Selecting chunks for question generation *)

Lemma set_add_fresh (x : string) (s : list string) :
  mem x s = false -> set_add x s = s ++ [x].
Proof. unfold set_add. now intros ->. Qed.

Lemma select_step_invariant (input met : list chunk_dict)
    (acc : list chunk_dict * list string) (c : chunk_dict) :
  In c input ->
  select_invariant input met acc ->
  select_invariant input (met ++ [c]) (LogicQuiz.select_step acc c).
Proof.
  intros Hc [Hseen Hnd Hlen Hin Hcov]. unfold LogicQuiz.select_step.
  fold (section_or_unknown c).
  destruct (mem (section_or_unknown c) (snd acc)) eqn:Hmem; simpl.
  - constructor; try assumption.
    intros c' Hc'. apply in_app_iff in Hc'.
    destruct Hc' as [Hc' | [<- | []]]; [now apply Hcov|].
    left. now apply mem_In.
  - destruct (length (fst acc) <? 8) eqn:Hroom.
    + apply Nat.ltb_lt in Hroom. rewrite set_add_fresh by assumption.
      constructor; simpl.
      * rewrite map_app, Hseen. reflexivity.
      * apply NoDup_app; [assumption | repeat constructor; intros [] |].
        intros x Hx [<- | []]. apply mem_In in Hx. congruence.
      * rewrite length_app. simpl. lia.
      * intros c' Hc'. apply in_app_iff in Hc'.
        destruct Hc' as [Hc' | [<- | []]]; [now apply Hin | assumption].
      * intros c' Hc'. left. apply in_app_iff. apply in_app_iff in Hc'.
        destruct Hc' as [Hc' | [<- | []]]; [|right; now left].
        destruct (Hcov c' Hc') as [H | H]; [now left | lia].
    + apply Nat.ltb_ge in Hroom. constructor; try assumption.
      intros c' Hc'. right. lia.
Qed.

Lemma select_loop_invariant (input rest met : list chunk_dict)
    (acc : list chunk_dict * list string) :
  (forall c, In c rest -> In c input) ->
  select_invariant input met acc ->
  select_invariant input (met ++ rest) (fold_left LogicQuiz.select_step rest acc).
Proof.
  revert met acc. induction rest as [|c rest IH]; intros met acc Hrest Hacc; simpl.
  - now rewrite app_nil_r.
  - replace (met ++ c :: rest) with ((met ++ [c]) ++ rest)
      by (now rewrite <- app_assoc).
    apply IH; [intros c' Hc'; apply Hrest; now right|].
    apply select_step_invariant; [apply Hrest; now left | assumption].
Qed.

Lemma select_chunks_is_loop (processed : list chunk_dict) :
  LogicQuiz.select_chunks processed =
  fst (fold_left LogicQuiz.select_step processed ([], [])).
Proof.
  unfold LogicQuiz.select_chunks.
  destruct (fst (fold_left LogicQuiz.select_step processed ([], []))) eqn:Hsel;
    [|reflexivity].
  destruct processed as [|c rest]; [reflexivity|]. exfalso.
  pose proof (select_loop_invariant (c :: rest) (c :: rest) [] ([], [])
                (fun _ H => H)) as Hinv.
  destruct Hinv as [Hseen _ _ _ Hcov].
  - constructor; simpl; [reflexivity | constructor | lia | intros ? [] | intros ? []].
  - rewrite Hsel in *. simpl in *. rewrite Hseen in Hcov.
    destruct (Hcov c (or_introl eq_refl)) as [[] | H]. discriminate.
Qed.

(** The chunks selected for question generation: at most eight, taken
    from the chunk list, no two from the same section, and at least one
    whenever there is a chunk at all.  Every section of the document has a
    chunk among them unless eight sections were already represented. *)
Theorem selected_chunks_are_diverse (processed : list chunk_dict) :
  length (LogicQuiz.select_chunks processed) <= 8
  /\ NoDup (map section_or_unknown (LogicQuiz.select_chunks processed))
  /\ (forall c, In c (LogicQuiz.select_chunks processed) -> In c processed)
  /\ (processed <> [] -> LogicQuiz.select_chunks processed <> [])
  /\ (forall c, In c processed ->
        In (section_or_unknown c)
           (map section_or_unknown (LogicQuiz.select_chunks processed))
        \/ length (LogicQuiz.select_chunks processed) = 8).
Proof.
  rewrite select_chunks_is_loop.
  pose proof (select_loop_invariant processed processed [] ([], [])
                (fun _ H => H)) as Hinv.
  destruct Hinv as [Hseen Hnd Hlen Hin Hcov].
  { constructor; simpl; [reflexivity | constructor | lia | intros ? [] | intros ? []]. }
  simpl in Hcov. rewrite Hseen in Hnd, Hcov.
  split; [assumption|]. split; [assumption|]. split; [assumption|].
  split; [|assumption].
  intros Hne Hsel. destruct processed as [|c rest]; [contradiction|].
  rewrite Hsel in Hcov. destruct (Hcov c (or_introl eq_refl)) as [[] | H]. discriminate.
Qed.

Lemma selected_chunks_are_diverse_nonempty (processed : list chunk_dict) :
  processed <> [] -> LogicQuiz.select_chunks processed <> [].
Proof.
  intros Hne. rewrite select_chunks_is_loop. intros Hsel.
  destruct processed as [|c rest]; [contradiction|].
  pose proof (select_loop_invariant (c :: rest) (c :: rest) [] ([], [])
                (fun _ H => H)) as Hinv.
  destruct Hinv as [Hseen _ _ _ Hcov].
  - constructor; simpl; [reflexivity | constructor | lia | intros ? [] | intros ? []].
  - rewrite Hsel in *. simpl in *. rewrite Hseen in Hcov.
    destruct (Hcov c (or_introl eq_refl)) as [[] | H]. discriminate.
Qed.

(** ** Challenge questions, whatever the model does *)

Lemma fallback_well_formed (w : env) (doc_chunks : list LogicQuiz.chunk) (num : nat) :
  well_formed_questions num (doc_chunks <> [])
    (LogicQuiz.generate_fallback_questions w doc_chunks num).
Proof.
  destruct (fallback_questions_count_cases w doc_chunks num) as [Hle [_ Heq]].
  split; [|split; assumption].
  intros q. apply fallback_questions_marked.
Qed.

Lemma questions_attempt_cases (w : env) (selected : list chunk_dict)
    (prompt : string) (num attempt : nat) (t : trace) :
  exists o,
    LogicQuiz.questions_attempt w selected prompt num attempt t = (o, t ++ [prompt])
    /\ forall qs, o = Return (Some qs) ->
                  well_formed_questions num (selected <> []) qs.
Proof.
  unfold LogicQuiz.questions_attempt, try_except, bind, invoke, ret, raise,
    LogicQuiz.extract_text_from_response.
  destruct (llm_invoke w (length t) prompt) as [response|e].
  - destruct (truthy response && truthy (strip response)).
    + pose proof (parsed_questions_valid response selected) as Hvalid.
      destruct (num <=? length (LogicQuiz.parse_and_validate_questions response selected))
        eqn:Henough.
      * apply Nat.leb_le in Henough. eexists. split; [reflexivity|].
        intros qs H. injection H as <-. split; [|split].
        -- intros q Hq. apply In_firstn in Hq.
           now apply (valid_question_facts q selected), Hvalid.
        -- apply firstn_le_length.
        -- intros _ _. rewrite length_firstn. lia.
      * apply Nat.leb_gt in Henough.
        destruct (LogicQuiz.parse_and_validate_questions response selected)
          as [|q0 parsed] eqn:Hparsed.
        -- eexists. split; [reflexivity|]. discriminate.
        -- eexists. split; [reflexivity|].
           set (questions := q0 :: parsed) in *. clearbody questions.
           intros qs H. injection H as <-.
           destruct (fallback_well_formed w (map LogicQuiz.Dict selected)
                       (num - length questions)) as [Hmark [Hle Heq]].
           split; [|split].
           ++ intros q Hq. apply in_app_iff in Hq. destruct Hq as [Hq | Hq].
              ** now apply (valid_question_facts q selected), Hvalid.
              ** now apply Hmark.
           ++ rewrite length_app. lia.
           ++ intros Hsel Hnum. rewrite length_app, Heq; [lia | | lia].
              destruct selected; [contradiction | discriminate].
    + eexists. split; [reflexivity|]. discriminate.
  - destruct (attempt <? LogicQuiz.max_retries - 1); eexists;
      (split; [reflexivity|]); discriminate.
Qed.

Lemma questions_attempts_cases (w : env) (selected : list chunk_dict)
    (prompt : string) (num : nat) (attempts : list nat) (t : trace) :
  exists o added,
    LogicQuiz.questions_attempts w selected prompt num attempts t = (o, t ++ added)
    /\ length added <= length attempts
    /\ forall qs, o = Return qs -> well_formed_questions num (selected <> []) qs.
Proof.
  revert t. induction attempts as [|attempt rest IH]; intros t.
  - eexists. exists []. rewrite app_nil_r. split; [reflexivity|].
    split; [apply Nat.le_refl|]. intros qs H. injection H as <-.
    destruct (fallback_well_formed w (map LogicQuiz.Dict selected) num)
      as [Hmark [Hle Heq]].
    split; [assumption|]. split; [assumption|].
    intros Hsel. apply Heq. destruct selected; [contradiction | discriminate].
  - cbn [LogicQuiz.questions_attempts]. unfold bind.
    destruct (questions_attempt_cases w selected prompt num attempt t) as [o [Hrun Ho]].
    rewrite Hrun. destruct o as [[qs|]|e].
    + exists (Return qs), [prompt]. split; [reflexivity|]. split; [simpl; lia|].
      intros qs' H. injection H as <-. now apply Ho.
    + destruct (IH (t ++ [prompt])) as [o' [added [Hrun' [Hlen Ho']]]].
      exists o', (prompt :: added). rewrite Hrun', <- app_assoc.
      split; [reflexivity|]. split; [simpl; lia | exact Ho'].
    + exists (Raise e), [prompt]. split; [reflexivity|]. split; [simpl; lia|].
      discriminate.
Qed.

Lemma challenge_outcome (w : env) (doc_chunks : list LogicQuiz.chunk) (num : nat)
    (t : trace) :
  exists qs added,
    LogicQuiz.generate_challenge_questions w doc_chunks num t = (Return qs, t ++ added)
    /\ length added <= 3
    /\ well_formed_questions num (doc_chunks <> []) qs
    /\ (has_token w = false ->
        added = [] /\ qs = LogicQuiz.generate_fallback_questions w doc_chunks num).
Proof.
  unfold LogicQuiz.generate_challenge_questions, try_except, bind, ret.
  destruct (quiz_get_llm_cases w t) as [[Htoken [_ Hllm]] | [_ [e Hllm]]]; rewrite Hllm.
  - match goal with
    | |- context [LogicQuiz.questions_attempts w ?sel ?p num ?a t] =>
        destruct (questions_attempts_cases w sel p num a t)
          as [o [added [Hrun [Hlen Ho]]]]; rewrite Hrun
    end.
    change (length (range LogicQuiz.max_retries 1)) with 3 in Hlen.
    destruct o as [qs|e].
    + exists qs, added. split; [reflexivity|]. split; [assumption|]. split.
      * destruct (Ho qs eq_refl) as [Hmark [Hle Heq]].
        split; [assumption|]. split; [assumption|].
        intros Hchunks. apply Heq.
        apply (selected_chunks_are_diverse_nonempty (map LogicQuiz.document_to_dict doc_chunks)).
        destruct doc_chunks; [contradiction | discriminate].
      * intros Hno. congruence.
    + exists (LogicQuiz.generate_fallback_questions w doc_chunks num), added.
      split; [reflexivity|]. split; [assumption|].
      split; [apply fallback_well_formed | intros Hno; congruence].
  - exists (LogicQuiz.generate_fallback_questions w doc_chunks num), [].
    rewrite app_nil_r. split; [reflexivity|]. split; [simpl; lia|].
    split; [apply fallback_well_formed | intros _; now split].
Qed.

(** Question generation never raises, whatever the model answers or
    however it fails: it returns at most [num] questions after at most three
    prompts, exactly [num] when the chunk list is not empty and [num] is at
    most five, and without a token it returns the fallback questions
    without calling the model. *)
Theorem challenge_questions_always_returned (w : env)
    (doc_chunks : list LogicQuiz.chunk) (num : nat) (t : trace) :
  exists qs added,
    LogicQuiz.generate_challenge_questions w doc_chunks num t = (Return qs, t ++ added)
    /\ length added <= 3
    /\ length qs <= num
    /\ (doc_chunks <> [] -> num <= 5 -> length qs = num)
    /\ (has_token w = false ->
        added = [] /\ qs = LogicQuiz.generate_fallback_questions w doc_chunks num).
Proof.
  destruct (challenge_outcome w doc_chunks num t)
    as [qs [added [Hrun [Hlen [[_ [Hle Heq]] Hno]]]]].
  exists qs, added. repeat (split; [assumption|]). assumption.
Qed.

(** Every question handed out, parsed from the model or taken from the
    fallback, ends with a question mark. *)
Theorem challenge_questions_are_questions (w : env)
    (doc_chunks : list LogicQuiz.chunk) (num : nat) (t t' : trace) (qs : list string) :
  LogicQuiz.generate_challenge_questions w doc_chunks num t = (Return qs, t') ->
  forall q, In q qs -> endswith "?" q = true.
Proof.
  intros Hrun.
  destruct (challenge_outcome w doc_chunks num t)
    as [qs' [added [Hrun' [_ [[Hmark _] _]]]]].
  rewrite Hrun in Hrun'. injection Hrun' as <- _. exact Hmark.
Qed.

Lemma challenge_questions_are_questions_witness :
  endswith "?" "What is some introductory text about?" = true
  /\ endswith "?" "How do the different sections (Intro, Concl) relate to each other?"
     = true.
Proof.
  pose proof (challenge_questions_are_questions
                (Samples.indexed []
                   (Samples.lines [ "1. What is some introductory text about?";
                                    "2) Why external knowledge text some introductory?";
                                    "- ?"; "x" ]))
                [ LogicQuiz.Dict (Samples.dict "Intro" 1 "Some introductory text about");
                  LogicQuiz.Dict (Samples.dict "Concl" 1 "Conclusions") ]
                3 []
                [ LogicQuiz.questions_prompt 3
                    (LogicQuiz.questions_context
                       [ Samples.dict "Intro" 1 "Some introductory text about";
                         Samples.dict "Concl" 1 "Conclusions" ]) ]
                [ "What is some introductory text about?";
                  "How do the different sections (Intro, Concl) relate to each other?";
                  "What is the significance of the key concepts discussed in this document?" ])
    as Hmarks.
  split; apply Hmarks; try (vm_compute; reflexivity).
  - left. reflexivity.
  - right. left. reflexivity.
Defined.

(** ** Answer evaluation, whatever the model does *)

Lemma fallback_evaluation_not_empty (question user_answer : string)
    (chunks : list LogicQuiz.chunk) :
  LogicQuiz.generate_fallback_evaluation question user_answer chunks <> "".
Proof.
  unfold LogicQuiz.generate_fallback_evaluation.
  destruct (negb (truthy user_answer) || (len (strip user_answer) <? 5));
    [discriminate|].
  destruct (length (split_ws user_answer) <? 20);
    [|destruct (150 <? length (split_ws user_answer))];
    apply append_not_empty_r; discriminate.
Qed.

Lemma evaluation_attempt_trace (w : env) (question user_answer : string)
    (chunks : list Document) (context prompt : string) (attempt : nat) (t : trace) :
  exists o,
    LogicQuiz.evaluation_attempt w question user_answer chunks context prompt attempt t
    = (o, t ++ [prompt])
    /\ forall feedback, o = Return (Some feedback) -> feedback <> "".
Proof.
  unfold LogicQuiz.evaluation_attempt, try_except, bind, invoke, ret, raise,
    LogicQuiz.extract_text_from_response.
  destruct (llm_invoke w (length t) prompt) as [response|e].
  - destruct (truthy response && truthy (strip response)) eqn:Hok.
    + apply andb_true_iff in Hok. destruct Hok as [_ Hstrip].
      apply truthy_not_blank in Hstrip.
      destruct (LogicQuiz.is_evaluation_grounded response context user_answer);
        eexists; (split; [reflexivity|]); intros fb H; injection H as <-;
        [assumption | apply fallback_evaluation_not_empty].
    + eexists. split; [reflexivity|]. discriminate.
  - destruct (attempt <? LogicQuiz.max_retries - 1); eexists;
      (split; [reflexivity|]); discriminate.
Qed.

Lemma evaluation_attempts_trace (w : env) (question user_answer : string)
    (chunks : list Document) (context prompt : string) (attempts : list nat)
    (t : trace) :
  exists o added,
    LogicQuiz.evaluation_attempts w question user_answer chunks context prompt attempts t
    = (o, t ++ added)
    /\ length added <= length attempts
    /\ forall feedback, o = Return feedback -> feedback <> "".
Proof.
  revert t. induction attempts as [|attempt rest IH]; intros t.
  - eexists. exists []. rewrite app_nil_r. split; [reflexivity|].
    split; [apply Nat.le_refl|]. intros fb H. injection H as <-.
    apply fallback_evaluation_not_empty.
  - cbn [LogicQuiz.evaluation_attempts]. unfold bind.
    destruct (evaluation_attempt_trace w question user_answer chunks context prompt
                attempt t) as [o [Hrun Ho]].
    rewrite Hrun. destruct o as [[fb|]|e].
    + exists (Return fb), [prompt]. split; [reflexivity|]. split; [simpl; lia|].
      intros fb' H. injection H as <-. now apply Ho.
    + destruct (IH (t ++ [prompt])) as [o' [added [Hrun' [Hlen Ho']]]].
      exists o', (prompt :: added). rewrite Hrun', <- app_assoc.
      split; [reflexivity|]. split; [simpl; lia | exact Ho'].
    + exists (Raise e), [prompt]. split; [reflexivity|]. split; [simpl; lia|].
      discriminate.
Qed.

Lemma evaluation_cases (w : env) (question user_answer : string)
    (t : trace) :
  exists feedback added,
    LogicQuiz.evaluate_user_answer w question user_answer t
    = (Return feedback, t ++ added)
    /\ length added <= 3
    /\ feedback <> ""
    /\ (index_exists w = false ->
        feedback = LogicQuiz.no_content_reply /\ added = []).
Proof.
  unfold LogicQuiz.evaluate_user_answer, try_except, bind, ret.
  destruct (retrieval_docs w question 5 t) as [chunks [Hret Hnone]]. rewrite Hret.
  destruct chunks as [|c0 rest].
  - exists LogicQuiz.no_content_reply, []. rewrite app_nil_r.
    split; [reflexivity|]. split; [simpl; lia|]. split; [discriminate|].
    intros _. now split.
  - assert (Hidx : index_exists w = false ->
                   forall fb added, fb = LogicQuiz.no_content_reply /\ added = @nil string)
      by (intros Hno; specialize (Hnone Hno); discriminate).
    destruct (quiz_get_llm_cases w t) as [[_ [_ Hllm]] | [_ [e Hllm]]]; rewrite Hllm.
    + match goal with
      | |- context [LogicQuiz.evaluation_attempts w ?q ?a ?c ?x ?p ?n t] =>
          destruct (evaluation_attempts_trace w q a c x p n t)
            as [o [added [Hrun [Hlen Ho]]]]; rewrite Hrun
      end.
      change (length (range LogicQuiz.max_retries 1)) with 3 in Hlen.
      destruct o as [fb|e].
      * exists fb, added. split; [reflexivity|]. split; [assumption|].
        split; [now apply Ho | intros Hno; now apply Hidx].
      * exists (LogicQuiz.generate_fallback_evaluation question user_answer []), added.
        split; [reflexivity|]. split; [assumption|].
        split; [apply fallback_evaluation_not_empty | intros Hno; now apply Hidx].
    + exists (LogicQuiz.generate_fallback_evaluation question user_answer []), [].
      rewrite app_nil_r. split; [reflexivity|]. split; [simpl; lia|].
      split; [apply fallback_evaluation_not_empty | intros Hno; now apply Hidx].
Qed.

(** Evaluating an answer never raises and never returns an empty
    feedback, whatever the index and the model do; the model gets at most
    three prompts, and none when no index exists, in which case the
    feedback is the "no relevant document content" message. *)
Theorem evaluation_always_returns (w : env) (question user_answer : string)
    (t : trace) :
  exists feedback added,
    LogicQuiz.evaluate_user_answer w question user_answer t
    = (Return feedback, t ++ added)
    /\ length added <= 3
    /\ feedback <> ""
    /\ (index_exists w = false ->
        feedback = LogicQuiz.no_content_reply /\ added = []).
Proof.
  destruct (evaluation_cases w question user_answer t)
    as [feedback [added [Hrun [Hlen [Hne Hidx]]]]].
  exists feedback, added. split; [exact Hrun|]. split; [exact Hlen|].
  split; [exact Hne | exact Hidx].
Qed.

Lemma evaluation_attempt_fails (w : env) (question user_answer : string)
    (chunks : list Document) (context prompt : string) (attempt : nat) (t : trace)
    (e : exn) :
  llm_invoke w (length t) prompt = Raise e ->
  LogicQuiz.evaluation_attempt w question user_answer chunks context prompt attempt t =
  (if attempt <? LogicQuiz.max_retries - 1 then Return None else Raise e,
   t ++ [prompt]).
Proof.
  intros Hfail.
  unfold LogicQuiz.evaluation_attempt, try_except, bind, invoke.
  rewrite Hfail. destruct (attempt <? LogicQuiz.max_retries - 1); reflexivity.
Qed.

Lemma evaluation_attempts_all_fail (w : env) (question user_answer : string)
    (chunks : list Document) (context prompt : string) (t : trace) :
  (forall n p, exists e, llm_invoke w n p = Raise e) ->
  exists e,
    LogicQuiz.evaluation_attempts w question user_answer chunks context prompt
      (range LogicQuiz.max_retries 1) t =
    (Raise e, t ++ [prompt; prompt; prompt]).
Proof.
  intros Hdown.
  destruct (Hdown (length t) prompt) as [e0 H0].
  destruct (Hdown (length (t ++ [prompt])) prompt) as [e1 H1].
  destruct (Hdown (length ((t ++ [prompt]) ++ [prompt])) prompt) as [e2 H2].
  exists e2.
  change (range LogicQuiz.max_retries 1) with [0; 1; 2].
  cbn [LogicQuiz.evaluation_attempts]. unfold bind.
  rewrite (evaluation_attempt_fails _ _ _ _ _ _ _ _ _ H0).
  cbn -[LogicQuiz.evaluation_attempt].
  rewrite (evaluation_attempt_fails _ _ _ _ _ _ _ _ _ H1).
  cbn -[LogicQuiz.evaluation_attempt].
  rewrite (evaluation_attempt_fails _ _ _ _ _ _ _ _ _ H2). cbn.
  now rewrite <- !app_assoc.
Qed.

(** When chunks are retrieved but the model is unavailable, because it
    cannot be initialised or because every invocation fails, the feedback
    is the fallback evaluation computed without the retrieved chunks: it
    carries the word count and the length remark, and no overlap phrase. *)
Theorem evaluation_without_model (w : env) (question user_answer : string)
    (t : trace) (chunks : list Document) :
  QaEngine.retrieve_relevant_chunks w question 5 t = (Return chunks, t) ->
  chunks <> [] ->
  (has_token w = false \/ (exists e, endpoint_init w = Raise e) \/
   (forall n p, exists e, llm_invoke w n p = Raise e)) ->
  exists t',
    LogicQuiz.evaluate_user_answer w question user_answer t =
    (Return (LogicQuiz.generate_fallback_evaluation question user_answer []), t').
Proof.
  intros Hret Hchunks Hdown.
  unfold LogicQuiz.evaluate_user_answer, try_except, bind, ret. rewrite Hret.
  destruct chunks as [|c0 rest]; [contradiction|].
  destruct (quiz_get_llm_cases w t) as [[Htoken [[u Hinit] Hllm]] | [_ [e Hllm]]];
    rewrite Hllm; [|eexists; reflexivity].
  destruct Hdown as [Hno | [[e He] | Hfail]]; [congruence | congruence |].
  match goal with
  | |- context [LogicQuiz.evaluation_attempts w ?q ?a ?c ?x ?p _ t] =>
      destruct (evaluation_attempts_all_fail w q a c x p t Hfail) as [e He]
  end.
  rewrite He. eexists; reflexivity.
Qed.

Lemma evaluation_without_model_witness :
  exists t',
    LogicQuiz.evaluate_user_answer
      (mk_env None (Return tt) (fun _ _ => Return "unused") (fun text => Return [text])
         (fun _ => Raise (Exception "not a PDF")) (Return tt) true
         (Return (fun _ k => Return (firstn k [Samples.doc "Introduction" 1 1 "Some text."])))
         (fun _ => Return tt) (fun names => names))
      "What is it?" "It is some text, as the introduction says." [] =
    (Return (LogicQuiz.generate_fallback_evaluation "What is it?"
               "It is some text, as the introduction says." []), t').
Proof.
  apply (evaluation_without_model
           (mk_env None (Return tt) (fun _ _ => Return "unused") (fun text => Return [text])
              (fun _ => Raise (Exception "not a PDF")) (Return tt) true
              (Return (fun _ k => Return (firstn k [Samples.doc "Introduction" 1 1 "Some text."])))
              (fun _ => Return tt) (fun names => names))
           "What is it?" "It is some text, as the introduction says." []
           [Samples.doc "Introduction" 1 1 "Some text."]).
  - reflexivity.
  - discriminate.
  - left. reflexivity.
Defined.

(** ** The HTTP handlers *)

Lemma extract_text_value_error (w : env) (f : file) (e : exn) :
  Processor.extract_text w f = Raise e -> exists msg, e = ValueError msg.
Proof.
  unfold Processor.extract_text.
  destruct (endswith ".pdf" (lower (filename f))).
  - unfold Processor.extract_text_from_pdf.
    match goal with
    | |- match ?body with _ => _ end = _ -> _ => destruct body as [text|e0]
    end; [discriminate|].
    intros H. injection H as <-. eexists; reflexivity.
  - destruct (endswith ".txt" (lower (filename f))).
    + unfold Processor.extract_text_from_txt.
      destruct (truthy (strip (content f))); simpl; [discriminate|].
      intros H. injection H as <-. eexists; reflexivity.
    + intros H. injection H as <-. eexists; reflexivity.
Qed.

(** Processing either returns a result with at least one chunk, after at
    most three prompts for the summary, or raises a [ValueError] before
    any prompt. *)
Lemma process_document_cases (w : env) (chunker : string -> outcome (list string))
    (f : file) (t : trace) :
  exists o added,
    Processor.process_document_with w chunker f t = (o, t ++ added)
    /\ length added <= 3
    /\ (forall e, o = Raise e -> added = [] /\ exists msg, e = ValueError msg)
    /\ (forall res, o = Return res -> Processor.r_chunks res <> []).
Proof.
  unfold Processor.process_document_with, bind at 1, lift.
  destruct (Processor.extract_text w f) as [text|e] eqn:Htext.
  2:{ exists (Raise e), []. rewrite app_nil_r.
      split; [reflexivity|]. split; [simpl; lia|]. split; [|discriminate].
      intros e' H. injection H as <-. split; [reflexivity|].
      eapply extract_text_value_error; eassumption. }
  destruct (Processor.split_into_sections text) as [|kv0 raw].
  { eexists. exists []. rewrite app_nil_r. unfold raise.
    split; [reflexivity|]. split; [simpl; lia|]. split; [|discriminate].
    intros e' H. injection H as <-. split; [reflexivity | eexists; reflexivity]. }
  destruct (fold_left (Processor.chunk_step chunker) (kv0 :: raw) ([], []))
    as [sections chunks].
  destruct chunks as [|c0 chunks].
  { eexists. exists []. rewrite app_nil_r. unfold raise.
    split; [reflexivity|]. split; [simpl; lia|]. split; [|discriminate].
    intros e' H. injection H as <-. split; [reflexivity | eexists; reflexivity]. }
  unfold bind, try_except.
  destruct (generate_summary_cases w (kv0 :: raw) t)
    as [summary [added [Hrun [Hlen _]]]].
  rewrite Hrun. unfold ret. eexists. exists added.
  split; [reflexivity|]. split; [assumption|]. split; [discriminate|].
  intros res H. injection H as <-. discriminate.
Qed.

(** An upload never ends in a server error, and the input decides the
    answer.  A missing or unnamed file is answered 400 "No file uploaded"; a
    name that ends neither in [.pdf] nor in [.txt], in lower case, is
    answered 400 "Only PDF and TXT files are supported"; a file whose
    processing raises is answered 400 with the message of the exception,
    which is a [ValueError].  Every 400 leaves the stored chunks as they
    were and the model is not called.  In the remaining case, a named
    [.pdf] or [.txt] file whose processing returns, the answer is 200, the
    chunks of the new document replace the stored ones, and a failure to
    build the index is reported in the body as status "failed" instead of
    failing the request. *)
Theorem upload_never_fails_the_server (w : env) (document_chunks : list chunk_dict)
    (upload : option file) (t : trace) :
  exists resp chunks added,
    App.process w document_chunks upload t = (Return (resp, chunks), t ++ added)
    /\ length added <= 3
    /\ ((fst resp = 400 /\ chunks = document_chunks /\ added = []
         /\ exists msg, snd resp = App.ErrorJson msg [])
        \/ (fst resp = 200
            /\ exists f res status error,
                 upload = Some f
                 /\ Processor.process_document w f t = (Return res, t ++ added)
                 /\ chunks = Processor.r_chunks res /\ chunks <> []
                 /\ snd resp = App.ProcessJson res status error (filename f)
                                 (length chunks)
                 /\ match QaEngine.build_vector_store w chunks with
                    | Return _ => status = "success" /\ error = None
                    | Raise e => status = "failed" /\ error = Some (str_of_exn e)
                    end))
    /\ (upload = None \/ (exists f, upload = Some f /\ filename f = "") ->
        resp = (400, App.ErrorJson "No file uploaded" []))
    /\ (forall f, upload = Some f -> filename f <> "" ->
        endswith ".pdf" (filename f) = false -> endswith ".txt" (filename f) = false ->
        resp = (400, App.ErrorJson "Only PDF and TXT files are supported" []))
    /\ (forall f, upload = Some f -> filename f <> "" ->
        endswith ".pdf" (filename f) = true \/ endswith ".txt" (filename f) = true ->
        (forall e t1, Processor.process_document w f t = (Raise e, t1) ->
           exists msg, e = ValueError msg /\ resp = (400, App.ErrorJson msg []))
        /\ (forall res t1, Processor.process_document w f t = (Return res, t1) ->
              t1 = t ++ added
              /\ chunks = Processor.r_chunks res /\ chunks <> []
              /\ exists status error,
                   resp = (200, App.ProcessJson res status error (filename f)
                                  (length chunks))
                   /\ match QaEngine.build_vector_store w chunks with
                      | Return _ => status = "success" /\ error = None
                      | Raise e => status = "failed" /\ error = Some (str_of_exn e)
                      end)).
Proof.
  unfold App.process. destruct upload as [f|].
  2:{ exists (400, App.ErrorJson "No file uploaded" []), document_chunks, [].
      rewrite app_nil_r. split; [reflexivity|]. split; [simpl; lia|].
      split; [left; repeat split; now eexists|].
      split; [reflexivity|]. split; intros f H; discriminate H. }
  destruct (truthy (filename f)) eqn:Hname; cbn [negb].
  2:{ exists (400, App.ErrorJson "No file uploaded" []), document_chunks, [].
      rewrite app_nil_r. split; [reflexivity|]. split; [simpl; lia|].
      split; [left; repeat split; now eexists|].
      split; [reflexivity|].
      split; intros f' H; injection H as <-; intros Hne;
        apply truthy_not_blank in Hne; congruence. }
  assert (Hnamed : filename f <> "") by now apply truthy_not_blank.
  destruct (endswith ".pdf" (filename f) || endswith ".txt" (filename f)) eqn:Hext;
    cbn [negb].
  2:{ apply orb_false_iff in Hext. destruct Hext as [Hpdf Htxt].
      exists (400, App.ErrorJson "Only PDF and TXT files are supported" []),
        document_chunks, [].
      rewrite app_nil_r. split; [reflexivity|]. split; [simpl; lia|].
      split; [left; repeat split; now eexists|].
      split.
      { intros [H | [f' [H Hblank]]]; [discriminate H|].
        injection H as <-. contradiction. }
      split; [reflexivity|].
      intros f' H. injection H as <-. intros _ [H | H]; congruence. }
  unfold try_except, bind, ret.
  destruct (process_document_cases w
              (fun sec_text => Return (Processor.chunk_section w sec_text)) f t)
    as [o [added [Hrun [Hlen [Hraise Hreturn]]]]].
  fold (Processor.process_document w f) in Hrun. rewrite Hrun.
  destruct o as [res|e].
  - specialize (Hreturn res eq_refl).
    destruct (Processor.r_chunks res) as [|c0 rest] eqn:Hchunks; [contradiction|].
    rewrite <- Hchunks in *.
    assert (Hbody : exists status error,
              match QaEngine.build_vector_store w (Processor.r_chunks res) with
              | Return _ => ("success", None)
              | Raise vs_error => ("failed", Some (str_of_exn vs_error))
              end = (status, error)
              /\ match QaEngine.build_vector_store w (Processor.r_chunks res) with
                 | Return _ => status = "success" /\ error = None
                 | Raise e => status = "failed" /\ error = Some (str_of_exn e)
                 end).
    { destruct (QaEngine.build_vector_store w (Processor.r_chunks res)) as [docs|e];
        eexists; eexists; (split; [reflexivity | split; reflexivity]). }
    destruct Hbody as [status [error [Hpair Hbuild]]]. rewrite Hpair.
    exists (200, App.ProcessJson res status error (filename f)
                   (length (Processor.r_chunks res))),
      (Processor.r_chunks res), added.
    split; [reflexivity|]. split; [assumption|].
    split.
    { right. split; [reflexivity|]. exists f, res, status, error.
      repeat split; assumption. }
    split.
    { intros [H | [f' [H Hblank]]]; [discriminate H|].
      injection H as <-. contradiction. }
    split.
    { intros f' H. injection H as <-. intros _ Hpdf Htxt.
      rewrite Hpdf, Htxt in Hext. discriminate Hext. }
    intros f' H. injection H as <-. intros _ _. rewrite Hrun. split.
    + intros e t1 H. discriminate H.
    + intros res' t1 H. injection H as <- <-.
      split; [reflexivity|]. split; [reflexivity|]. split; [assumption|].
      exists status, error. split; [reflexivity | assumption].
  - destruct (Hraise e eq_refl) as [-> [msg ->]]. rewrite app_nil_r.
    exists (400, App.ErrorJson msg []), document_chunks, [].
    rewrite app_nil_r in *. split; [reflexivity|]. split; [simpl; lia|].
    split; [left; repeat split; now eexists|].
    split.
    { intros [H | [f' [H Hblank]]]; [discriminate H|].
      injection H as <-. contradiction. }
    split.
    { intros f' H. injection H as <-. intros _ Hpdf Htxt.
      rewrite Hpdf, Htxt in Hext. discriminate Hext. }
    intros f' H. injection H as <-. intros _ _. rewrite Hrun. split.
    + intros e t1 H. injection H as <- _. exists msg. split; reflexivity.
    + intros res' t1 H. discriminate H.
Qed.

Lemma answer_when_index_absent (w : env) (query : string) (k : nat) (t : trace) :
  index_exists w = false ->
  QaEngine.generate_answer_with_sources w query k t =
  (Return (QaEngine.mk_answer
             "Error generating answer: Vector store not found. Please process a document first."
             [] "error"), t).
Proof.
  intros Hno.
  unfold QaEngine.generate_answer_with_sources, try_except, bind.
  rewrite load_vector_store_cases, Hno. reflexivity.
Qed.

(** Every request that carries a non-blank string as its query is
    answered 200, with the result of the answer operation and the query
    echoed, after at most four prompts to the model.  This holds when no
    document has been processed too: the body is then the result of
    confidence "error", and neither the "No document has been processed
    yet" reply nor a 500 is given, whichever exceptions the first [except]
    clause would catch. *)
Theorem ask_answers_every_query (w : env) (is_file_not_found : exn -> bool)
    (fields : list (string * App.jvalue)) (query : string) (t : trace) :
  dict_get fields "query" = Some (App.JStr query) ->
  strip query <> "" ->
  exists res added,
    App.ask w is_file_not_found (Return (App.Object fields)) t
    = (Return (200, App.AnswerJson res query), t ++ added)
    /\ QaEngine.generate_answer_with_sources w query 5 t = (Return res, t ++ added)
    /\ length added <= 4
    /\ (index_exists w = false ->
        added = []
        /\ res = QaEngine.mk_answer
                   "Error generating answer: Vector store not found. Please process a document first."
                   [] "error").
Proof.
  intros Hquery Hne.
  destruct (answer_outcome_total w query 5 t) as [res [added [Hrun [Hlen [Hout _]]]]].
  exists res, added.
  assert (Hfield : App.required_field fields "query" = Return (Some query)).
  { unfold App.required_field. rewrite Hquery.
    apply truthy_not_blank in Hne. rewrite Hne.
    destruct query; [discriminate Hne | reflexivity]. }
  split; [|split; [exact Hrun | split; [exact Hlen|]]].
  - unfold App.ask, try_except, bind, lift, ret.
    destruct fields as [|kv fields]; [discriminate Hquery|].
    rewrite Hfield, Hrun. reflexivity.
  - intros Hno.
    rewrite (answer_when_index_absent w query 5 t Hno) in Hrun.
    injection Hrun as <- Ht. split; [|reflexivity].
    apply (f_equal (@length string)) in Ht.
    rewrite length_app in Ht. destruct added; [reflexivity | simpl in Ht; lia].
Qed.

Lemma ask_answers_every_query_witness :
  exists res added,
    App.ask Samples.fresh (fun _ => true)
      (Return (App.Object [("query", App.JStr "what?")])) []
    = (Return (200, App.AnswerJson res "what?"), [] ++ added)
    /\ QaEngine.generate_answer_with_sources Samples.fresh "what?" 5 []
       = (Return res, [] ++ added)
    /\ length added <= 4
    /\ (index_exists Samples.fresh = false ->
        added = []
        /\ res = QaEngine.mk_answer
                   "Error generating answer: Vector store not found. Please process a document first."
                   [] "error").
Proof.
  apply (ask_answers_every_query Samples.fresh (fun _ => true)
           [("query", App.JStr "what?")] "what?" []).
  - reflexivity.
  - discriminate.
Defined.

(** With chunks stored by an upload, the challenge is always initialised:
    the reply is 200 with exactly three questions, each ending with a
    question mark, whatever the request body is and whatever the model
    does; the body is not even read. *)
Theorem challenge_init_from_stored_chunks (w : env) (document_chunks : list chunk_dict)
    (request_chunks : outcome (option (list chunk_dict))) (t : trace) :
  document_chunks <> [] ->
  exists questions added,
    App.challenge_init w document_chunks request_chunks t
    = (Return (200, App.QuestionsJson questions 3 (length document_chunks)), t ++ added)
    /\ length questions = 3
    /\ (forall q, In q questions -> endswith "?" q = true)
    /\ length added <= 3.
Proof.
  intros Hstored.
  destruct (challenge_outcome w (map LogicQuiz.Dict document_chunks) 3 t)
    as [qs [added [Hrun [Hlen [[Hmark [_ Heq]] _]]]]].
  assert (Hthree : length qs = 3).
  { apply Heq; [|lia]. destruct document_chunks; [contradiction | discriminate]. }
  exists qs, added.
  split; [|split; [exact Hthree | split; [exact Hmark | exact Hlen]]].
  unfold App.challenge_init, try_except, bind, ret.
  destruct document_chunks as [|c0 rest]; [contradiction|].
  rewrite Hrun. destruct qs as [|q0 qs]; [discriminate Hthree|].
  rewrite Hthree. reflexivity.
Qed.

Lemma challenge_init_from_stored_chunks_witness :
  exists questions added,
    App.challenge_init Samples.fresh
      [Samples.dict "Introduction" 1 "The only chunk of the document."]
      (Raise (Exception "415 Unsupported Media Type")) []
    = (Return (200, App.QuestionsJson questions 3
                      (length [Samples.dict "Introduction" 1
                                 "The only chunk of the document."])), [] ++ added)
    /\ length questions = 3
    /\ (forall q, In q questions -> endswith "?" q = true)
    /\ length added <= 3.
Proof.
  apply (challenge_init_from_stored_chunks Samples.fresh
           [Samples.dict "Introduction" 1 "The only chunk of the document."]
           (Raise (Exception "415 Unsupported Media Type")) []).
  discriminate.
Defined.

(** Every request that carries non-blank strings as question and answer
    is answered 200, with a feedback that is not empty and with the
    question and the answer echoed: the "Failed to generate evaluation
    feedback" reply is never given. *)
Theorem challenge_evaluate_replies (w : env) (fields : list (string * App.jvalue))
    (question answer : string) (t : trace) :
  dict_get fields "question" = Some (App.JStr question) ->
  dict_get fields "answer" = Some (App.JStr answer) ->
  strip question <> "" -> strip answer <> "" ->
  exists feedback added,
    App.challenge_evaluate w (Return (App.Object fields)) t
    = (Return (200, App.FeedbackJson feedback question answer), t ++ added)
    /\ LogicQuiz.evaluate_user_answer w question answer t = (Return feedback, t ++ added)
    /\ feedback <> ""
    /\ length added <= 3.
Proof.
  intros Hq Ha Hqne Hane.
  destruct (evaluation_cases w question answer t)
    as [feedback [added [Hrun [Hlen [Hne _]]]]].
  exists feedback, added.
  assert (Hfield : forall key value,
            dict_get fields key = Some (App.JStr value) -> strip value <> "" ->
            App.required_field fields key = Return (Some value)).
  { intros key value Hget Hvalue. unfold App.required_field. rewrite Hget.
    apply truthy_not_blank in Hvalue. rewrite Hvalue.
    destruct value; [discriminate Hvalue | reflexivity]. }
  split; [|split; [exact Hrun | split; [exact Hne | exact Hlen]]].
  unfold App.challenge_evaluate, try_except, bind, lift, ret.
  destruct fields as [|kv fields]; [discriminate Hq|].
  rewrite (Hfield "question" question Hq Hqne), (Hfield "answer" answer Ha Hane), Hrun.
  apply truthy_not_blank in Hne. rewrite Hne. reflexivity.
Qed.

Lemma challenge_evaluate_replies_witness :
  exists feedback added,
    App.challenge_evaluate Samples.fresh
      (Return (App.Object [("question", App.JStr "What is it?");
                           ("answer", App.JStr "A document.")])) []
    = (Return (200, App.FeedbackJson feedback "What is it?" "A document."), [] ++ added)
    /\ LogicQuiz.evaluate_user_answer Samples.fresh "What is it?" "A document." []
       = (Return feedback, [] ++ added)
    /\ feedback <> ""
    /\ length added <= 3.
Proof.
  apply (challenge_evaluate_replies Samples.fresh
           [("question", App.JStr "What is it?"); ("answer", App.JStr "A document.")]
           "What is it?" "A document." []);
    first [reflexivity | discriminate].
Defined.

Lemma info_loop (l : list chunk_dict) (sections : list string) (total : nat) :
  fold_left App.info_step l (sections, total) =
  (fold_left (fun acc x => set_add x acc) (map section_or_unknown l) sections,
   total + list_sum (map (fun c => len (LogicQuiz.get_or (c_text c) "")) l)).
Proof.
  revert sections total. induction l as [|c l IH]; intros sections total; simpl.
  - now rewrite Nat.add_0_r.
  - unfold App.info_step at 2. simpl. rewrite IH. f_equal. lia.
Qed.

(** The statistics of the stored chunks: with no chunk the reply is 400;
    otherwise it is 200 and counts the chunks, the distinct sections (a
    chunk without section counting under "Unknown"), of which there is at
    least one and at most one per chunk, the characters of all chunk texts,
    and their average per chunk rounded down. *)
Theorem document_info_statistics (w : env) (document_chunks : list chunk_dict) :
  (document_chunks = [] -> fst (App.document_info w document_chunks) = 400)
  /\ (document_chunks <> [] ->
      exists sections total_characters,
        App.document_info w document_chunks =
        (200, App.InfoJson (length document_chunks) (set_order w sections)
                (length sections) total_characters
                (total_characters / length document_chunks))
        /\ NoDup sections
        /\ (forall name, In name sections <->
                         exists c, In c document_chunks /\ section_or_unknown c = name)
        /\ 1 <= length sections <= length document_chunks
        /\ total_characters =
           list_sum (map (fun c => len (LogicQuiz.get_or (c_text c) "")) document_chunks)).
Proof.
  split; [intros ->; reflexivity|].
  intros Hne.
  exists (set_of (map section_or_unknown document_chunks)),
         (list_sum (map (fun c => len (LogicQuiz.get_or (c_text c) "")) document_chunks)).
  assert (Hin : forall name,
            In name (set_of (map section_or_unknown document_chunks)) <->
            exists c, In c document_chunks /\ section_or_unknown c = name).
  { intros name. rewrite set_of_In, in_map_iff. split.
    - intros [c [Hc Hin]]. now exists c.
    - intros [c [Hin Hc]]. now exists c. }
  split; [|split; [apply set_of_NoDup | split; [exact Hin | split; [|reflexivity]]]].
  - unfold App.document_info. destruct document_chunks as [|c0 rest]; [contradiction|].
    rewrite info_loop. reflexivity.
  - split.
    + destruct document_chunks as [|c0 rest]; [contradiction|].
      assert (H0 : In (section_or_unknown c0)
                     (set_of (map section_or_unknown (c0 :: rest))))
        by (apply Hin; exists c0; split; [now left | reflexivity]).
      destruct (set_of (map section_or_unknown (c0 :: rest))); [destruct H0 | simpl; lia].
    + rewrite <- (length_map section_or_unknown document_chunks).
      apply NoDup_incl_length; [apply set_of_NoDup|].
      intros name Hname. now apply set_of_In.
Qed.

Lemma document_info_statistics_witness :
  exists sections total_characters,
    App.document_info Samples.fresh
      [ Samples.dict "Introduction" 1 "alpha"; Samples.dict "Introduction" 2 "beta";
        mk_chunk None None (Some "gamma") None ] =
    (200, App.InfoJson 3 (set_order Samples.fresh sections) (length sections)
            total_characters (total_characters / 3))
    /\ NoDup sections
    /\ 1 <= length sections <= 3
    /\ total_characters = 14.
Proof.
  destruct (document_info_statistics Samples.fresh
              [ Samples.dict "Introduction" 1 "alpha"; Samples.dict "Introduction" 2 "beta";
                mk_chunk None None (Some "gamma") None ])
    as [_ Hinfo].
  destruct Hinfo as [sections [total [Hrun [Hnd [_ [Hlen Htotal]]]]]]; [discriminate|].
  exists sections, total. split; [exact Hrun|]. split; [exact Hnd|].
  split; [exact Hlen | exact Htotal].
Defined.
